(** * Take-Note: the note store and the editor history, embedded in Rocq

    The development follows [src/js/NoteManager.js] (class [NoteManager]) and
    the editor class ([Editor], undo / redo history).

    - Module [Js]: the fragment of JavaScript strings the code relies on
      ([trim], [split], [replace] with the two regular expressions of the
      source, [substring], [toLowerCase]).
    - Module [Notes]: the note store.  The object's fields, the signed-in
      user, the remote table, the two localStorage entries and the timer
      queue form one [World]; every method is a state transformer on it.
    - Module [Editor]: the undo / redo stacks. *)

From Stdlib Require Import String Ascii.
From Stdlib Require Import List Bool Arith NArith Lia.
Import ListNotations.

Set Implicit Arguments.

(* ================================================================== *)
(** ** JavaScript strings *)
(* ================================================================== *)

Module Js.

(** A JavaScript string is a sequence of UTF-16 code units. *)
Definition codeunit := N.
Definition jsstring := list codeunit.

(** String literals of the source are written [js "..."]. *)
Definition js (s : string) : jsstring :=
  map N_of_ascii (list_ascii_of_string s).
Arguments js s%_string.

Fixpoint eqb (a b : jsstring) : bool :=
  match a, b with
  | [], [] => true
  | x :: a', y :: b' => N.eqb x y && eqb a' b'
  | _, _ => false
  end.

(** Truthiness of a string: [!s] holds exactly for the empty string. *)
Definition truthy (s : jsstring) : bool :=
  match s with [] => false | _ :: _ => true end.

(** [a || b] on strings. *)
Definition or_else (a b : jsstring) : jsstring :=
  if truthy a then a else b.

Local Open Scope N_scope.

(** ECMAScript [WhiteSpace] and [LineTerminator] code units: what [\s]
    matches and what [trim] removes. *)
Definition isWhiteSpace (c : codeunit) : bool :=
  ((9 <=? c) && (c <=? 13)) || (c =? 32) || (c =? 160) || (c =? 5760)
  || ((8192 <=? c) && (c <=? 8202)) || (c =? 8232) || (c =? 8233)
  || (c =? 8239) || (c =? 8287) || (c =? 12288) || (c =? 65279).

Definition LF : codeunit := 10.
Definition LT : codeunit := 60.   (* < *)
Definition GT : codeunit := 62.   (* > *)
Definition UNDERSCORE : codeunit := 95.

Definition isLF (c : codeunit) : bool := c =? LF.

(** The class [[.!?]]. *)
Definition isSentenceEnd (c : codeunit) : bool :=
  (c =? 46) || (c =? 33) || (c =? 63).

Definition isDigit (c : codeunit) : bool := (48 <=? c) && (c <=? 57).
Definition isUpper (c : codeunit) : bool := (65 <=? c) && (c <=? 90).
Definition isLower (c : codeunit) : bool := (97 <=? c) && (c <=? 122).

(** The class [[a-z0-9]] under the [i] flag.  Without the [u] flag a code
    unit outside ASCII never canonicalizes to an ASCII letter, so the class
    is exactly the ASCII letters of both cases and the digits. *)
Definition isAlnumIgnoreCase (c : codeunit) : bool :=
  isLower c || isUpper c || isDigit c.

(** [String.prototype.toLowerCase] on the Basic Latin and Latin-1 ranges;
    the code only applies it to the output of [replace(/[^a-z0-9]/gi, '_')],
    which stays inside Basic Latin. *)
Definition lowerUnit (c : codeunit) : codeunit :=
  if isUpper c then c + 32
  else if (192 <=? c) && (c <=? 222) && negb (c =? 215) then c + 32
  else c.

Local Close Scope N_scope.

Definition toLowerCase (s : jsstring) : jsstring := map lowerUnit s.

(** [s.replace(/[C]/g, r)] for a one-unit class [C] and a one-unit [r]. *)
Definition replaceEach (cls : codeunit -> bool) (r : codeunit) (s : jsstring)
  : jsstring :=
  map (fun c => if cls c then r else c) s.

(** [s.substring(0, n)]. *)
Definition substring0 (n : nat) (s : jsstring) : jsstring := firstn n s.

Fixpoint trimStart (s : jsstring) : jsstring :=
  match s with
  | [] => []
  | c :: r => if isWhiteSpace c then trimStart r else s
  end.

Fixpoint trimEnd (s : jsstring) : jsstring :=
  match s with
  | [] => []
  | c :: r =>
      match trimEnd r with
      | [] => if isWhiteSpace c then [] else [c]
      | r' => c :: r'
      end
  end.

Definition trim (s : jsstring) : jsstring := trimEnd (trimStart s).

(** [s.split(sep)] for a separator of one code unit: the pieces between
    the occurrences, [[""]] for the empty string. *)
Fixpoint splitOn (sep : codeunit -> bool) (s : jsstring) : list jsstring :=
  match s with
  | [] => [[]]
  | c :: r =>
      if sep c then [] :: splitOn sep r
      else match splitOn sep r with
           | [] => [[c]]
           | l :: ls => (c :: l) :: ls
           end
  end.

(** [s.split(/[C]+/)]: the pieces between the maximal runs of [C]; a run at
    either end leaves an empty piece there.  [cur] is the piece being read
    (reversed), [inrun] tells that the previous unit was a separator. *)
Fixpoint splitRunsFrom (sep : codeunit -> bool) (cur : jsstring)
  (inrun : bool) (s : jsstring) : list jsstring :=
  match s with
  | [] => [rev cur]
  | c :: r =>
      if sep c then
        if inrun then splitRunsFrom sep [] true r
        else rev cur :: splitRunsFrom sep [] true r
      else splitRunsFrom sep (c :: cur) false r
  end.

Definition splitRuns (sep : codeunit -> bool) (s : jsstring) : list jsstring :=
  splitRunsFrom sep [] false s.

(** [s.replace(/<[^>]*>/g, '')].  A [<] opens a match exactly when some [>]
    follows it; the match then runs to the first such [>]. *)
Fixpoint stripTagsFrom (intag : bool) (s : jsstring) : jsstring :=
  match s with
  | [] => []
  | c :: r =>
      if intag then
        if N.eqb c GT then stripTagsFrom false r else stripTagsFrom true r
      else if N.eqb c LT && existsb (N.eqb GT) r then stripTagsFrom true r
      else c :: stripTagsFrom false r
  end.

Definition stripTags (s : jsstring) : jsstring := stripTagsFrom false s.

End Js.

(* ================================================================== *)
(** ** The note store ([class NoteManager]) *)
(* ================================================================== *)

Module Notes.
Import Js.

(** *** Data *)

Record Note := mkNote {
  id : jsstring;
  title : jsstring;
  content : jsstring;
  createdAt : jsstring;
  updatedAt : jsstring }.

(** A row of the remote [notes] table. *)
Record Row := mkRow {
  row_id : jsstring;
  row_user_id : jsstring;
  row_title : jsstring;
  row_content : jsstring;
  row_created_at : jsstring;
  row_updated_at : jsstring }.

Record User := mkUser { user_id : jsstring; user_email : jsstring }.

(** The [updates] object of [updateNote]: the keys [id], [title] and
    [content], each present or not.  These are the keys a note and a row of
    the table have in common, so the object means the same to the spread in
    [updateNoteInStorage] and to the [update] of the table. *)
Record Updates := mkPatch {
  upd_id : option jsstring;
  upd_title : option jsstring;
  upd_content : option jsstring }.

(** An object with no [id] key, [{ title, content }], as [updateNoteTitle]
    passes it. *)
Definition mkUpdates (ttl body : option jsstring) : Updates :=
  mkPatch None ttl body.

Record Stats := mkStats { words : nat; characters : nat; sentences : nat }.

Record Export := mkExport {
  export_title : jsstring;
  export_content : jsstring;
  export_filename : jsstring }.

(** The two DOM reads of the source, on a detached [div] whose [innerHTML]
    was set to the argument.  The HTML parser belongs to the browser, so it
    is a parameter of the functions that use it. *)
Record Dom := mkDom {
  textContent : jsstring -> jsstring;
  innerText : jsstring -> jsstring }.

(** A browser restricted to fragments made of tags and text (no character
    references, comments or raw-text elements): the text content is what
    stands outside the tags. *)
Definition markupDom : Dom := mkDom stripTags stripTags.

(** The browser reads the fragment [html] as tags and text: the text
    content of the detached [div], and its inner text, is what stands
    outside the tags. *)
Definition readsAsMarkup (D : Dom) (html : jsstring) : Prop :=
  textContent D html = stripTags html /\ innerText D html = stripTags html.

(** The fields of the [NoteManager] object. *)
Record NoteManager := mkNoteManager {
  notes : list Note;
  activeNoteId : option jsstring;       (* [None] is [null] *)
  loading : bool;
  useDatabase : bool;
  autoSaveTimeout : option nat }.       (* [None] is [undefined] *)

(** A pending [setTimeout] of [autoSaveNote]: its handle, the time at which
    it is due, and the arguments captured by its callback. *)
Record Timer := mkTimer {
  timer_id : nat;
  timer_due : nat;
  timer_note : jsstring;
  timer_content : jsstring }.

(** Requests sent to the remote table. *)
Inductive Request :=
| SelectOne (uid : jsstring)                       (* select('id') ... limit(1) *)
| SelectAll (uid : jsstring)                       (* select('*') ... order(updated_at desc) *)
| Insert (uid ttl body : jsstring)
| Update (nid uid : jsstring) (u : Updates) (stamp : jsstring)
| Delete (nid uid : jsstring).

(** How the client answers an awaited request: it resolves with [data], it
    resolves with an [error] (and [data] null), or the promise rejects. *)
Inductive Response (A : Type) :=
| Data (a : A)
| Error
| Rejected.
Arguments Error {A}.
Arguments Rejected {A}.

Inductive Outcome := Accepted | Refused | Raised.

(** What a method call completes with when it can throw. *)
Inductive Completion (A : Type) :=
| Return (a : A)
| Throw (message : jsstring).

(** Everything the methods read or write. *)
Record World := mkWorld {
  this : NoteManager;
  user : option User;                            (* [this.auth.user] *)
  table : list Row;                              (* the remote table *)
  lsNotes : option (option (list Note));         (* localStorage['takenote-notes'] *)
  lsActiveId : option jsstring;                  (* localStorage['takenote-active-id'] *)
  requests : list Request;                       (* requests sent so far, oldest first *)
  tick : nat;                                    (* environment interactions so far *)
  changes : nat;                                 (* [onNotesChange] calls so far *)
  now : nat;                                     (* current time, in ms *)
  timers : list Timer;                           (* pending timeouts *)
  nextTimer : nat;                               (* next timeout handle *)
  fired : list (jsstring * jsstring) }.          (* auto-save callbacks run so far *)

(** The entry ['takenote-notes'] is kept parsed: [None] when absent (or the
    empty string), [Some None] when [JSON.parse] throws on it, [Some (Some l)]
    when it parses to the array [l].  [JSON.stringify] then [JSON.parse] on
    an array of notes gives the array back.  The entry is written by
    [saveNotesToStorage] alone, as the JSON text of [this.notes]; text that
    parses to something that is not an array of notes (['null'], an object)
    has no value here and is outside this model. *)

(** The environment's answers, indexed by [tick]. *)
Record Oracle := mkOracle {
  outcome : nat -> Outcome;            (* fate of the remote request *)
  quotaExceeded : nat -> bool;         (* [localStorage.setItem] throws *)
  serverId : nat -> jsstring;          (* id generated by the table *)
  serverTime : nat -> jsstring;        (* the table's [now()] *)
  dateNow : nat -> jsstring;           (* [Date.now()] in decimal *)
  dateISO : nat -> jsstring;           (* [new Date().toISOString()] *)
  random36 : nat -> jsstring }.        (* [Math.random().toString(36).substr(2, 9)] *)

(** *** Field updates *)

Definition set_notes (l : list Note) (m : NoteManager) : NoteManager :=
  mkNoteManager l (activeNoteId m) (loading m) (useDatabase m) (autoSaveTimeout m).
Definition set_activeNoteId (a : option jsstring) (m : NoteManager) : NoteManager :=
  mkNoteManager (notes m) a (loading m) (useDatabase m) (autoSaveTimeout m).
Definition set_loading (b : bool) (m : NoteManager) : NoteManager :=
  mkNoteManager (notes m) (activeNoteId m) b (useDatabase m) (autoSaveTimeout m).
Definition set_useDatabase (b : bool) (m : NoteManager) : NoteManager :=
  mkNoteManager (notes m) (activeNoteId m) (loading m) b (autoSaveTimeout m).
Definition set_autoSaveTimeout (t : option nat) (m : NoteManager) : NoteManager :=
  mkNoteManager (notes m) (activeNoteId m) (loading m) (useDatabase m) t.

Definition with_this (f : NoteManager -> NoteManager) (w : World) : World :=
  mkWorld (f (this w)) (user w) (table w) (lsNotes w) (lsActiveId w)
    (requests w) (tick w) (changes w) (now w) (timers w) (nextTimer w) (fired w).
Definition set_user (u : option User) (w : World) : World :=
  mkWorld (this w) u (table w) (lsNotes w) (lsActiveId w)
    (requests w) (tick w) (changes w) (now w) (timers w) (nextTimer w) (fired w).
Definition set_table (t : list Row) (w : World) : World :=
  mkWorld (this w) (user w) t (lsNotes w) (lsActiveId w)
    (requests w) (tick w) (changes w) (now w) (timers w) (nextTimer w) (fired w).
Definition set_lsNotes (v : option (option (list Note))) (w : World) : World :=
  mkWorld (this w) (user w) (table w) v (lsActiveId w)
    (requests w) (tick w) (changes w) (now w) (timers w) (nextTimer w) (fired w).
Definition set_lsActiveId (v : option jsstring) (w : World) : World :=
  mkWorld (this w) (user w) (table w) (lsNotes w) v
    (requests w) (tick w) (changes w) (now w) (timers w) (nextTimer w) (fired w).
Definition sent (r : Request) (w : World) : World :=
  mkWorld (this w) (user w) (table w) (lsNotes w) (lsActiveId w)
    (requests w ++ [r]) (S (tick w)) (changes w) (now w) (timers w)
    (nextTimer w) (fired w).
Definition ticked (w : World) : World :=
  mkWorld (this w) (user w) (table w) (lsNotes w) (lsActiveId w)
    (requests w) (S (tick w)) (changes w) (now w) (timers w) (nextTimer w) (fired w).
Definition notified (w : World) : World :=
  mkWorld (this w) (user w) (table w) (lsNotes w) (lsActiveId w)
    (requests w) (tick w) (S (changes w)) (now w) (timers w) (nextTimer w) (fired w).
Definition set_now (t : nat) (w : World) : World :=
  mkWorld (this w) (user w) (table w) (lsNotes w) (lsActiveId w)
    (requests w) (tick w) (changes w) t (timers w) (nextTimer w) (fired w).
Definition set_timers (l : list Timer) (w : World) : World :=
  mkWorld (this w) (user w) (table w) (lsNotes w) (lsActiveId w)
    (requests w) (tick w) (changes w) (now w) l (nextTimer w) (fired w).
Definition set_nextTimer (n : nat) (w : World) : World :=
  mkWorld (this w) (user w) (table w) (lsNotes w) (lsActiveId w)
    (requests w) (tick w) (changes w) (now w) (timers w) n (fired w).
Definition logged (e : jsstring * jsstring) (w : World) : World :=
  mkWorld (this w) (user w) (table w) (lsNotes w) (lsActiveId w)
    (requests w) (tick w) (changes w) (now w) (timers w) (nextTimer w)
    (fired w ++ [e]).

(** What most methods leave alone: the session, the clock, the timer queue
    and the handle of the pending auto-save. *)
Definition sameSchedule (w w' : World) : Prop :=
  user w' = user w /\ now w' = now w /\ timers w' = timers w
  /\ nextTimer w' = nextTimer w /\ fired w' = fired w
  /\ autoSaveTimeout (this w') = autoSaveTimeout (this w).

(** One pending timer per store: timeout handles are positive, and a
    timeout that is still pending is the one whose handle the store keeps
    in [autoSaveTimeout]. *)
Definition singleTimer (w : World) : Prop :=
  0 < nextTimer w
  /\ forall t, In t (timers w) ->
       autoSaveTimeout (this w) = Some (timer_id t) /\ 0 < timer_id t.

(** *** The state monad of the methods *)

Definition M (A : Type) : Type := World -> A * World.

Definition ret {A} (a : A) : M A := fun w => (a, w).
Definition bind {A B} (c : M A) (k : A -> M B) : M B :=
  fun w => let (a, w') := c w in k a w'.
Definition gets {A} (f : World -> A) : M A := fun w => (f w, w).
Definition modify (f : World -> World) : M unit := fun w => (tt, f w).
Definition exec {A} (c : M A) (w : World) : World := snd (c w).
Definition eval {A} (c : M A) (w : World) : A := fst (c w).

Declare Scope notes_scope.
Delimit Scope notes_scope with notes.
Notation "x <- c ;; k" := (bind c (fun x => k))
  (at level 61, c at next level, right associativity) : notes_scope.
Notation "c ;; k" := (bind c (fun _ => k))
  (at level 61, right associativity) : notes_scope.
Local Open Scope notes_scope.

(** *** Pure helpers on arrays *)

Definition sameId (i : jsstring) (n : Note) : bool := Js.eqb (id n) i.

(** [arr.findIndex(p)], [None] for [-1]. *)
Fixpoint findIndex {A} (p : A -> bool) (l : list A) : option nat :=
  match l with
  | [] => None
  | x :: r => if p x then Some 0
              else match findIndex p r with Some k => Some (S k) | None => None end
  end.

(** [arr[k] = x] for [k] in range. *)
Fixpoint assign {A} (k : nat) (x : A) (l : list A) : list A :=
  match l, k with
  | [], _ => []
  | _ :: r, 0 => x :: r
  | y :: r, S k' => y :: assign k' x r
  end.

(** [arr.splice(k, 1)]. *)
Fixpoint splice1 {A} (k : nat) (l : list A) : list A :=
  match l, k with
  | [], _ => []
  | _ :: r, 0 => r
  | y :: r, S k' => y :: splice1 k' r
  end.

Definition isSome {A} (o : option A) : bool :=
  match o with Some _ => true | None => false end.

Definition noteOfRow (r : Row) : Note :=
  mkNote (row_id r) (row_title r) (row_content r) (row_created_at r)
    (row_updated_at r).

(** [{...note, ...updates, updatedAt: stamp}]. *)
Definition merge (n : Note) (u : Updates) (stamp : jsstring) : Note :=
  mkNote (match upd_id u with Some i => i | None => id n end)
    (match upd_title u with Some t => t | None => title n end)
    (match upd_content u with Some c => c | None => content n end)
    (createdAt n) stamp.

(** Lexicographic order on code units; on ISO-8601 UTC stamps of one
    format it is the chronological order the table sorts by. *)
Fixpoint leb (a b : jsstring) : bool :=
  match a, b with
  | [], _ => true
  | _ :: _, [] => false
  | x :: a', y :: b' => N.ltb x y || (N.eqb x y && leb a' b')
  end.

(** [order('updated_at', { ascending: false })]. *)
Fixpoint insertRow (r : Row) (l : list Row) : list Row :=
  match l with
  | [] => [r]
  | x :: l' =>
      if leb (row_updated_at x) (row_updated_at r) then r :: l
      else x :: insertRow r l'
  end.

Definition newestFirst (l : list Row) : list Row :=
  fold_right insertRow [] l.

Definition ownedBy (uid : jsstring) (r : Row) : bool :=
  Js.eqb (row_user_id r) uid.

(** [.eq('id', id).eq('user_id', uid)]. *)
Definition matches (nid uid : jsstring) (r : Row) : bool :=
  Js.eqb (row_id r) nid && Js.eqb (row_user_id r) uid.

(** [{...updates, updated_at: stamp}] applied to a row. *)
Definition applyUpdates (u : Updates) (stamp : jsstring) (r : Row) : Row :=
  mkRow (match upd_id u with Some i => i | None => row_id r end)
    (row_user_id r)
    (match upd_title u with Some t => t | None => row_title r end)
    (match upd_content u with Some c => c | None => row_content r end)
    (row_created_at r) stamp.

Definition welcomeTitle : jsstring := js "Welcome to takenote".
Definition welcomeLocal : jsstring :=
  js "<p>Welcome to takenote! This is your first note.</p><p>You can:</p><ul><li>Format text with the toolbar</li><li>Create new notes</li><li>Upload and download files</li><li>Sign in to sync your notes across devices</li></ul>".
Definition welcomeRemote : jsstring :=
  js "<p>Welcome to takenote! This is your first note.</p><p>You can:</p><ul><li>Format text with the toolbar</li><li>Create new notes</li><li>Upload and download files</li><li>Access your notes from anywhere when signed in</li></ul>".
Definition welcomeRecovered : jsstring :=
  js "<p>Welcome to takenote! Start taking notes.</p>".

Definition notAuthenticated : jsstring :=
  js "User must be authenticated to delete notes".
Definition deleteFailed : jsstring := js "Failed to delete note".

(** *** Pure methods *)

(** [tempDiv.textContent || tempDiv.innerText || '']. *)
Definition plainTextOf (D : Dom) (html : jsstring) : jsstring :=
  or_else (textContent D html) (or_else (innerText D html) []).

Definition getNoteStats (D : Dom) (content : jsstring) : Stats :=
  if negb (truthy content) then mkStats 0 0 0
  else
    let plainText := plainTextOf D content in
    let characters := length plainText in
    let words :=
      if truthy (trim plainText)
      then length (splitRuns isWhiteSpace (trim plainText)) else 0 in
    let sentences :=
      if truthy (trim plainText)
      then length (filter (fun s => 0 <? length (trim s))
                     (splitRuns isSentenceEnd plainText))
      else 0 in
    mkStats words characters sentences.

Definition extractFirstLineAsTitle (content : jsstring) : jsstring :=
  if negb (truthy content) then []
  else
    let plainText := trim (stripTags content) in
    if negb (truthy plainText) then []
    else
      let firstLine := trim (hd [] (splitOn isLF plainText)) in
      or_else firstLine (js "Untitled Note").

(** The [title] computed at the head of [updateNoteTitle]. *)
Definition derivedTitle (content : jsstring) : jsstring :=
  let firstLine := extractFirstLineAsTitle content in
  if truthy firstLine
  then substring0 50 firstLine
         ++ (if 50 <? length firstLine then js "..." else js "")
  else js "Untitled Note".

Definition sanitizeFilename (filename : jsstring) : jsstring :=
  toLowerCase
    (replaceEach (fun c => negb (isAlnumIgnoreCase c)) UNDERSCORE filename).

Definition getNoteById (i : jsstring) (m : NoteManager) : option Note :=
  find (sameId i) (notes m).

Definition getActiveNote (m : NoteManager) : option Note :=
  match activeNoteId m with
  | None => None
  | Some a => if truthy a then getNoteById a m else None
  end.

Definition exportNoteAsText (D : Dom) (i : jsstring) (m : NoteManager)
  : option Export :=
  match getNoteById i m with
  | None => None
  | Some note =>
      Some (mkExport (title note) (plainTextOf D (content note))
              (sanitizeFilename (title note) ++ js ".txt"))
  end.

(** *** Stateful methods *)

Section Methods.

Variable O : Oracle.

Definition isAuthenticated : M bool := gets (fun w => isSome (user w)).

(** Clock and random source. *)
Definition Date_now : M jsstring := fun w => (dateNow O (tick w), ticked w).
Definition toISOString : M jsstring := fun w => (dateISO O (tick w), ticked w).
Definition Math_random36 : M jsstring :=
  fun w => (random36 O (tick w), ticked w).

Definition generateId : M jsstring :=
  n <- Date_now ;;
  r <- Math_random36 ;;
  ret (js "note_" ++ n ++ js "_" ++ r).

(** [localStorage.setItem]; the result tells whether it returned normally. *)
Definition setItemNotes (l : list Note) : M bool :=
  fun w =>
    if quotaExceeded O (tick w) then (false, ticked w)
    else (true, set_lsNotes (Some (Some l)) (ticked w)).

Definition setItemActiveId (v : jsstring) : M bool :=
  fun w =>
    if quotaExceeded O (tick w) then (false, ticked w)
    else (true, set_lsActiveId (Some v) (ticked w)).

Definition saveNotesToStorage : M unit :=
  l <- gets (fun w => notes (this w)) ;;
  ok <- setItemNotes l ;;
  if ok then
    a <- gets (fun w => activeNoteId (this w)) ;;
    _ <- setItemActiveId (match a with Some i => or_else i [] | None => [] end) ;;
    ret tt
  else ret tt.

(** [if (this.onNotesChange) this.onNotesChange()]. *)
Definition notify : M unit := modify notified.

(** The remote table.  A request is logged, consumes one tick, and its fate
    is read from the oracle at that tick. *)
Definition send (r : Request) : M (nat * Outcome) :=
  fun w => ((tick w, outcome O (tick w)), sent r w).

Definition db_insert (uid ttl body : jsstring) : M (Response Row) :=
  p <- send (Insert uid ttl body) ;;
  match snd p with
  | Accepted =>
      let row := mkRow (serverId O (fst p)) uid ttl body
                   (serverTime O (fst p)) (serverTime O (fst p)) in
      modify (fun w => set_table (table w ++ [row]) w) ;;
      ret (Data row)
  | Refused => ret Error
  | Raised => ret Rejected
  end.

Definition db_selectOne (uid : jsstring) : M (Response (list jsstring)) :=
  p <- send (SelectOne uid) ;;
  match snd p with
  | Accepted =>
      rows <- gets table ;;
      ret (Data (firstn 1 (map row_id (filter (ownedBy uid) rows))))
  | Refused => ret Error
  | Raised => ret Rejected
  end.

Definition db_selectAll (uid : jsstring) : M (Response (list Row)) :=
  p <- send (SelectAll uid) ;;
  match snd p with
  | Accepted =>
      rows <- gets table ;;
      ret (Data (newestFirst (filter (ownedBy uid) rows)))
  | Refused => ret Error
  | Raised => ret Rejected
  end.

(** [.update(...).eq(...).eq(...).select().single()]: with no matching row
    [single()] answers with an error. *)
Definition db_update (nid uid : jsstring) (u : Updates) (stamp : jsstring)
  : M (Response Row) :=
  p <- send (Update nid uid u stamp) ;;
  match snd p with
  | Accepted =>
      rows <- gets table ;;
      match find (matches nid uid) rows with
      | None => ret Error
      | Some r =>
          modify (set_table
                    (map (fun x => if matches nid uid x
                                   then applyUpdates u stamp x else x) rows)) ;;
          ret (Data (applyUpdates u stamp r))
      end
  | Refused => ret Error
  | Raised => ret Rejected
  end.

Definition db_delete (nid uid : jsstring) : M (Response unit) :=
  p <- send (Delete nid uid) ;;
  match snd p with
  | Accepted =>
      rows <- gets table ;;
      modify (set_table (filter (fun x => negb (matches nid uid x)) rows)) ;;
      ret (Data tt)
  | Refused => ret Error
  | Raised => ret Rejected
  end.

(** [this.notes.unshift(note); this.activeNoteId = note.id]. *)
Definition unshiftActive (note : Note) : M unit :=
  modify (with_this (fun m =>
    set_activeNoteId (Some (id note)) (set_notes (note :: notes m) m))).

Definition createNoteInStorage (ttl body : jsstring) : M Note :=
  i <- generateId ;;
  c <- toISOString ;;
  u <- toISOString ;;
  let note := mkNote i ttl body c u in
  unshiftActive note ;;
  saveNotesToStorage ;;
  notify ;;
  ret note.

(** Any failure inside the [try] (a refused or rejected insert, or [user.id]
    on a missing user) ends in the [catch], which creates the note locally. *)
Definition createNoteInDatabase (ttl body : jsstring) : M Note :=
  u <- gets user ;;
  match u with
  | None => createNoteInStorage ttl body
  | Some usr =>
      resp <- db_insert (user_id usr) ttl body ;;
      match resp with
      | Data row =>
          let note := noteOfRow row in
          unshiftActive note ;;
          saveNotesToStorage ;;
          notify ;;
          ret note
      | Error | Rejected => createNoteInStorage ttl body
      end
  end.

Definition createNote (ttl body : jsstring) : M Note :=
  db <- gets (fun w => useDatabase (this w)) ;;
  auth <- isAuthenticated ;;
  if db && auth then createNoteInDatabase ttl body
  else createNoteInStorage ttl body.

Definition updateNoteInStorage (i : jsstring) (updates : Updates)
  : M (option Note) :=
  l <- gets (fun w => notes (this w)) ;;
  match findIndex (sameId i) l with
  | Some noteIndex =>
      match nth_error l noteIndex with
      | Some old =>
          stamp <- toISOString ;;
          let note := merge old updates stamp in
          modify (with_this (set_notes (assign noteIndex note l))) ;;
          saveNotesToStorage ;;
          notify ;;
          ret (Some note)
      | None => ret None            (* the index found is in range *)
      end
  | None => ret None
  end.

Definition updateNoteInDatabase (i : jsstring) (updates : Updates)
  : M (option Note) :=
  stamp <- toISOString ;;
  u <- gets user ;;
  match u with
  | None => updateNoteInStorage i updates
  | Some usr =>
      resp <- db_update i (user_id usr) updates stamp ;;
      match resp with
      | Data row =>
          l <- gets (fun w => notes (this w)) ;;
          match findIndex (sameId i) l with
          | Some noteIndex =>
              let note := noteOfRow row in
              modify (with_this (set_notes (assign noteIndex note l))) ;;
              saveNotesToStorage ;;
              notify ;;
              ret (Some note)
          | None => ret None
          end
      | Error | Rejected => updateNoteInStorage i updates
      end
  end.

Definition updateNote (i : jsstring) (updates : Updates) : M (option Note) :=
  db <- gets (fun w => useDatabase (this w)) ;;
  auth <- isAuthenticated ;;
  if db && auth then updateNoteInDatabase i updates
  else updateNoteInStorage i updates.

Definition updateNoteTitle (i content : jsstring) : M unit :=
  let ttl := derivedTitle content in
  _ <- updateNote i (mkUpdates (Some ttl) (Some content)) ;;
  ret tt.

Definition sameActive (i : jsstring) (a : option jsstring) : bool :=
  match a with Some x => Js.eqb x i | None => false end.

Definition deleteNote (i : jsstring) : M (Completion bool) :=
  u <- gets user ;;
  match u with
  | None => ret (Throw bool notAuthenticated)
  | Some usr =>
      resp <- db_delete i (user_id usr) ;;
      match resp with
      | Data _ =>
          l <- gets (fun w => notes (this w)) ;;
          match findIndex (sameId i) l with
          | Some noteIndex =>
              modify (with_this (set_notes (splice1 noteIndex l))) ;;
              a <- gets (fun w => activeNoteId (this w)) ;;
              (if sameActive i a then
                 l' <- gets (fun w => notes (this w)) ;;
                 match l' with
                 | n :: _ => modify (with_this (set_activeNoteId (Some (id n))))
                 | [] => modify (with_this (set_activeNoteId None))
                 end
               else ret tt) ;;
              notify ;;
              ret (Return true)
          | None => ret (Return false)
          end
      | Error | Rejected => ret (Throw bool deleteFailed)
      end
  end.

Definition setActiveNote (i : jsstring) : M (option Note) :=
  m <- gets this ;;
  match getNoteById i m with
  | Some note => modify (with_this (set_activeNoteId (Some i))) ;; ret (Some note)
  | None => ret None
  end.

Definition loadNotesFromStorage : M unit :=
  savedNotes <- gets lsNotes ;;
  savedActiveId <- gets lsActiveId ;;
  match savedNotes with
  | Some None =>
      (* JSON.parse throws: the catch block *)
      _ <- createNoteInStorage welcomeTitle welcomeRecovered ;; ret tt
  | _ =>
      (match savedNotes with
       | Some (Some l) => modify (with_this (set_notes l))
       | _ => ret tt
       end) ;;
      m <- gets this ;;
      (match savedActiveId with
       | Some a =>
           if truthy a && isSome (getNoteById a m)
           then modify (with_this (set_activeNoteId (Some a)))
           else match notes m with
                | n :: _ => modify (with_this (set_activeNoteId (Some (id n))))
                | [] => ret tt
                end
       | None =>
           match notes m with
           | n :: _ => modify (with_this (set_activeNoteId (Some (id n))))
           | [] => ret tt
           end
       end) ;;
      (match notes m with
       | [] => _ <- createNoteInStorage welcomeTitle welcomeLocal ;; ret tt
       | _ :: _ => ret tt
       end) ;;
      notify
  end.

Definition loadNotesFromDatabase : M unit :=
  u <- gets user ;;
  match u with
  | None => loadNotesFromStorage
  | Some usr =>
      modify (with_this (set_loading true)) ;;
      resp <- db_selectAll (user_id usr) ;;
      (match resp with
       | Data rows =>
           modify (with_this (set_notes (map noteOfRow rows))) ;;
           (match rows with
            | r :: _ => modify (with_this (set_activeNoteId (Some (row_id r))))
            | [] =>
                modify (with_this (set_activeNoteId None)) ;;
                _ <- createNote welcomeTitle welcomeRemote ;;
                ret tt
            end) ;;
           saveNotesToStorage ;;
           notify
       | Error | Rejected => loadNotesFromStorage
       end) ;;
      modify (with_this (set_loading false))
  end.

(** The body of the [for (const note of this.notes)] loop: the awaited
    insert, whose answer is not inspected; a rejected promise is caught and
    logged inside the loop. *)
Fixpoint migrateEach (uid : jsstring) (l : list Note) : M unit :=
  match l with
  | [] => ret tt
  | note :: rest =>
      _ <- db_insert uid (title note) (content note) ;;
      migrateEach uid rest
  end.

Definition migrateToDatabase : M unit :=
  u <- gets user ;;
  l <- gets (fun w => notes (this w)) ;;
  match u, l with
  | Some usr, _ :: _ =>
      resp <- db_selectOne (user_id usr) ;;
      match resp with
      | Rejected => ret tt                      (* outer catch *)
      | Data (_ :: _) => ret tt                 (* skipping migration *)
      | Data [] | Error =>                      (* [existingNotes] empty or null *)
          l' <- gets (fun w => notes (this w)) ;;
          migrateEach (user_id usr) l'
      end
  | _, _ => ret tt
  end.

Definition handleUserChange (u : option User) : M unit :=
  match u with
  | Some _ =>
      modify (with_this (set_useDatabase true)) ;;
      migrateToDatabase ;;
      loadNotesFromDatabase
  | None =>
      modify (with_this (set_useDatabase false)) ;;
      loadNotesFromStorage
  end.

(** [Auth.setUser]: the session changes, then the bound [onUserChange]
    callback runs. *)
Definition setUser (u : option User) : M unit :=
  modify (set_user u) ;;
  handleUserChange u.

(** *** Auto-save and the timer queue *)

Definition setTimeout (nid body : jsstring) (ms : nat) : M nat :=
  fun w =>
    let h := nextTimer w in
    (h, set_nextTimer (S h)
          (set_timers (timers w ++ [mkTimer h (now w + ms) nid body]) w)).

Definition clearTimeout (h : nat) : M unit :=
  modify (fun w =>
    set_timers (filter (fun t => negb (timer_id t =? h)) (timers w)) w).

Definition autoSaveNote (i content : jsstring) (debounceMs : nat) : M unit :=
  auth <- isAuthenticated ;;
  if negb auth then ret tt
  else
    t <- gets (fun w => autoSaveTimeout (this w)) ;;
    (match t with
     | Some h => if 0 <? h then clearTimeout h else ret tt
     | None => ret tt
     end) ;;
    h <- setTimeout i content debounceMs ;;
    modify (with_this (set_autoSaveTimeout (Some h))).

(** The callback of the timeout; [fired] records that it ran. *)
Definition autoSaveCallback (t : Timer) : M unit :=
  modify (logged (timer_note t, timer_content t)) ;;
  updateNoteTitle (timer_note t) (timer_content t).

Fixpoint insertByDue (t : Timer) (l : list Timer) : list Timer :=
  match l with
  | [] => [t]
  | x :: l' =>
      if timer_due t <? timer_due x then t :: l else x :: insertByDue t l'
  end.

Definition byDue (l : list Timer) : list Timer := fold_right insertByDue [] l.

Fixpoint runTimers (l : list Timer) : M unit :=
  match l with
  | [] => ret tt
  | t :: rest => autoSaveCallback t ;; runTimers rest
  end.

(** The event loop lets [dt] ms pass: every timeout that has become due is
    taken off the queue and its callback runs, earliest first. *)
Definition advance (dt : nat) : M unit :=
  modify (fun w => set_now (now w + dt) w) ;;
  t <- gets now ;;
  ts <- gets timers ;;
  modify (set_timers (filter (fun x => negb (timer_due x <=? t)) ts)) ;;
  runTimers (byDue (filter (fun x => timer_due x <=? t) ts)).

End Methods.

(** The store before the constructor body runs, in a given browser state. *)
Definition blank (session : option User) (remote : list Row)
  (saved : option (option (list Note))) (savedActive : option jsstring)
  : World :=
  mkWorld (mkNoteManager [] None false false None) session remote saved
    savedActive [] 0 0 0 [] 1 [].

(** [new NoteManager(auth)]. *)
Definition newNoteManager (O : Oracle) (w : World) : World :=
  exec (loadNotesFromStorage O)
    (with_this (fun _ => mkNoteManager [] None false false None) w).

End Notes.

(* ================================================================== *)
(** ** The editor history ([class Editor]) *)
(* ================================================================== *)

Module Editor.
Import Js.

(** The editor object; [innerHTML] is the content of the editing element.
    The stacks are arrays: [push] and [pop] work at the end of the list,
    [shift] at its head. *)
Record Editor := mkEditor {
  innerHTML : jsstring;
  undoStack : list jsstring;
  redoStack : list jsstring;
  maxUndoLevels : nat;
  lastSavedState : jsstring }.

Definition emptyParagraph : jsstring := js "<p><br></p>".

(** What the user or the application does to the editor. *)
Inductive Action :=
| Input (html : jsstring)        (* the user edits: the element's content changes *)
| SaveState
| Undo
| Redo
| SetContent (html : jsstring)
| Clear.

Section History.

(** Reading [innerHTML] back after an assignment gives the browser's
    serialization of the parsed fragment. *)
Variable serialize : jsstring -> jsstring.

Definition getContent (e : Editor) : jsstring := innerHTML e.

Definition push (x : jsstring) (l : list jsstring) : list jsstring := l ++ [x].
Definition shift (l : list jsstring) : list jsstring := tl l.

Definition saveState (e : Editor) : Editor :=
  let currentState := getContent e in
  if Js.eqb currentState (lastSavedState e) then e
  else
    let pushed := push (lastSavedState e) (undoStack e) in
    let limited :=
      if maxUndoLevels e <? length pushed then shift pushed else pushed in
    mkEditor (innerHTML e) limited [] (maxUndoLevels e) currentState.

Definition setContent (html : jsstring) (e : Editor) : Editor :=
  saveState
    (mkEditor (serialize (or_else html emptyParagraph)) (undoStack e)
       (redoStack e) (maxUndoLevels e) (lastSavedState e)).

Definition undo (e : Editor) : Editor :=
  match rev (undoStack e) with
  | [] => e
  | previousState :: below =>
      let currentState := getContent e in
      let e1 := mkEditor (innerHTML e) (rev below)
                  (push currentState (redoStack e)) (maxUndoLevels e)
                  (lastSavedState e) in
      let e2 := setContent previousState e1 in
      mkEditor (innerHTML e2) (undoStack e2) (redoStack e2)
        (maxUndoLevels e2) previousState
  end.

Definition redo (e : Editor) : Editor :=
  match rev (redoStack e) with
  | [] => e
  | nextState :: below =>
      let e1 := mkEditor (innerHTML e) (push (getContent e) (undoStack e))
                  (rev below) (maxUndoLevels e) (lastSavedState e) in
      let e2 := setContent nextState e1 in
      mkEditor (innerHTML e2) (undoStack e2) (redoStack e2)
        (maxUndoLevels e2) nextState
  end.

Definition clear (e : Editor) : Editor := setContent emptyParagraph e.

(** [new Editor(element)]: the fields are initialised, then
    [initializeEditor] saves the first state. *)
Definition newEditor (initial : jsstring) : Editor :=
  saveState (mkEditor initial [] [] 50 []).

Definition step (e : Editor) (a : Action) : Editor :=
  match a with
  | Input html => mkEditor html (undoStack e) (redoStack e) (maxUndoLevels e)
                    (lastSavedState e)
  | SaveState => saveState e
  | Undo => undo e
  | Redo => redo e
  | SetContent html => setContent html e
  | Clear => clear e
  end.

Definition run (e : Editor) (l : list Action) : Editor := fold_left step l e.

End History.

(** The two stacks together never hold more than [maxUndoLevels] entries;
    this is what keeps the undo stack bounded across [redo], which pushes
    without checking the limit. *)
Definition bounded (e : Editor) : Prop :=
  maxUndoLevels e = 50 /\ length (undoStack e) + length (redoStack e) <= 50.

End Editor.

(* ================================================================== *)
(** ** The behaviour as the specification words it *)
(* ================================================================== *)

Module Spec.
Import Js Notes.

(** A line is blank when nothing but white space stands on it. *)
Definition isBlank (line : jsstring) : bool := negb (truthy (trim line)).

(** "The first non-empty, tag-stripped line": the lines of the tag-stripped
    text are its pieces between line feeds; the first one that is not blank
    is taken, without its surrounding white space. *)
Definition firstNonEmptyLine (text : jsstring) : option jsstring :=
  option_map trim (find (fun l => negb (isBlank l)) (splitOn isLF text)).

(** "Truncated to 50 chars + ellipsis if longer; defaults to Untitled Note
    if content yields no text." *)
Definition titleOf (content : jsstring) : jsstring :=
  match firstNonEmptyLine (stripTags content) with
  | Some line =>
      if 50 <? length line then firstn 50 line ++ js "..." else line
  | None => js "Untitled Note"
  end.

(** "Non-alphanumeric runs replaced with [_]": every maximal run of units
    outside the letters and digits becomes one underscore. *)
Fixpoint collapseRunsFrom (inrun : bool) (s : jsstring) : jsstring :=
  match s with
  | [] => []
  | c :: r =>
      if isAlnumIgnoreCase c then c :: collapseRunsFrom false r
      else if inrun then collapseRunsFrom true r
      else UNDERSCORE :: collapseRunsFrom true r
  end.

Definition filenameByRuns (ttl : jsstring) : jsstring :=
  toLowerCase (collapseRunsFrom false ttl) ++ js ".txt".

(** Unit by unit: letters and digits lower-cased, anything else [_]. *)
Definition sanitizeUnit (c : codeunit) : codeunit :=
  if isAlnumIgnoreCase c then lowerUnit c else UNDERSCORE.

Definition filenameByUnits (ttl : jsstring) : jsstring :=
  map sanitizeUnit ttl ++ js ".txt".

(** The row the remote table answers [updateNote] with, when the update
    goes to the table (database mode, a session) and succeeds there; the
    request is sent one tick after the call, the stamp being read first. *)
Definition answeredRow (O : Oracle) (i : jsstring) (w : World) : option Row :=
  if useDatabase (this w) then
    match user w with
    | Some usr =>
        match outcome O (S (tick w)) with
        | Accepted => find (matches i (user_id usr)) (table w)
        | _ => None
        end
    | None => None
    end
  else None.

(** The rows the migration adds for the notes [l], the first insert being
    sent at tick [t]: one row per note whose insert the table accepts, with
    the id and the stamps the table generates; a refused or rejected insert
    adds nothing. *)
Fixpoint migratedRows (O : Oracle) (uid : jsstring) (t : nat) (l : list Note)
  : list Row :=
  match l with
  | [] => []
  | n :: rest =>
      match outcome O t with
      | Accepted => [mkRow (serverId O t) uid (title n) (content n)
                       (serverTime O t) (serverTime O t)]
      | _ => []
      end ++ migratedRows O uid (S t) rest
  end.

(** "The next note in list order (the note following the deleted one)". *)
Definition following (i : jsstring) (l : list Note) : option Note :=
  match findIndex (sameId i) l with
  | Some k => nth_error l (S k)
  | None => None
  end.

End Spec.

(* ================================================================== *)
(** ** Sample stores *)
(* ================================================================== *)

Module Samples.
Import Js Notes.

Definition hello : jsstring := js "<p>Hello world. Bye!</p>".

Definition draft : Note :=
  mkNote (js "n1") (js "My  Note") (js "<p>Milk</p><p>Eggs</p>")
    (js "2024-01-01T00:00:00.000Z") (js "2024-01-01T00:00:00.000Z").

Definition oneNote : NoteManager := mkNoteManager [draft] (Some (js "n1")) false false None.

Definition ann : User := mkUser (js "u1") (js "ann@example.org").

Definition stamp0 : jsstring := js "2024-01-01T00:00:00.000Z".

Definition noteA : Note := mkNote (js "a") (js "Alpha") (js "<p>one</p>") stamp0 stamp0.
Definition noteB : Note := mkNote (js "b") (js "Beta") (js "<p>two</p>") stamp0 stamp0.
Definition noteC : Note := mkNote (js "c") (js "Gamma") (js "<p>three</p>") stamp0 stamp0.

Definition rowOf (uid : jsstring) (n : Note) : Row :=
  mkRow (id n) uid (title n) (content n) (createdAt n) (updatedAt n).

(** An environment in which every request is accepted and localStorage
    never overflows; the answers at tick [t] carry [t] marks. *)
Definition marks (t : nat) : jsstring := repeat 35%N t.

Definition calm : Oracle :=
  mkOracle (fun _ => Accepted) (fun _ => false)
    (fun t => js "row-" ++ marks t) (fun t => js "2024-06-01T00:00:00.000Z" ++ marks t)
    (fun t => js "1717200000000" ++ marks t)
    (fun t => js "2024-06-01T00:00:00.000Z" ++ marks t)
    (fun t => js "k3j9x0q2a" ++ marks t).

(** The same environment, except that the remote table answers the request
    sent at tick [k] with an error. *)
Definition refusingAt (k : nat) : Oracle :=
  mkOracle (fun t => if t =? k then Refused else Accepted) (fun _ => false)
    (serverId calm) (serverTime calm) (dateNow calm) (dateISO calm)
    (random36 calm).

(** Ann is signed in; her three notes are in memory and in the table; the
    second one is active. *)
Definition three : World :=
  mkWorld (mkNoteManager [noteA; noteB; noteC] (Some (js "b")) false true None)
    (Some ann) (map (rowOf (js "u1")) [noteA; noteB; noteC])
    (Some (Some [noteA; noteB; noteC])) (Some (js "b")) [] 0 0 0 [] 1 [].

(** Nobody is signed in; one local note. *)
Definition anonymous : World :=
  mkWorld oneNote None [] (Some (Some [draft])) (Some (js "n1")) [] 0 0 0 [] 1 [].

(** Ann is signed in with one note, the same in memory and in the table. *)
Definition synced : World :=
  mkWorld (mkNoteManager [noteA] (Some (js "a")) false true None)
    (Some ann) [rowOf (js "u1") noteA] (Some (Some [noteA])) (Some (js "a"))
    [] 0 0 0 [] 1 [].

End Samples.

(* ================================================================== *)
(** ** Importing text, and the store driven by its callers *)
(* ================================================================== *)

Module Store.
Import Js Notes.
Local Open Scope notes_scope.

Definition DOT : codeunit := 46%N.
Definition SLASH : codeunit := 47%N.

(** The class [[^/.]]. *)
Definition isExtensionUnit (c : codeunit) : bool :=
  negb (N.eqb c SLASH || N.eqb c DOT).

(** [[^/.]+$] from the start of [s]. *)
Definition isExtension (s : jsstring) : bool :=
  truthy s && forallb isExtensionUnit s.

(** [name.replace(/\.[^/.]+$/, '')]: the first position at which the
    expression matches is a dot followed, up to the end, by one or more
    units that are neither a slash nor a dot; the match is removed. *)
Fixpoint stripExtension (name : jsstring) : jsstring :=
  match name with
  | [] => []
  | c :: r =>
      if N.eqb c DOT && isExtension r then [] else c :: stripExtension r
  end.

(** [`<p>${this.escapeHtml(line)}</p>`]. *)
Definition paragraph (escapeHtml : jsstring -> jsstring) (line : jsstring)
  : jsstring :=
  js "<p>" ++ escapeHtml line ++ js "</p>".

(** The [htmlContent] of [importTextContent]. *)
Definition importedHtml (escapeHtml : jsstring -> jsstring) (content : jsstring)
  : jsstring :=
  concat
    (map (paragraph escapeHtml)
       (filter (fun line => 0 <? length line)
          (map trim (splitOn isLF content)))).

Definition importedTitle (filename : jsstring) : jsstring :=
  if truthy filename then stripExtension filename else js "Imported Note".

(** [escapeHtml] reads [innerHTML] back from a [div] whose [textContent]
    was set: it belongs to the browser and is a parameter. *)
Definition importTextContent (O : Oracle) (escapeHtml : jsstring -> jsstring)
  (content filename : jsstring) : M Note :=
  createNote O (importedTitle filename)
    (or_else (importedHtml escapeHtml content) (js "<p></p>")).

Definition getAllNotes (m : NoteManager) : list Note := notes m.

(** What the application asks of the store: the calls of [app.js] and
    [Auth.js] into [NoteManager], and the passing of time. *)
Inductive Call :=
| CreateNote (ttl body : jsstring)
| UpdateNote (i : jsstring) (u : Updates)
| UpdateNoteTitle (i content : jsstring)
| DeleteNote (i : jsstring)
| SetActiveNote (i : jsstring)
| ImportTextContent (content filename : jsstring)
| AutoSaveNote (i content : jsstring) (debounceMs : nat)
| Elapse (ms : nat)
| SignIn (u : User)
| SignOut.

Definition perform (O : Oracle) (escapeHtml : jsstring -> jsstring) (c : Call)
  : M unit :=
  match c with
  | CreateNote ttl body => _ <- createNote O ttl body ;; ret tt
  | UpdateNote i u => _ <- updateNote O i u ;; ret tt
  | UpdateNoteTitle i content => updateNoteTitle O i content
  | DeleteNote i => _ <- deleteNote O i ;; ret tt
  | SetActiveNote i => _ <- setActiveNote i ;; ret tt
  | ImportTextContent content filename =>
      _ <- importTextContent O escapeHtml content filename ;; ret tt
  | AutoSaveNote i content debounceMs => autoSaveNote i content debounceMs
  | Elapse ms => advance O ms
  | SignIn u => setUser O (Some u)
  | SignOut => setUser O None
  end.

Definition performAll (O : Oracle) (escapeHtml : jsstring -> jsstring)
  (calls : list Call) (w : World) : World :=
  fold_left (fun w c => exec (perform O escapeHtml c) w) calls w.

(** The active pointer names a note of the list; it is null only on an
    empty list. *)
Definition validActive (m : NoteManager) : Prop :=
  match activeNoteId m with
  | Some a => exists n, In n (notes m) /\ id n = a
  | None => notes m = []
  end.

(** The user a request is made for. *)
Definition requestUser (r : Request) : jsstring :=
  match r with
  | SelectOne uid => uid
  | SelectAll uid => uid
  | Insert uid _ _ => uid
  | Update _ uid _ _ => uid
  | Delete _ uid => uid
  end.

(** Between [w] and [w'] the session did not change, and every request
    sent was made for the signed-in user; without a session nothing was
    sent and the table is as it was. *)
Definition scoped (w w' : World) : Prop :=
  user w' = user w
  /\ exists rs, requests w' = requests w ++ rs
       /\ match user w with
          | Some usr => Forall (fun r => requestUser r = user_id usr) rs
          | None => rs = [] /\ table w' = table w
          end.

(** The clock, the timer queue and the handle the store keeps are the same
    in [w] and [w']. *)
Definition sameTimers (w w' : World) : Prop :=
  now w' = now w /\ timers w' = timers w /\ nextTimer w' = nextTimer w
  /\ fired w' = fired w
  /\ autoSaveTimeout (this w') = autoSaveTimeout (this w).

(** At most one timeout is pending, and it is the one whose (positive)
    handle the store keeps. *)
Definition oneTimer (w : World) : Prop :=
  0 < nextTimer w
  /\ (timers w = []
      \/ exists t, timers w = [t]
           /\ autoSaveTimeout (this w) = Some (timer_id t)
           /\ 0 < timer_id t).

(** A call that leaves ids alone: every call but an [updateNote] whose
    updates carry an [id] key. *)
Definition keepsId (c : Call) : Prop :=
  match c with
  | UpdateNote _ u => upd_id u = None
  | _ => True
  end.

(** The units a sanitized file name is made of. *)
Definition isFileNameUnit (c : codeunit) : bool :=
  isLower c || isDigit c || N.eqb c UNDERSCORE.

End Store.

(* ================================================================== *)
(** ** Facts about strings *)
(* ================================================================== *)

Import Js Notes.
Unset Implicit Arguments.

Lemma eqb_eq (a b : jsstring) : Js.eqb a b = true <-> a = b.
Proof.
  revert b; induction a as [|x a IH]; intros [|y b]; simpl; split;
    try congruence; try reflexivity.
  - intros H; apply andb_prop in H as [H1 H2].
    apply N.eqb_eq in H1; apply IH in H2; congruence.
  - intros H; injection H as -> ->.
    rewrite N.eqb_refl; simpl; now apply IH.
Qed.

Lemma eqb_refl (a : jsstring) : Js.eqb a a = true.
Proof. now apply eqb_eq. Qed.

Lemma eqb_neq (a b : jsstring) : Js.eqb a b = false <-> a <> b.
Proof.
  split.
  - intros H E; apply eqb_eq in E; congruence.
  - intros H; destruct (Js.eqb a b) eqn:E; [apply eqb_eq in E; contradiction | reflexivity].
Qed.

Lemma truthy_false (s : jsstring) : truthy s = false <-> s = [].
Proof. destruct s; simpl; split; congruence. Qed.

(** The first line of a text, unit by unit. *)
Lemma firstLine_cons (c : codeunit) (r : jsstring) :
  hd [] (splitOn isLF (c :: r)) =
  if isLF c then [] else c :: hd [] (splitOn isLF r).
Proof.
  simpl; destruct (isLF c); [reflexivity|].
  destruct (splitOn isLF r); reflexivity.
Qed.

Lemma splitOn_cons_other (c : codeunit) (r : jsstring) :
  isLF c = false ->
  splitOn isLF (c :: r) =
  (c :: hd [] (splitOn isLF r)) :: tl (splitOn isLF r).
Proof.
  intros H; simpl; rewrite H; destruct (splitOn isLF r); reflexivity.
Qed.

Lemma isLF_isWhiteSpace (c : codeunit) : isLF c = true -> isWhiteSpace c = true.
Proof.
  unfold isLF, LF; intros H; apply N.eqb_eq in H; subst; reflexivity.
Qed.

Lemma trimEnd_cons (c : codeunit) (r : jsstring) :
  trimEnd (c :: r) =
  match trimEnd r with
  | [] => if isWhiteSpace c then [] else [c]
  | r' => c :: r'
  end.
Proof. reflexivity. Qed.

Lemma trimEnd_cons_solid (c : codeunit) (r : jsstring) :
  isWhiteSpace c = false -> trimEnd (c :: r) <> [].
Proof.
  intros H; rewrite trimEnd_cons; destruct (trimEnd r); [rewrite H|]; discriminate.
Qed.

Lemma trimEnd_head (c : codeunit) (r : jsstring) :
  isWhiteSpace c = false -> exists r', trimEnd (c :: r) = c :: r'.
Proof.
  intros H; rewrite trimEnd_cons; destruct (trimEnd r) as [|x r'].
  - rewrite H; now exists [].
  - now exists (x :: r').
Qed.

(** Cutting the trailing white space of a text does not change its first
    line, up to that line's own trailing white space. *)
Lemma firstLine_trimEnd (t : jsstring) :
  trimEnd (hd [] (splitOn isLF (trimEnd t))) = trimEnd (hd [] (splitOn isLF t)).
Proof.
  induction t as [|c r IH]; [reflexivity|].
  rewrite (firstLine_cons c r), trimEnd_cons.
  destruct (isLF c) eqn:Hc.
  - rewrite (isLF_isWhiteSpace _ Hc).
    destruct (trimEnd r); [reflexivity|].
    now rewrite firstLine_cons, Hc.
  - rewrite trimEnd_cons, <- IH.
    destruct (trimEnd r) as [|x r'] eqn:Hr.
    + simpl. destruct (isWhiteSpace c) eqn:Hw; [reflexivity|].
      rewrite firstLine_cons, Hc. simpl. now rewrite Hw.
    + now rewrite firstLine_cons, Hc, trimEnd_cons.
Qed.

Lemma trim_cons_space (c : codeunit) (l : jsstring) :
  isWhiteSpace c = true -> trim (c :: l) = trim l.
Proof. intros H; unfold trim; cbn [trimStart]; now rewrite H. Qed.

Lemma trim_cons_solid (c : codeunit) (l : jsstring) :
  isWhiteSpace c = false -> trim (c :: l) = trimEnd (c :: l).
Proof. intros H; unfold trim; cbn [trimStart]; now rewrite H. Qed.

Lemma firstNonEmptyLine_trimStart (s : jsstring) :
  Spec.firstNonEmptyLine s = Spec.firstNonEmptyLine (trimStart s).
Proof.
  induction s as [|c r IH]; [reflexivity|].
  simpl trimStart. destruct (isWhiteSpace c) eqn:Hw; [|reflexivity].
  rewrite <- IH. unfold Spec.firstNonEmptyLine.
  destruct (isLF c) eqn:Hc.
  - simpl. rewrite Hc. reflexivity.
  - rewrite (splitOn_cons_other _ _ Hc).
    destruct (splitOn isLF r) as [|l ls]; simpl;
      unfold Spec.isBlank; rewrite (trim_cons_space _ _ Hw); simpl.
    + reflexivity.
    + destruct (negb (negb (truthy (trim l)))); simpl;
        [now rewrite (trim_cons_space _ _ Hw) | reflexivity].
Qed.

(** The specification's first non-empty line is the first line of the
    trimmed text, trimmed. *)
Lemma firstNonEmptyLine_trim (s : jsstring) :
  Spec.firstNonEmptyLine s =
  if truthy (trim s) then Some (trim (hd [] (splitOn isLF (trim s)))) else None.
Proof.
  rewrite firstNonEmptyLine_trimStart.
  change (trim s) with (trimEnd (trimStart s)).
  assert (Hs : trimStart s = [] \/
               exists c r, trimStart s = c :: r /\ isWhiteSpace c = false).
  { induction s as [|c r IH]; [now left|]. simpl.
    destruct (isWhiteSpace c) eqn:Hw; [exact IH|]. right; eauto. }
  destruct Hs as [-> | (c & r & -> & Hw)]; [reflexivity|].
  assert (Hc : isLF c = false).
  { destruct (isLF c) eqn:Hc; [|reflexivity].
    apply isLF_isWhiteSpace in Hc; congruence. }
  assert (Hline : forall x, hd [] (splitOn isLF (c :: x)) = c :: hd [] (splitOn isLF x)).
  { intros x; now rewrite firstLine_cons, Hc. }
  (* the code's side *)
  assert (Hcode : trim (hd [] (splitOn isLF (trimEnd (c :: r)))) =
                  trimEnd (c :: hd [] (splitOn isLF r))).
  { rewrite <- Hline, <- firstLine_trimEnd.
    destruct (trimEnd_head c r Hw) as [r' ->].
    rewrite Hline. apply trim_cons_solid, Hw. }
  rewrite Hcode.
  destruct (trimEnd_head c r Hw) as [r' ->]. simpl truthy. cbv iota.
  (* the specification's side *)
  unfold Spec.firstNonEmptyLine. rewrite (splitOn_cons_other _ _ Hc).
  simpl find. unfold Spec.isBlank. rewrite (trim_cons_solid _ _ Hw).
  destruct (trimEnd_head c (hd [] (splitOn isLF r)) Hw) as [x Hx].
  rewrite Hx. simpl. rewrite <- Hx. now rewrite (trim_cons_solid _ _ Hw).
Qed.

Lemma stripTagsFrom_plain (s : jsstring) :
  (forall c, In c s -> N.eqb c LT = false) -> stripTagsFrom false s = s.
Proof.
  induction s as [|c r IH]; intros H; [reflexivity|].
  simpl. rewrite (H c (or_introl eq_refl)). simpl.
  f_equal. apply IH. intros x Hx. apply H. now right.
Qed.

Lemma trimStart_blank (s : jsstring) :
  (forall c, In c s -> isWhiteSpace c = true) -> trimStart s = [].
Proof.
  induction s as [|c r IH]; intros H; [reflexivity|].
  simpl. rewrite (H c (or_introl eq_refl)). apply IH.
  intros x Hx. apply H. now right.
Qed.

Lemma isWhiteSpace_not_LT (c : codeunit) :
  isWhiteSpace c = true -> N.eqb c LT = false.
Proof.
  intros H. destruct (N.eqb c LT) eqn:E; [|reflexivity].
  apply N.eqb_eq in E; subst. discriminate H.
Qed.

Lemma derivedTitle_untitled (content : jsstring) :
  trim (stripTags content) = [] -> derivedTitle content = js "Untitled Note".
Proof.
  intros H. unfold derivedTitle, extractFirstLineAsTitle.
  destruct (truthy content); simpl; [rewrite H|]; reflexivity.
Qed.

(* ================================================================== *)
(** ** Titles, statistics and export *)
(* ================================================================== *)

Lemma derivedTitle_titleOf (content : jsstring) :
  derivedTitle content = Spec.titleOf content.
Proof.
  unfold Spec.titleOf. rewrite firstNonEmptyLine_trim.
  unfold derivedTitle, extractFirstLineAsTitle.
  destruct content as [|c r]; [reflexivity|].
  cbn [truthy negb].
  destruct (truthy (trim (stripTags (c :: r)))) eqn:Ht; cbn [negb]; [|reflexivity].
  set (line := trim (hd [] (splitOn isLF (trim (stripTags (c :: r)))))).
  assert (Hline : truthy line = true).
  { pose proof (firstNonEmptyLine_trim (stripTags (c :: r))) as E.
    rewrite Ht in E. fold line in E.
    unfold Spec.firstNonEmptyLine in E.
    destruct (find _ _) as [l|] eqn:Hf; [|discriminate].
    apply find_some in Hf as [_ Hb]. unfold Spec.isBlank in Hb.
    simpl in E. injection E as E. rewrite <- E.
    now rewrite negb_involutive in Hb. }
  unfold or_else. rewrite Hline, Hline. unfold substring0.
  destruct (50 <? length line) eqn:Hlen; [reflexivity|].
  apply Nat.ltb_ge in Hlen. rewrite firstn_all2 by exact Hlen.
  apply app_nil_r.
Qed.

(** C5.  [updateNoteTitle] derives the title from the first non-empty line
    of the tag-stripped content: that line itself when it has at most 50
    units, its first 50 units followed by ["..."] when it is longer, and
    ["Untitled Note"] when the content is empty, made of white space only,
    or leaves no text once the tags are stripped.  The derived title and the
    content are then handed to [updateNote]. *)
Theorem updateNoteTitle_derives_title
  (O : Oracle) (i content : jsstring) (w : World) :
  derivedTitle content = Spec.titleOf content
  /\ (forall line,
        Spec.firstNonEmptyLine (stripTags content) = Some line ->
        derivedTitle content =
        if 50 <? length line then firstn 50 line ++ js "..." else line)
  /\ (content = [] -> derivedTitle content = js "Untitled Note")
  /\ ((forall c, In c content -> isWhiteSpace c = true) ->
      derivedTitle content = js "Untitled Note")
  /\ (trim (stripTags content) = [] ->
      derivedTitle content = js "Untitled Note")
  /\ updateNoteTitle O i content w =
     (tt, exec (updateNote O i
                  (mkUpdates (Some (derivedTitle content)) (Some content))) w).
Proof.
  repeat split.
  - apply derivedTitle_titleOf.
  - intros line H. rewrite derivedTitle_titleOf. unfold Spec.titleOf.
    now rewrite H.
  - intros ->. reflexivity.
  - intros H. apply derivedTitle_untitled. unfold stripTags.
    rewrite stripTagsFrom_plain.
    + unfold trim. now rewrite trimStart_blank.
    + intros c Hc. apply isWhiteSpace_not_LT, H, Hc.
  - apply derivedTitle_untitled.
  - unfold updateNoteTitle, bind, exec, ret.
    destruct (updateNote O i _ w); reflexivity.
Qed.

Lemma updateNoteTitle_derives_title_witness :
  derivedTitle (js "<p>   </p>") = js "Untitled Note"
  /\ derivedTitle
       (js "<h1>Minutes of the quarterly planning meeting held on Monday</h1><p>Agenda</p>")
     = js "Minutes of the quarterly planning meeting held on ...".
Proof.
  split.
  - destruct (updateNoteTitle_derives_title Samples.calm (js "n1")
                (js "<p>   </p>") Samples.anonymous)
      as (_ & _ & _ & _ & H & _).
    apply H. reflexivity.
  - destruct (updateNoteTitle_derives_title Samples.calm (js "n1")
                (js "<h1>Minutes of the quarterly planning meeting held on Monday</h1><p>Agenda</p>")
                Samples.anonymous)
      as (_ & H & _).
    apply (H (js "Minutes of the quarterly planning meeting held on MondayAgenda")).
    reflexivity.
Defined.

(** C4 (amended).  On ["<p>Hello world. Bye!</p>"], whose tag-stripped text
    is ["Hello world. Bye!"], [getNoteStats] counts 3 words, 17 characters
    and 2 sentences. *)
Theorem getNoteStats_hello (D : Dom) :
  textContent D Samples.hello = js "Hello world. Bye!" ->
  getNoteStats D Samples.hello = mkStats 3 17 2.
Proof.
  intros H. unfold getNoteStats, plainTextOf. rewrite H. reflexivity.
Qed.

Lemma getNoteStats_hello_witness :
  getNoteStats markupDom (js "<p>Hello world. Bye!</p>") = mkStats 3 17 2.
Proof. apply (getNoteStats_hello markupDom). reflexivity. Defined.

(** The text ["Hello world. Bye!"] has 17 units, so the statistics of
    ["<p>Hello world. Bye!</p>"] are not [{words: 3, characters: 15,
    sentences: 2}]. *)
Lemma getNoteStats_hello_not_15 :
  plainTextOf markupDom Samples.hello = js "Hello world. Bye!"
  /\ length (js "Hello world. Bye!") = 17
  /\ getNoteStats markupDom Samples.hello <> mkStats 3 15 2
  /\ (forall D, textContent D Samples.hello = js "Hello world. Bye!" ->
                getNoteStats D Samples.hello <> mkStats 3 15 2).
Proof.
  split; [reflexivity|]. split; [reflexivity|]. split; [discriminate|].
  intros D H E. unfold getNoteStats, plainTextOf in E. rewrite H in E.
  discriminate E.
Qed.

Lemma sanitizeFilename_units (ttl : jsstring) :
  sanitizeFilename ttl = map Spec.sanitizeUnit ttl.
Proof.
  unfold sanitizeFilename, toLowerCase, replaceEach. rewrite map_map.
  apply map_ext. intros c. unfold Spec.sanitizeUnit.
  destruct (isAlnumIgnoreCase c); reflexivity.
Qed.

Lemma getNoteById_Some (i : jsstring) (m : NoteManager) (n : Note) :
  getNoteById i m = Some n -> In n (notes m) /\ id n = i.
Proof.
  unfold getNoteById. intros H. apply find_some in H as [H1 H2].
  split; [exact H1 | now apply eqb_eq].
Qed.

Lemma getNoteById_None (i : jsstring) (m : NoteManager) :
  getNoteById i m = None <-> (forall n, In n (notes m) -> id n <> i).
Proof.
  unfold getNoteById. split.
  - intros H n Hn. apply eqb_neq. exact (find_none _ _ H n Hn).
  - intros H. destruct (find _ _) as [n|] eqn:E; [|reflexivity].
    apply find_some in E as [E1 E2]. apply eqb_eq in E2.
    now destruct (H n E1).
Qed.

(** The title ["My  Note"] holds a run of two spaces: the exported file is
    named ["my__note.txt"], while one underscore per run would give
    ["my_note.txt"]. *)
Lemma exportNoteAsText_runs_counterexample :
  option_map export_filename
    (exportNoteAsText markupDom (js "n1") Samples.oneNote)
  = Some (js "my__note.txt")
  /\ Spec.filenameByRuns (title Samples.draft) = js "my_note.txt"
  /\ option_map export_filename
       (exportNoteAsText markupDom (js "n1") Samples.oneNote)
     <> Some (Spec.filenameByRuns (title Samples.draft)).
Proof. repeat split; try reflexivity. discriminate. Qed.

(* ================================================================== *)
(** ** The editor history *)
(* ================================================================== *)

Section HistoryFacts.

Import Editor.

Variable serialize : jsstring -> jsstring.

Lemma saveState_bounded (e : Editor) : bounded e -> bounded (saveState e).
Proof.
  intros [Hm Hb]. unfold saveState.
  destruct (Js.eqb (getContent e) (lastSavedState e)); [now split|].
  split; [exact Hm|]. cbn [undoStack redoStack maxUndoLevels].
  rewrite Hm. unfold push, shift.
  destruct (50 <? length (undoStack e ++ [lastSavedState e])) eqn:E.
  - destruct (undoStack e) as [|x u]; simpl in *; [lia|].
    rewrite length_app; simpl. lia.
  - apply Nat.ltb_ge in E. simpl. lia.
Qed.

Lemma setContent_bounded (html : jsstring) (e : Editor) :
  bounded e -> bounded (setContent serialize html e).
Proof. intros H. unfold setContent. apply saveState_bounded. exact H. Qed.

Lemma length_rev_cons {A} (l below : list A) (x : A) :
  rev l = x :: below -> length l = S (length below).
Proof.
  intros H. rewrite <- (length_rev l), H. reflexivity.
Qed.

Lemma undo_bounded (e : Editor) : bounded e -> bounded (undo serialize e).
Proof.
  intros [Hm Hb]. unfold undo.
  destruct (rev (undoStack e)) as [|p below] eqn:E; [now split|].
  apply length_rev_cons in E.
  match goal with |- bounded (mkEditor _ _ _ _ _) => 
    unfold bounded; cbn [undoStack redoStack maxUndoLevels] end.
  apply setContent_bounded. split; [exact Hm|].
  cbn [undoStack redoStack]. unfold push.
  rewrite length_rev, length_app. simpl. lia.
Qed.

Lemma redo_bounded (e : Editor) : bounded e -> bounded (redo serialize e).
Proof.
  intros [Hm Hb]. unfold redo.
  destruct (rev (redoStack e)) as [|p below] eqn:E; [now split|].
  apply length_rev_cons in E.
  match goal with |- bounded (mkEditor _ _ _ _ _) => 
    unfold bounded; cbn [undoStack redoStack maxUndoLevels] end.
  apply setContent_bounded. split; [exact Hm|].
  cbn [undoStack redoStack]. unfold push.
  rewrite length_rev, length_app. simpl. lia.
Qed.

Lemma step_bounded (e : Editor) (a : Action) :
  bounded e -> bounded (step serialize e a).
Proof.
  destruct a; simpl; intros H.
  - exact H.
  - now apply saveState_bounded.
  - now apply undo_bounded.
  - now apply redo_bounded.
  - now apply setContent_bounded.
  - now apply setContent_bounded.
Qed.

Lemma newEditor_bounded (initial : jsstring) : bounded (newEditor initial).
Proof. apply saveState_bounded. split; simpl; lia. Qed.

Lemma run_bounded (l : list Action) (e : Editor) :
  bounded e -> bounded (run serialize e l).
Proof.
  revert e; induction l as [|a l IH]; intros e H; [exact H|].
  simpl. apply IH, step_bounded, H.
Qed.

(** C10.  After the constructor and any sequence of edits, [saveState],
    [undo], [redo], [setContent] and [clear], the undo stack holds at most
    50 entries.  A [saveState] that records a new state empties the redo
    stack, and when the undo stack is full it drops the oldest entry to make
    room for the new one. *)
Theorem undo_history_bounded (initial : jsstring) (l : list Action) :
  length (undoStack (run serialize (newEditor initial) l)) <= 50
  /\ (forall e, getContent e <> lastSavedState e ->
        redoStack (saveState e) = []
        /\ lastSavedState (saveState e) = getContent e)
  /\ (forall e, getContent e <> lastSavedState e ->
        maxUndoLevels e = 50 -> length (undoStack e) = 50 ->
        undoStack (saveState e) = tl (undoStack e) ++ [lastSavedState e])
  /\ (forall e, getContent e <> lastSavedState e ->
        maxUndoLevels e = 50 -> length (undoStack e) < 50 ->
        undoStack (saveState e) = undoStack e ++ [lastSavedState e]).
Proof.
  split; [|split; [|split]].
  - destruct (run_bounded l (newEditor initial) (newEditor_bounded initial))
      as [_ H]. lia.
  - intros e H. apply eqb_neq in H. unfold saveState. rewrite H. now split.
  - intros e H Hm Hl. apply eqb_neq in H. unfold saveState. rewrite H.
    cbn [undoStack]. unfold push, shift. rewrite Hm, length_app, Hl. simpl.
    destruct (undoStack e); [discriminate | reflexivity].
  - intros e H Hm Hl. apply eqb_neq in H. unfold saveState. rewrite H.
    cbn [undoStack]. unfold push. rewrite Hm, length_app. simpl.
    destruct (50 <? length (undoStack e) + 1) eqn:E; [|reflexivity].
    apply Nat.ltb_lt in E. lia.
Qed.

End HistoryFacts.

Lemma undo_history_bounded_witness :
  Editor.undoStack (Editor.saveState
               (Editor.mkEditor (js "new") (repeat (js "old") 50) [js "r"] 50
                  (js "last")))
  = repeat (js "old") 49 ++ [js "last"].
Proof.
  apply (undo_history_bounded (fun s => s) (js "<p>a</p>")
           [Editor.Input (js "b"); Editor.SaveState; Editor.Undo; Editor.Redo]).
  - discriminate.
  - reflexivity.
  - reflexivity.
Defined.

(* ================================================================== *)
(** ** Deleting notes *)
(* ================================================================== *)

(** Unfolding the monad in a goal. *)
Ltac run_monad :=
  unfold bind, ret, gets, modify, exec, eval in *; cbn beta iota in *.

(** C2.  Without a session [deleteNote] throws the authorization error and
    changes nothing: not the notes list, not the active-note pointer, nor
    anything else of the store or of its environment. *)
Theorem deleteNote_requires_session (O : Oracle) (i : jsstring) (w : World) :
  user w = None ->
  deleteNote O i w = (Throw bool notAuthenticated, w)
  /\ notes (this (exec (deleteNote O i) w)) = notes (this w)
  /\ activeNoteId (this (exec (deleteNote O i) w)) = activeNoteId (this w).
Proof.
  intros H.
  assert (E : deleteNote O i w = (Throw bool notAuthenticated, w)).
  { unfold deleteNote. run_monad. now rewrite H. }
  unfold exec. rewrite E. now repeat split.
Qed.

Lemma deleteNote_requires_session_witness :
  deleteNote Samples.calm (js "n1") Samples.anonymous
  = (Throw bool notAuthenticated, Samples.anonymous).
Proof.
  apply (deleteNote_requires_session Samples.calm (js "n1") Samples.anonymous).
  reflexivity.
Defined.

Lemma findIndex_nth {A} (p : A -> bool) (l : list A) (k : nat) :
  findIndex p l = Some k ->
  exists x, nth_error l k = Some x /\ p x = true.
Proof.
  revert k; induction l as [|y l IH]; intros k; simpl; [discriminate|].
  destruct (p y) eqn:E.
  - intros [= <-]. now exists y.
  - destruct (findIndex p l) as [j|]; [|discriminate].
    intros [= <-]. apply (IH j eq_refl).
Qed.

Lemma findIndex_None {A} (p : A -> bool) (l : list A) :
  findIndex p l = None <-> (forall x, In x l -> p x = false).
Proof.
  induction l as [|y l IH]; simpl.
  - split; [intros _ x [] | reflexivity].
  - destruct (p y) eqn:E.
    + split; [discriminate|]. intros H. rewrite (H y) in E by now left.
      discriminate.
    + destruct (findIndex p l) as [j|].
      * split; [discriminate|]. intros H.
        destruct IH as [_ IH]. 
        discriminate IH. intros x Hx. apply H. now right.
      * split; [|reflexivity]. intros _ x [<- | Hx]; [exact E|].
        now apply IH.
Qed.

(** C3 (amended).  For an authenticated store whose remote delete is
    accepted and whose note [i] is in the list: the note is removed; when it
    was the active one, the first note of the remaining list becomes active
    (the note that followed the deleted one when the deleted one stood first)
    and the pointer becomes empty when none remain; when it was not the
    active one the pointer is unchanged. *)
Theorem deleteNote_activates_first
  (O : Oracle) (i : jsstring) (w : World) (usr : User) (k : nat) :
  user w = Some usr ->
  outcome O (tick w) = Accepted ->
  findIndex (sameId i) (notes (this w)) = Some k ->
  eval (deleteNote O i) w = Return true
  /\ notes (this (exec (deleteNote O i) w)) = splice1 k (notes (this w))
  /\ (activeNoteId (this w) = Some i ->
      activeNoteId (this (exec (deleteNote O i) w)) =
      match splice1 k (notes (this w)) with
      | n :: _ => Some (id n)
      | [] => None
      end)
  /\ (activeNoteId (this w) = Some i -> k = 0 ->
      activeNoteId (this (exec (deleteNote O i) w)) =
      option_map id (Spec.following i (notes (this w))))
  /\ (activeNoteId (this w) <> Some i ->
      activeNoteId (this (exec (deleteNote O i) w)) = activeNoteId (this w)).
Proof.
  intros Hu Ho Hk.
  set (rest := splice1 k (notes (this w))).
  set (active' := if sameActive i (activeNoteId (this w))
                  then match rest with n :: _ => Some (id n) | [] => None end
                  else activeNoteId (this w)).
  assert (E : deleteNote O i w =
              (Return true,
               notified
                 (with_this (fun m => set_activeNoteId active' (set_notes rest m))
                    (set_table
                       (filter (fun x => negb (matches i (user_id usr) x))
                          (table w))
                       (sent (Delete i (user_id usr)) w))))).
  { unfold deleteNote, db_delete, send. run_monad. rewrite Hu. cbn.
    rewrite Ho. cbn. rewrite Hk. cbn. fold rest. subst active'.
    destruct (sameActive i (activeNoteId (this w))); [destruct rest|];
      reflexivity. }
  unfold eval, exec. rewrite E. cbn. subst active'.
  split; [reflexivity|]. split; [reflexivity|].
  split; [|split].
  - intros Ha. rewrite Ha. simpl. now rewrite eqb_refl.
  - intros Ha Hz. rewrite Ha. simpl. rewrite eqb_refl.
    unfold Spec.following. rewrite Hk. subst rest k.
    destruct (notes (this w)) as [|x [|y l]]; reflexivity.
  - intros Ha.
    assert (F : sameActive i (activeNoteId (this w)) = false).
    { destruct (activeNoteId (this w)) as [a|]; [|reflexivity]. simpl.
      apply eqb_neq. congruence. }
    now rewrite F.
Qed.

Lemma deleteNote_activates_first_witness :
  eval (deleteNote Samples.calm (js "b")) Samples.three = Return true
  /\ notes (this (exec (deleteNote Samples.calm (js "b")) Samples.three))
     = [Samples.noteA; Samples.noteC]
  /\ activeNoteId (this (exec (deleteNote Samples.calm (js "b")) Samples.three))
     = Some (js "a").
Proof.
  destruct (deleteNote_activates_first Samples.calm (js "b") Samples.three
              Samples.ann 1 eq_refl eq_refl eq_refl) as (H1 & H2 & H3 & _).
  split; [exact H1 | split; [exact H2 | exact (H3 eq_refl)]].
Defined.

(** Deleting the active note ["b"] of the list [a; b; c] activates ["a"],
    the head of the list, and not ["c"], the note that followed ["b"]. *)
Lemma deleteNote_next_counterexample :
  activeNoteId (this Samples.three) = Some (js "b")
  /\ eval (deleteNote Samples.calm (js "b")) Samples.three = Return true
  /\ Spec.following (js "b") (notes (this Samples.three)) = Some Samples.noteC
  /\ activeNoteId (this (exec (deleteNote Samples.calm (js "b")) Samples.three))
     = Some (id Samples.noteA)
  /\ activeNoteId (this (exec (deleteNote Samples.calm (js "b")) Samples.three))
     <> Some (id Samples.noteC).
Proof. repeat split; try reflexivity. discriminate. Qed.

(* ================================================================== *)
(** ** Creating notes *)
(* ================================================================== *)

Lemma createNoteInStorage_run (O : Oracle) (ttl body : jsstring) (w : World) :
  let t := tick w in
  let note := mkNote (js "note_" ++ dateNow O t ++ js "_" ++ random36 O (S t))
                ttl body (dateISO O (S (S t))) (dateISO O (S (S (S t)))) in
  let w' := exec (createNoteInStorage O ttl body) w in
  eval (createNoteInStorage O ttl body) w = note
  /\ notes (this w') = note :: notes (this w)
  /\ activeNoteId (this w') = Some (id note)
  /\ table w' = table w
  /\ user w' = user w
  /\ requests w' = requests w
  /\ (quotaExceeded O (4 + t) = false -> quotaExceeded O (5 + t) = false ->
      lsNotes w' = Some (Some (note :: notes (this w)))
      /\ lsActiveId w' = Some (id note)).
Proof.
  unfold createNoteInStorage, generateId, Date_now, Math_random36,
    toISOString, unshiftActive, saveNotesToStorage, setItemNotes,
    setItemActiveId, notify.
  run_monad. cbn.
  destruct (quotaExceeded O (S (S (S (S (tick w)))))) eqn:Q1; cbn;
    [|destruct (quotaExceeded O (S (S (S (S (S (tick w))))))) eqn:Q2; cbn];
    repeat split; try reflexivity; intros; congruence.
Qed.

(** C6.  When the store is in database mode with a session and the remote
    insert fails (the table answers with an error, or the request is
    rejected), [createNote] completes normally with what
    [createNoteInStorage] does: a note with a generated id stands first in
    the list and is active, nothing is added to the remote table, and the
    list and the active id are written to localStorage (when it accepts the
    two writes). *)
Theorem createNote_fails_open
  (O : Oracle) (ttl body : jsstring) (w : World) (usr : User) :
  user w = Some usr ->
  useDatabase (this w) = true ->
  outcome O (tick w) <> Accepted ->
  let t := S (tick w) in
  let note := mkNote (js "note_" ++ dateNow O t ++ js "_" ++ random36 O (S t))
                ttl body (dateISO O (S (S t))) (dateISO O (S (S (S t)))) in
  let w' := exec (createNote O ttl body) w in
  createNote O ttl body w =
  createNoteInStorage O ttl body (sent (Insert (user_id usr) ttl body) w)
  /\ eval (createNote O ttl body) w = note
  /\ notes (this w') = note :: notes (this w)
  /\ activeNoteId (this w') = Some (id note)
  /\ table w' = table w
  /\ (quotaExceeded O (4 + t) = false -> quotaExceeded O (5 + t) = false ->
      lsNotes w' = Some (Some (note :: notes (this w)))
      /\ lsActiveId w' = Some (id note)).
Proof.
  intros Hu Hd Ho t note w'.
  assert (E : createNote O ttl body w =
              createNoteInStorage O ttl body
                (sent (Insert (user_id usr) ttl body) w)).
  { unfold createNote, isAuthenticated, createNoteInDatabase, db_insert, send.
    run_monad. rewrite Hd, Hu. cbn. rewrite Hu.
    destruct (outcome O (tick w)); [contradiction | reflexivity | reflexivity]. }
  split; [exact E|].
  pose proof (createNoteInStorage_run O ttl body
                (sent (Insert (user_id usr) ttl body) w)) as H.
  cbn zeta in H. subst w'. unfold eval, exec in *. rewrite E.
  destruct H as (H1 & H2 & H3 & H4 & _ & _ & H5).
  repeat split; try assumption; now apply H5.
Qed.

Lemma createNote_fails_open_witness :
  notes (this (exec (createNote (Samples.refusingAt 0) (js "Untitled Note") [])
                 Samples.synced))
  = eval (createNote (Samples.refusingAt 0) (js "Untitled Note") [])
      Samples.synced
    :: notes (this Samples.synced).
Proof.
  destruct (createNote_fails_open (Samples.refusingAt 0) (js "Untitled Note")
              [] Samples.synced Samples.ann eq_refl eq_refl)
    as (_ & H1 & H2 & _).
  - discriminate.
  - rewrite H1. exact H2.
Defined.

(* ================================================================== *)
(** ** Updating notes *)
(* ================================================================== *)

(** From here on the methods are unfolded by name only. *)
Arguments saveNotesToStorage : simpl never.
Arguments createNoteInStorage : simpl never.
Arguments createNoteInDatabase : simpl never.
Arguments createNote : simpl never.
Arguments updateNoteInStorage : simpl never.
Arguments updateNoteInDatabase : simpl never.
Arguments updateNote : simpl never.
Arguments updateNoteTitle : simpl never.
Arguments loadNotesFromStorage : simpl never.
Arguments loadNotesFromDatabase : simpl never.
Arguments migrateToDatabase : simpl never.
Arguments migrateEach : simpl never.
Arguments db_insert : simpl never.
Arguments newestFirst : simpl never.

Arguments welcomeTitle : simpl never.
Arguments welcomeLocal : simpl never.
Arguments welcomeRemote : simpl never.
Arguments welcomeRecovered : simpl never.

Lemma sameSchedule_refl (w : World) : sameSchedule w w.
Proof. now repeat split. Qed.

Lemma sameSchedule_trans (a b c : World) :
  sameSchedule a b -> sameSchedule b c -> sameSchedule a c.
Proof. unfold sameSchedule. intuition congruence. Qed.

Lemma saveNotesToStorage_frame (O : Oracle) (w : World) :
  let w' := exec (saveNotesToStorage O) w in
  this w' = this w /\ table w' = table w /\ requests w' = requests w
  /\ sameSchedule w w'.
Proof.
  unfold saveNotesToStorage, setItemNotes, setItemActiveId, sameSchedule.
  run_monad.
  destruct (quotaExceeded O (tick w)); cbn;
    [|destruct (quotaExceeded O (S (tick w))); cbn]; now repeat split.
Qed.

Lemma nth_error_assign_same {A} (k : nat) (x y : A) (l : list A) :
  nth_error l k = Some y -> nth_error (assign k x l) k = Some x.
Proof.
  revert k; induction l as [|z l IH]; intros [|k]; simpl; try discriminate;
    auto.
Qed.

Lemma nth_error_assign_other {A} (k j : nat) (x : A) (l : list A) :
  j <> k -> nth_error (assign k x l) j = nth_error l j.
Proof.
  revert k j; induction l as [|z l IH]; intros [|k] [|j] H; simpl;
    try reflexivity; try congruence. apply IH. congruence.
Qed.

Lemma length_assign {A} (k : nat) (x : A) (l : list A) :
  length (assign k x l) = length l.
Proof.
  revert k; induction l as [|z l IH]; intros [|k]; simpl; auto.
Qed.

Lemma updateNoteInStorage_found
  (O : Oracle) (i : jsstring) (u : Updates) (w : World) (k : nat) (old : Note) :
  findIndex (sameId i) (notes (this w)) = Some k ->
  nth_error (notes (this w)) k = Some old ->
  let new := merge old u (dateISO O (tick w)) in
  let w' := exec (updateNoteInStorage O i u) w in
  eval (updateNoteInStorage O i u) w = Some new
  /\ notes (this w') = assign k new (notes (this w))
  /\ activeNoteId (this w') = activeNoteId (this w)
  /\ table w' = table w.
Proof.
  intros Hk Ho new w'. subst w'.
  unfold updateNoteInStorage, toISOString, notify. run_monad.
  rewrite Hk, Ho. cbn.
  match goal with
  | |- context [saveNotesToStorage O ?x] =>
      pose proof (saveNotesToStorage_frame O x) as (F1 & F2 & _);
      unfold exec in F1, F2; destruct (saveNotesToStorage O x) as [[] w2]
  end.
  cbn in *. rewrite F1, F2. now repeat split.
Qed.

Lemma updateNoteInStorage_missing
  (O : Oracle) (i : jsstring) (u : Updates) (w : World) :
  findIndex (sameId i) (notes (this w)) = None ->
  updateNoteInStorage O i u w = (None, w).
Proof.
  intros H. unfold updateNoteInStorage. run_monad. now rewrite H.
Qed.

Lemma assign_frame {A} (k : nat) (x y : A) (l l' : list A) :
  nth_error l k = Some y -> l' = assign k x l ->
  nth_error l' k = Some x
  /\ (forall j, j <> k -> nth_error l' j = nth_error l j)
  /\ length l' = length l.
Proof.
  intros H ->. split; [eapply nth_error_assign_same; eassumption|].
  split; [intros j Hj; now apply nth_error_assign_other | apply length_assign].
Qed.

(** What [updateNote] does to the store when the note is in the list. *)
Lemma updateNote_found
  (O : Oracle) (i : jsstring) (u : Updates) (w : World) (k : nat) (old : Note) :
  findIndex (sameId i) (notes (this w)) = Some k ->
  nth_error (notes (this w)) k = Some old ->
  exists new t,
    eval (updateNote O i u) w = Some new
    /\ new = match Spec.answeredRow O i w with
             | Some r => noteOfRow (applyUpdates u (dateISO O t) r)
             | None => merge old u (dateISO O t)
             end
    /\ notes (this (exec (updateNote O i u) w)) = assign k new (notes (this w))
    /\ activeNoteId (this (exec (updateNote O i u) w)) = activeNoteId (this w).
Proof.
  intros Hk Ho.
  assert (Local : forall w2,
            notes (this w2) = notes (this w) ->
            activeNoteId (this w2) = activeNoteId (this w) ->
            updateNote O i u w = updateNoteInStorage O i u w2 ->
            exists new t,
              eval (updateNote O i u) w = Some new
              /\ new = merge old u (dateISO O t)
              /\ notes (this (exec (updateNote O i u) w))
                 = assign k new (notes (this w))
              /\ activeNoteId (this (exec (updateNote O i u) w))
                 = activeNoteId (this w)).
  { intros w2 Hn Ha E.
    destruct (updateNoteInStorage_found O i u w2 k old) as (H1 & H2 & H3 & _);
      try congruence.
    exists (merge old u (dateISO O (tick w2))), (tick w2).
    unfold eval, exec in *. rewrite E. rewrite <- Hn, <- Ha.
    now repeat split. }
  destruct (useDatabase (this w) && isSome (user w)) eqn:Hmode.
  - apply andb_prop in Hmode as [Hd Hs].
    destruct (user w) as [usr|] eqn:Hu; [|discriminate].
    assert (E : updateNote O i u w = updateNoteInDatabase O i u w).
    { unfold updateNote, isAuthenticated. run_monad. now rewrite Hd, Hu. }
    destruct (Spec.answeredRow O i w) as [r|] eqn:Hr.
    + (* the table answers with the updated row *)
      unfold Spec.answeredRow in Hr. rewrite Hd, Hu in Hr.
      destruct (outcome O (S (tick w))) eqn:Hout; try discriminate.
      exists (noteOfRow (applyUpdates u (dateISO O (tick w)) r)), (tick w).
      unfold eval, exec. rewrite E.
      unfold updateNoteInDatabase, toISOString, db_update, send, notify.
      run_monad. cbn. rewrite Hu. cbn. rewrite Hout. cbn. rewrite Hr. cbn.
      rewrite Hk. cbn.
      match goal with
      | |- context [saveNotesToStorage O ?x] =>
          pose proof (saveNotesToStorage_frame O x) as (F1 & _);
          unfold exec in F1; destruct (saveNotesToStorage O x) as [[] w3]
      end.
      cbn in *. rewrite F1. now repeat split.
    + (* the update falls back to the local list *)
      apply (Local (sent (Update i (user_id usr) u (dateISO O (tick w)))
                      (ticked w))); try reflexivity.
      rewrite E. unfold Spec.answeredRow in Hr. rewrite Hd, Hu in Hr.
      unfold updateNoteInDatabase, toISOString, db_update, send.
      run_monad. cbn. rewrite Hu. cbn.
      destruct (outcome O (S (tick w))); cbn; try reflexivity.
      rewrite Hr. reflexivity.
  - assert (Hr : Spec.answeredRow O i w = None).
    { unfold Spec.answeredRow.
      destruct (useDatabase (this w)); [|reflexivity].
      destruct (user w); [discriminate | reflexivity]. }
    rewrite Hr. apply (Local w); try reflexivity.
    unfold updateNote, isAuthenticated. run_monad. now rewrite Hmode.
Qed.

Lemma updateNote_missing
  (O : Oracle) (i : jsstring) (u : Updates) (w : World) :
  findIndex (sameId i) (notes (this w)) = None ->
  eval (updateNote O i u) w = None
  /\ this (exec (updateNote O i u) w) = this w.
Proof.
  intros Hk. unfold eval, exec.
  destruct (useDatabase (this w) && isSome (user w)) eqn:Hmode.
  - apply andb_prop in Hmode as [Hd Hs].
    destruct (user w) as [usr|] eqn:Hu; [|discriminate].
    unfold updateNote, isAuthenticated. run_monad. rewrite Hd, Hu. cbn.
    unfold updateNoteInDatabase, toISOString, db_update, send.
    run_monad. cbn. rewrite Hu. cbn.
    destruct (outcome O (S (tick w))); cbn;
      [destruct (find _ (table w)); cbn; [rewrite Hk; now split|] | |];
      rewrite updateNoteInStorage_missing by exact Hk; now split.
  - unfold updateNote, isAuthenticated. run_monad. rewrite Hmode.
    rewrite updateNoteInStorage_missing by exact Hk. now split.
Qed.

(** C9 (amended).  For an id that is not in the in-memory list, [updateNote]
    returns [null] and leaves the list, every note and the active-note
    pointer as they were.  For an id that is in the list, the note at its
    index is replaced and all other notes, the length of the list and the
    active pointer are unchanged; the replacement carries a fresh
    [updatedAt] stamp and is
    - the in-memory note with the given fields merged into it, when the
      update is applied locally (no database mode, no session, or a failed
      remote update);
    - the row answered by the remote table, that is the remote row with the
      given fields merged into it, when the remote update succeeds. *)
Theorem updateNote_frame (O : Oracle) (i : jsstring) (u : Updates) (w : World) :
  ((forall n, In n (notes (this w)) -> id n <> i) ->
   eval (updateNote O i u) w = None
   /\ this (exec (updateNote O i u) w) = this w)
  /\ (forall k old,
        findIndex (sameId i) (notes (this w)) = Some k ->
        nth_error (notes (this w)) k = Some old ->
        exists new t,
          eval (updateNote O i u) w = Some new
          /\ new = match Spec.answeredRow O i w with
                   | Some r => noteOfRow (applyUpdates u (dateISO O t) r)
                   | None => merge old u (dateISO O t)
                   end
          /\ updatedAt new = dateISO O t
          /\ nth_error (notes (this (exec (updateNote O i u) w))) k = Some new
          /\ (forall j, j <> k ->
                nth_error (notes (this (exec (updateNote O i u) w))) j
                = nth_error (notes (this w)) j)
          /\ length (notes (this (exec (updateNote O i u) w)))
             = length (notes (this w))
          /\ activeNoteId (this (exec (updateNote O i u) w))
             = activeNoteId (this w)).
Proof.
  split.
  - intros H. apply updateNote_missing. apply findIndex_None.
    intros n Hn. apply eqb_neq. now apply H.
  - intros k old Hk Ho.
    destruct (updateNote_found O i u w k old Hk Ho) as (new & t & H1 & H2 & H3 & H4).
    exists new, t.
    destruct (assign_frame k new old _ _ Ho H3) as (A1 & A2 & A3).
    repeat split; try assumption.
    rewrite H2. destruct (Spec.answeredRow O i w); reflexivity.
Qed.

Lemma updateNote_frame_witness :
  (eval (updateNote Samples.calm (js "zz") (mkUpdates (Some (js "T")) None))
     Samples.anonymous = None
   /\ this (exec (updateNote Samples.calm (js "zz")
                    (mkUpdates (Some (js "T")) None)) Samples.anonymous)
      = this Samples.anonymous)
  /\ exists new t,
       eval (updateNote Samples.calm (js "b") (mkUpdates (Some (js "T")) None))
         Samples.three = Some new
       /\ new = noteOfRow
                  (applyUpdates (mkUpdates (Some (js "T")) None)
                     (dateISO Samples.calm t)
                     (Samples.rowOf (js "u1") Samples.noteB)).
Proof.
  split.
  - apply (updateNote_frame Samples.calm (js "zz")
             (mkUpdates (Some (js "T")) None) Samples.anonymous).
    intros n [<- | []]. discriminate.
  - destruct (updateNote_frame Samples.calm (js "b")
                (mkUpdates (Some (js "T")) None) Samples.three) as [_ H].
    destruct (H 1 Samples.noteB eq_refl eq_refl) as (new & t & H1 & H2 & _).
    exists new, t. split; [exact H1 | exact H2].
Defined.

(** Ann renames her note while the table refuses the update, so the new
    title lives in memory only; her next update, of the content alone, is
    accepted: the in-memory note is replaced by the row the table answers
    with, and its title goes back to the table's ["Alpha"].  The given field
    was not merged into the note as it stood in memory. *)
Lemma updateNote_merge_counterexample :
  let O := Samples.refusingAt 1 in
  let w1 := exec (updateNote O (js "a") (mkUpdates (Some (js "Renamed")) None))
              Samples.synced in
  let u := mkUpdates None (Some (js "<p>two</p>")) in
  let w2 := exec (updateNote O (js "a") u) w1 in
  exists old new,
    notes (this w1) = [old] /\ title old = js "Renamed"
    /\ notes (this w2) = [new] /\ title new = js "Alpha"
    /\ forall stamp, new <> merge old u stamp.
Proof.
  cbv zeta.
  eexists; eexists.
  split; [vm_compute; reflexivity|].
  split; [reflexivity|].
  split; [vm_compute; reflexivity|].
  split; [reflexivity|].
  intros stamp H. apply (f_equal title) in H. vm_compute in H. discriminate H.
Qed.

(* ================================================================== *)
(** ** Signing in: migration of the local notes *)
(* ================================================================== *)

Lemma exec_bind {A B} (c : M A) (k : A -> M B) (w : World) :
  exec (bind c k) w = exec (k (eval c w)) (exec c w).
Proof. unfold exec, eval, bind. now destruct (c w). Qed.

Lemma eval_bind {A B} (c : M A) (k : A -> M B) (w : World) :
  eval (bind c k) w = eval (k (eval c w)) (exec c w).
Proof. unfold exec, eval, bind. now destruct (c w). Qed.

Lemma db_insert_run (O : Oracle) (uid ttl body : jsstring) (w : World) :
  let w' := exec (db_insert O uid ttl body) w in
  table w' =
    table w ++
    match outcome O (tick w) with
    | Accepted => [mkRow (serverId O (tick w)) uid ttl body
                     (serverTime O (tick w)) (serverTime O (tick w))]
    | _ => []
    end
  /\ requests w' = requests w ++ [Insert uid ttl body]
  /\ this w' = this w
  /\ user w' = user w
  /\ tick w' = S (tick w).
Proof.
  unfold db_insert, send. run_monad. cbn.
  destruct (outcome O (tick w)); cbn; rewrite ?app_nil_r; now repeat split.
Qed.

Lemma migrateEach_run (O : Oracle) (uid : jsstring) (l : list Note) (w : World) :
  let w' := exec (migrateEach O uid l) w in
  table w' = table w ++ Spec.migratedRows O uid (tick w) l
  /\ requests w' =
     requests w ++ map (fun n => Insert uid (title n) (content n)) l
  /\ this w' = this w
  /\ user w' = user w
  /\ tick w' = length l + tick w.
Proof.
  revert w. induction l as [|n rest IH]; intros w.
  - cbn. rewrite !app_nil_r. now repeat split.
  - change (migrateEach O uid (n :: rest))
      with (bind (db_insert O uid (title n) (content n))
              (fun _ => migrateEach O uid rest)).
    cbn [Spec.migratedRows map length]. cbv zeta.
    rewrite exec_bind.
    destruct (db_insert_run O uid (title n) (content n) w)
      as (D1 & D2 & D3 & D4 & D5).
    destruct (IH (exec (db_insert O uid (title n) (content n)) w))
      as (I1 & I2 & I3 & I4 & I5).
    rewrite I1, I2, I3, I4, I5, D1, D2, D3, D4, D5, <- !app_assoc.
    repeat split; try reflexivity. lia.
Qed.

Lemma migratedRows_all (O : Oracle) (uid : jsstring) (t : nat) (l : list Note) :
  (forall j, j < length l -> outcome O (t + j) = Accepted) ->
  map (fun r => (row_user_id r, row_title r, row_content r))
    (Spec.migratedRows O uid t l)
  = map (fun n => (uid, title n, content n)) l.
Proof.
  revert t. induction l as [|n rest IH]; intros t H; [reflexivity|].
  cbn [Spec.migratedRows map].
  pose proof (H 0 (Nat.lt_0_succ _)) as H0. rewrite Nat.add_0_r in H0.
  rewrite H0. cbn. f_equal. apply IH. intros j Hj.
  replace (S t + j) with (t + S j) by lia. apply H. simpl. lia.
Qed.

Lemma owned_filter (uid : jsstring) (rows : list Row) :
  (exists r, In r rows /\ row_user_id r = uid) ->
  exists r rest, filter (ownedBy uid) rows = r :: rest.
Proof.
  intros (r & Hr & Hu).
  destruct (filter (ownedBy uid) rows) as [|x rest] eqn:E; [|eauto].
  assert (In r (filter (ownedBy uid) rows)) as F.
  { apply filter_In. split; [exact Hr|]. unfold ownedBy. now apply eqb_eq. }
  rewrite E in F. destruct F.
Qed.

Lemma unowned_filter (uid : jsstring) (rows : list Row) :
  (forall r, In r rows -> row_user_id r <> uid) ->
  filter (ownedBy uid) rows = [].
Proof.
  intros H. induction rows as [|x rows IH]; [reflexivity|]. simpl.
  assert (E : ownedBy uid x = false).
  { unfold ownedBy. apply eqb_neq. apply H. now left. }
  rewrite E. apply IH. intros r Hr. apply H. now right.
Qed.

Lemma length_insertRow (r : Row) (l : list Row) :
  length (insertRow r l) = S (length l).
Proof.
  induction l as [|x l IH]; simpl; [reflexivity|].
  destruct (leb _ _); simpl; [reflexivity | now rewrite IH].
Qed.

Lemma length_newestFirst (l : list Row) : length (newestFirst l) = length l.
Proof.
  unfold newestFirst. induction l as [|x l IH]; simpl; [reflexivity|].
  now rewrite length_insertRow, IH.
Qed.

(** What [migrateToDatabase] does once the existence query is answered. *)
Lemma migrateToDatabase_run (O : Oracle) (w : World) (usr : User) :
  user w = Some usr ->
  notes (this w) <> [] ->
  outcome O (tick w) = Accepted ->
  let uid := user_id usr in
  let w' := exec (migrateToDatabase O) w in
  this w' = this w /\ user w' = user w
  /\ ((exists r, In r (table w) /\ row_user_id r = uid) ->
      requests w' = requests w ++ [SelectOne uid] /\ table w' = table w)
  /\ ((forall r, In r (table w) -> row_user_id r <> uid) ->
      requests w' =
      requests w ++ SelectOne uid
        :: map (fun n => Insert uid (title n) (content n)) (notes (this w))
      /\ table w' =
         table w ++ Spec.migratedRows O uid (S (tick w)) (notes (this w))).
Proof.
  intros Hu Hn Ho uid w'. subst w'.
  assert (E : migrateToDatabase O w =
              match filter (ownedBy uid) (table w) with
              | [] => migrateEach O uid (notes (this w))
                        (sent (SelectOne uid) w)
              | _ :: _ => (tt, sent (SelectOne uid) w)
              end).
  { unfold migrateToDatabase, db_selectOne, send. run_monad. rewrite Hu.
    destruct (notes (this w)) as [|n0 l0] eqn:El; [congruence|].
    cbn. rewrite Ho. cbn. subst uid.
    destruct (filter (ownedBy (user_id usr)) (table w)); cbn;
      [now rewrite El | reflexivity]. }
  unfold exec. rewrite E.
  destruct (filter (ownedBy uid) (table w)) as [|r rest] eqn:Ef.
  - pose proof (migrateEach_run O uid (notes (this w))
                  (sent (SelectOne uid) w)) as (I1 & I2 & I3 & I4 & _).
    unfold exec in *. cbn in I1, I2, I3, I4.
    split; [exact I3|]. split; [exact I4|]. split.
    + intros H. destruct (owned_filter _ _ H) as (r & rest & F). congruence.
    + intros _. rewrite I1, I2, <- app_assoc. now split.
  - cbn. split; [reflexivity|]. split; [reflexivity|]. split.
    + intros _. now split.
    + intros H. rewrite (unowned_filter _ _ H) in Ef. discriminate.
Qed.

Ltac step_create :=
  match goal with
  | |- context [createNoteInStorage ?O ?a ?b ?x] =>
      let H := fresh "C" in
      pose proof (createNoteInStorage_run O a b x) as H;
      cbv zeta in H; unfold eval, exec in H;
      destruct (createNoteInStorage O a b x) as [? ?];
      cbn [fst snd] in H;
      destruct H as (? & ? & ? & ? & ? & ? & _)
  end.

Ltac step_save :=
  match goal with
  | |- context [saveNotesToStorage ?O ?x] =>
      let H := fresh "S" in
      pose proof (saveNotesToStorage_frame O x) as H;
      cbv zeta in H; unfold exec in H;
      destruct (saveNotesToStorage O x) as [[] ?];
      cbn [fst snd] in H;
      destruct H as (? & ? & ? & ?)
  end.

(** Loading from localStorage never touches the table, and always leaves
    at least one note in memory: a welcome note is created when nothing
    usable was stored. *)
Lemma loadNotesFromStorage_run (O : Oracle) (w : World) :
  let w' := exec (loadNotesFromStorage O) w in
  table w' = table w /\ user w' = user w /\ requests w' = requests w
  /\ notes (this w') <> [].
Proof.
  unfold loadNotesFromStorage, notify. run_monad.
  destruct (lsNotes w) as [[l|]|]; cbn.
  - destruct l as [|n l]; destruct (lsActiveId w) as [a|]; cbn;
      repeat match goal with
             | |- context [if ?c then _ else _] => destruct c; cbn
             end;
      try step_create; cbn in *; repeat split; congruence.
  - step_create. cbn in *. repeat split; congruence.
  - destruct (notes (this w)) as [|n l] eqn:En;
      destruct (lsActiveId w) as [a|]; cbn;
      repeat match goal with
             | |- context [if ?c then _ else _] => destruct c; cbn
             end;
      try step_create; cbn in *; repeat split; congruence.
Qed.

(** Reloading from the table writes to it only to seed the welcome note of
    a user who has no row. *)
Lemma loadNotesFromDatabase_table (O : Oracle) (w : World) (usr : User) :
  user w = Some usr ->
  (exists r, In r (table w) /\ row_user_id r = user_id usr) ->
  table (exec (loadNotesFromDatabase O) w) = table w.
Proof.
  intros Hu Hr.
  unfold loadNotesFromDatabase, db_selectAll, send, notify, exec. run_monad.
  rewrite Hu. cbn.
  destruct (outcome O (tick w)); cbn.
  - destruct (owned_filter _ _ Hr) as (r & rest & E). rewrite E.
    destruct (newestFirst (r :: rest)) as [|x xs] eqn:En.
    + apply (f_equal (@length Row)) in En. rewrite length_newestFirst in En.
      discriminate En.
    + cbn. step_save. cbn in *. congruence.
  - match goal with
    | |- context [loadNotesFromStorage O ?x] =>
        pose proof (loadNotesFromStorage_run O x) as (L1 & _);
        unfold exec in L1; destruct (loadNotesFromStorage O x) as [[] w2]
    end.
    cbn in *. exact L1.
  - match goal with
    | |- context [loadNotesFromStorage O ?x] =>
        pose proof (loadNotesFromStorage_run O x) as (L1 & _);
        unfold exec in L1; destruct (loadNotesFromStorage O x) as [[] w2]
    end.
    cbn in *. exact L1.
Qed.

Lemma owned_or_not (uid : jsstring) (rows : list Row) :
  (exists r, In r rows /\ row_user_id r = uid)
  \/ (forall r, In r rows -> row_user_id r <> uid).
Proof.
  destruct (filter (ownedBy uid) rows) as [|x rest] eqn:E.
  - right. intros r Hr Hu.
    assert (In r (filter (ownedBy uid) rows)) as F.
    { apply filter_In. split; [exact Hr|]. unfold ownedBy. now apply eqb_eq. }
    rewrite E in F. destruct F.
  - left. exists x.
    assert (In x (filter (ownedBy uid) rows)) as F by (rewrite E; now left).
    apply filter_In in F as [F1 F2]. split; [exact F1|].
    now apply eqb_eq.
Qed.

(** A store that was loaded from localStorage holds at least one note, be
    it after the constructor or after a sign-out: migration never starts
    from an empty list. *)
Lemma anonymous_notes_nonempty (O : Oracle) (w : World) :
  notes (this (newNoteManager O w)) <> []
  /\ notes (this (exec (setUser O None) w)) <> [].
Proof.
  split.
  - unfold newNoteManager. apply loadNotesFromStorage_run.
  - unfold setUser, handleUserChange. rewrite !exec_bind.
    apply loadNotesFromStorage_run.
Qed.

(** Sign-in when the existence query is answered.  On a store that holds
    local notes, [handleUserChange] first runs the migration and then
    reloads.  The migration first asks the table for a note of this user.
    When the user already owns a row, nothing else is sent and the table is
    unchanged, also after the reload.  Otherwise one insert is sent for
    every local note, in list order; the table gains a row for each insert
    it accepts, a failed insert being skipped; when every insert is accepted
    the new rows carry the titles and contents of all the local notes. *)
Theorem migration_on_sign_in (O : Oracle) (w : World) (usr : User) :
  notes (this w) <> [] ->
  outcome O (tick w) = Accepted ->
  let uid := user_id usr in
  let signed := with_this (set_useDatabase true) (set_user (Some usr) w) in
  let migrated := exec (migrateToDatabase O) signed in
  setUser O (Some usr) w = loadNotesFromDatabase O migrated
  /\ (exists rest, requests migrated = requests w ++ SelectOne uid :: rest)
  /\ ((exists r, In r (table w) /\ row_user_id r = uid) ->
      requests migrated = requests w ++ [SelectOne uid]
      /\ table migrated = table w
      /\ table (exec (setUser O (Some usr)) w) = table w)
  /\ ((forall r, In r (table w) -> row_user_id r <> uid) ->
      requests migrated =
      requests w ++ SelectOne uid
        :: map (fun n => Insert uid (title n) (content n)) (notes (this w))
      /\ table migrated =
         table w ++ Spec.migratedRows O uid (S (tick w)) (notes (this w))
      /\ ((forall j, j < length (notes (this w)) ->
                     outcome O (S (tick w) + j) = Accepted) ->
          map (fun r => (row_user_id r, row_title r, row_content r))
            (Spec.migratedRows O uid (S (tick w)) (notes (this w)))
          = map (fun n => (uid, title n, content n)) (notes (this w)))).
Proof.
  intros Hn Ho uid signed migrated.
  assert (E : setUser O (Some usr) w = loadNotesFromDatabase O migrated).
  { unfold setUser, handleUserChange. run_monad. fold signed.
    subst migrated. unfold exec. now destruct (migrateToDatabase O signed). }
  destruct (migrateToDatabase_run O signed usr eq_refl Hn Ho)
    as (M1 & M2 & M3 & M4).
  fold migrated in M1, M2, M3, M4. cbn in M2, M3, M4. fold uid in M3, M4.
  split; [exact E|]. split; [|split].
  - destruct (owned_or_not uid (table w)) as [H | H].
    + destruct (M3 H) as [R _]. rewrite R. now exists [].
    + destruct (M4 H) as [R _]. rewrite R. eauto.
  - intros H. destruct (M3 H) as [R T]. split; [exact R|]. split; [exact T|].
    unfold exec at 1. rewrite E. fold (exec (loadNotesFromDatabase O) migrated).
    rewrite <- T. apply loadNotesFromDatabase_table with (usr := usr).
    + exact M2.
    + rewrite T. exact H.
  - intros H. destruct (M4 H) as [R T]. split; [exact R|]. split; [exact T|].
    apply migratedRows_all.
Qed.

Lemma migration_on_sign_in_witness :
  let signed := with_this (set_useDatabase true)
                  (set_user (Some Samples.ann) Samples.anonymous) in
  requests (exec (migrateToDatabase Samples.calm) signed)
  = [SelectOne (js "u1");
     Insert (js "u1") (js "My  Note") (js "<p>Milk</p><p>Eggs</p>")].
Proof.
  destruct (migration_on_sign_in Samples.calm Samples.anonymous Samples.ann)
    as (_ & _ & _ & H).
  - discriminate.
  - reflexivity.
  - destruct H as [R _]; [intros r [] | exact R].
Defined.

(** With no note in memory, or without a session, the migration returns at
    once: nothing is asked of the table. *)
Lemma migrateToDatabase_nothing_to_do (O : Oracle) (w : World) :
  notes (this w) = [] \/ user w = None ->
  migrateToDatabase O w = (tt, w).
Proof.
  intros H. unfold migrateToDatabase. run_monad.
  destruct H as [H | H]; rewrite H; [destruct (user w)|]; reflexivity.
Qed.

(** When the existence query is answered with an error, its [data] is null
    and the migration goes on to insert every local note, whatever the table
    holds. *)
Lemma migrateToDatabase_query_refused (O : Oracle) (w : World) (usr : User) :
  user w = Some usr ->
  notes (this w) <> [] ->
  outcome O (tick w) = Refused ->
  requests (exec (migrateToDatabase O) w) =
  requests w ++ SelectOne (user_id usr)
    :: map (fun n => Insert (user_id usr) (title n) (content n)) (notes (this w)).
Proof.
  intros Hu Hn Ho.
  assert (E : migrateToDatabase O w =
              migrateEach O (user_id usr) (notes (this w))
                (sent (SelectOne (user_id usr)) w)).
  { unfold migrateToDatabase, db_selectOne, send. run_monad. rewrite Hu.
    destruct (notes (this w)) as [|n0 l0] eqn:El; [congruence|].
    cbn. rewrite Ho. cbn. now rewrite El. }
  unfold exec. rewrite E.
  pose proof (migrateEach_run O (user_id usr) (notes (this w))
                (sent (SelectOne (user_id usr)) w)) as (_ & I2 & _).
  unfold exec in I2. rewrite I2. cbn. now rewrite <- app_assoc.
Qed.

(** C1.  Ann owns a row of the table and signs in on a store that holds one
    local note, and the existence query of the migration is answered with
    an error.  [migrateToDatabase] reads [data] alone, which is null: the
    skip is not taken, the local note is inserted, and the table holds a
    second row of Ann, which the reload then shows next to the first. *)
Theorem migration_refused_query_inserts :
  let O := Samples.refusingAt 0 in
  let w := set_table [Samples.rowOf (js "u1") Samples.noteA] Samples.anonymous in
  let w' := exec (setUser O (Some Samples.ann)) w in
  (exists r, In r (table w) /\ row_user_id r = user_id Samples.ann)
  /\ notes (this w) = [Samples.draft]
  /\ outcome O (tick w) = Refused
  /\ requests w' =
     [SelectOne (js "u1");
      Insert (js "u1") (js "My  Note") (js "<p>Milk</p><p>Eggs</p>");
      SelectAll (js "u1")]
  /\ table w' =
     table w ++ [mkRow (serverId O 1) (js "u1") (js "My  Note")
                   (js "<p>Milk</p><p>Eggs</p>") (serverTime O 1)
                   (serverTime O 1)]
  /\ map title (notes (this w')) = [js "My  Note"; js "Alpha"].
Proof.
  repeat split. exists (Samples.rowOf (js "u1") Samples.noteA).
  split; [left; reflexivity | reflexivity].
Qed.

(* ================================================================== *)
(** ** Auto-save *)
(* ================================================================== *)

Lemma updateNoteInStorage_schedule
  (O : Oracle) (i : jsstring) (u : Updates) (w : World) :
  sameSchedule w (exec (updateNoteInStorage O i u) w).
Proof.
  unfold updateNoteInStorage, toISOString, notify, exec. run_monad.
  destruct (findIndex (sameId i) (notes (this w))) as [k|];
    [|apply sameSchedule_refl].
  destruct (nth_error (notes (this w)) k) as [old|];
    [|apply sameSchedule_refl].
  cbn. step_save. cbn in *. unfold sameSchedule in *. cbn in *.
  intuition congruence.
Qed.

Lemma updateNote_schedule (O : Oracle) (i : jsstring) (u : Updates) (w : World) :
  sameSchedule w (exec (updateNote O i u) w).
Proof.
  unfold updateNote, isAuthenticated, exec. run_monad.
  destruct (useDatabase (this w) && isSome (user w));
    [|apply updateNoteInStorage_schedule].
  unfold updateNoteInDatabase, toISOString, db_update, send, notify.
  run_monad. cbn.
  assert (Fallback : forall w2, sameSchedule w w2 ->
            sameSchedule w (snd (updateNoteInStorage O i u w2))).
  { intros w2 H. eapply sameSchedule_trans; [exact H|].
    apply updateNoteInStorage_schedule. }
  destruct (user w) as [usr|] eqn:Hu; cbn.
  - destruct (outcome O (S (tick w))); cbn.
    + destruct (find _ (table w)); cbn.
      * destruct (findIndex (sameId i) (notes (this w))); cbn.
        -- step_save. cbn in *. unfold sameSchedule in *. cbn in *.
           intuition congruence.
        -- unfold sameSchedule. cbn. now repeat split.
      * apply Fallback. unfold sameSchedule. cbn. now repeat split.
    + apply Fallback. unfold sameSchedule. cbn. now repeat split.
    + apply Fallback. unfold sameSchedule. cbn. now repeat split.
  - apply Fallback. unfold sameSchedule. cbn. now repeat split.
Qed.

Lemma updateNoteTitle_schedule (O : Oracle) (i content : jsstring) (w : World) :
  sameSchedule w (exec (updateNoteTitle O i content) w).
Proof.
  unfold updateNoteTitle. rewrite exec_bind. apply updateNote_schedule.
Qed.

(** With a session, [autoSaveNote] leaves exactly its own timeout pending. *)
Lemma autoSaveNote_run
  (i content : jsstring) (d : nat) (w : World) (usr : User) :
  user w = Some usr ->
  singleTimer w ->
  exec (autoSaveNote i content d) w =
  with_this (set_autoSaveTimeout (Some (nextTimer w)))
    (set_nextTimer (S (nextTimer w))
       (set_timers [mkTimer (nextTimer w) (now w + d) i content] w)).
Proof.
  intros Hu [Hpos Hsingle].
  unfold autoSaveNote, isAuthenticated, clearTimeout, setTimeout, exec.
  run_monad. rewrite Hu. cbn.
  assert (Hclear : forall h, autoSaveTimeout (this w) = Some h -> 0 < h ->
            filter (fun t => negb (timer_id t =? h)) (timers w) = []).
  { intros h Ha Hh.
    assert (F : forall l, (forall t, In t l -> timer_id t = h) ->
                          filter (fun t => negb (timer_id t =? h)) l = []).
    { induction l as [|t l IH]; intros H; [reflexivity|]. simpl.
      rewrite (H t (or_introl eq_refl)), Nat.eqb_refl. simpl.
      apply IH. intros x Hx. apply H. now right. }
    apply F. intros t Ht. destruct (Hsingle t Ht) as [E _]. congruence. }
  assert (Hnone : (autoSaveTimeout (this w) = None
                   \/ autoSaveTimeout (this w) = Some 0) -> timers w = []).
  { intros H. destruct (timers w) as [|t l] eqn:Et; [reflexivity|].
    destruct (Hsingle t (or_introl eq_refl)) as [E P].
    destruct H as [H | H]; rewrite H in E; [discriminate|].
    injection E as E. lia. }
  destruct (autoSaveTimeout (this w)) as [[|h]|] eqn:Ea; cbn.
  - rewrite Hnone by now right. reflexivity.
  - rewrite (Hclear (S h)) by (auto; lia). reflexivity.
  - rewrite Hnone by now left. reflexivity.
Qed.

Lemma advance_early (O : Oracle) (e : nat) (w : World) :
  (forall t, In t (timers w) -> now w + e < timer_due t) ->
  exec (advance O e) w = set_now (now w + e) w.
Proof.
  intros H. unfold advance, exec. run_monad. cbn.
  assert (F : forall l, (forall t, In t l -> now w + e < timer_due t) ->
            filter (fun x => negb (timer_due x <=? now w + e)) l = l
            /\ filter (fun x => timer_due x <=? now w + e) l = []).
  { induction l as [|t l IH]; intros Hl; [now split|]. simpl.
    assert (E : (timer_due t <=? now w + e) = false).
    { apply Nat.leb_gt. apply Hl. now left. }
    rewrite E. simpl. destruct IH as [I1 I2].
    - intros x Hx. apply Hl. now right.
    - now rewrite I1, I2. }
  destruct (F (timers w) H) as [F1 F2]. rewrite F1, F2. cbn.
  destruct w; reflexivity.
Qed.

Lemma advance_due (O : Oracle) (e : nat) (w : World) (t : Timer) :
  timers w = [t] ->
  timer_due t <= now w + e ->
  exec (advance O e) w =
  exec (updateNoteTitle O (timer_note t) (timer_content t))
    (logged (timer_note t, timer_content t)
       (set_timers [] (set_now (now w + e) w))).
Proof.
  intros Ht Hd. unfold advance, exec. run_monad. cbn. rewrite Ht. cbn.
  apply Nat.leb_le in Hd. rewrite Hd. cbn.
  unfold autoSaveCallback. run_monad. cbn.
  now destruct (updateNoteTitle O (timer_note t) (timer_content t) _).
Qed.

(** What [updateNote] sends to the table and stores in the browser. *)
Lemma updateNote_writes (O : Oracle) (i : jsstring) (u : Updates) (w : World) :
  let w' := exec (updateNote O i u) w in
  requests w' =
    requests w ++
    match user w with
    | Some usr => if useDatabase (this w)
                  then [Update i (user_id usr) u (dateISO O (tick w))] else []
    | None => []
    end
  /\ table w' =
     match user w, Spec.answeredRow O i w with
     | Some usr, Some _ =>
         map (fun x => if matches i (user_id usr) x
                       then applyUpdates u (dateISO O (tick w)) x else x)
           (table w)
     | _, _ => table w
     end
  /\ (findIndex (sameId i) (notes (this w)) = None ->
      lsNotes w' = lsNotes w /\ lsActiveId w' = lsActiveId w)
  /\ (findIndex (sameId i) (notes (this w)) <> None ->
      (forall t, quotaExceeded O t = false) ->
      lsNotes w' = Some (Some (notes (this w')))).
Proof.
  intros w'. subst w'.
  assert (Local : forall w2,
            notes (this w2) = notes (this w) ->
            let w' := exec (updateNoteInStorage O i u) w2 in
            requests w' = requests w2 /\ table w' = table w2
            /\ (findIndex (sameId i) (notes (this w)) = None ->
                lsNotes w' = lsNotes w2 /\ lsActiveId w' = lsActiveId w2)
            /\ (findIndex (sameId i) (notes (this w)) <> None ->
                (forall t, quotaExceeded O t = false) ->
                lsNotes w' = Some (Some (notes (this w'))))).
  { intros w2 Hn w'. subst w'.
    unfold updateNoteInStorage, toISOString, saveNotesToStorage, setItemNotes,
      setItemActiveId, notify.
    run_monad. rewrite Hn.
    destruct (findIndex (sameId i) (notes (this w))) as [k|] eqn:Hk.
    - destruct (findIndex_nth _ _ _ Hk) as (old & Ho & _). rewrite Ho. cbn.
      destruct (quotaExceeded O (S (tick w2))) eqn:Q1; cbn;
        [|destruct (quotaExceeded O (S (S (tick w2)))) eqn:Q2; cbn];
        (split; [reflexivity|]; split; [reflexivity|];
         split; [discriminate|]; intros _ Q;
         try (rewrite Q in Q1; discriminate Q1); reflexivity).
    - cbn. repeat split; intros; congruence. }
  unfold Spec.answeredRow.
  destruct (user w) as [usr|] eqn:Hu; [destruct (useDatabase (this w)) eqn:Hd|].
  - assert (E : updateNote O i u w = updateNoteInDatabase O i u w).
    { unfold updateNote, isAuthenticated. run_monad. now rewrite Hd, Hu. }
    unfold exec. rewrite E.
    unfold updateNoteInDatabase, toISOString, db_update, send.
    run_monad. cbn. rewrite Hu. cbn.
    set (w2 := sent (Update i (user_id usr) u (dateISO O (tick w))) (ticked w)).
    assert (F : let w' := exec (updateNoteInStorage O i u) w2 in
                requests w' = requests w
                              ++ [Update i (user_id usr) u (dateISO O (tick w))]
                /\ table w' = table w
                /\ (findIndex (sameId i) (notes (this w)) = None ->
                    lsNotes w' = lsNotes w /\ lsActiveId w' = lsActiveId w)
                /\ (findIndex (sameId i) (notes (this w)) <> None ->
                    (forall t, quotaExceeded O t = false) ->
                    lsNotes w' = Some (Some (notes (this w'))))).
    { exact (Local w2 eq_refl). }
    unfold exec in F. cbv zeta in F.
    destruct (outcome O (S (tick w))) eqn:Ho; cbn; try exact F.
    destruct (find (matches i (user_id usr)) (table w)) as [r|] eqn:Hr; cbn;
      [|exact F].
    unfold saveNotesToStorage, setItemNotes, setItemActiveId, notify.
    run_monad. cbn.
    destruct (findIndex (sameId i) (notes (this w))) as [k|] eqn:Hk; cbn.
    + destruct (quotaExceeded O (S (S (tick w)))) eqn:Q1; cbn;
        [|destruct (quotaExceeded O (S (S (S (tick w))))) eqn:Q2; cbn];
        (split; [reflexivity|]; split; [reflexivity|];
         split; [discriminate|]; intros _ Q;
         try (rewrite Q in Q1; discriminate Q1); reflexivity).
    + repeat split; intros; congruence.
  - assert (E : updateNote O i u w = updateNoteInStorage O i u w).
    { unfold updateNote, isAuthenticated. run_monad. now rewrite Hd. }
    unfold exec. rewrite E. rewrite app_nil_r. exact (Local w eq_refl).
  - assert (E : updateNote O i u w = updateNoteInStorage O i u w).
    { unfold updateNote, isAuthenticated. run_monad. rewrite Hu.
      now destruct (useDatabase (this w)). }
    unfold exec. rewrite E. rewrite app_nil_r. exact (Local w eq_refl).
Qed.

(** The id of the note [updateNote] puts in the list: the [id] key of the
    updates when there is one, the id asked for otherwise. *)
Lemma updateNote_found_id
  (O : Oracle) (i : jsstring) (u : Updates) (w : World) (k : nat) :
  findIndex (sameId i) (notes (this w)) = Some k ->
  exists new,
    eval (updateNote O i u) w = Some new
    /\ notes (this (exec (updateNote O i u) w)) = assign k new (notes (this w))
    /\ id new = match upd_id u with Some j => j | None => i end.
Proof.
  intros Hk. destruct (findIndex_nth _ _ _ Hk) as (old & Ho & Hid).
  apply eqb_eq in Hid.
  destruct (updateNote_found O i u w k old Hk Ho) as (new & t & E & N & L & _).
  exists new. split; [exact E|]. split; [exact L|]. rewrite N.
  destruct (Spec.answeredRow O i w) as [r|] eqn:Hr.
  - unfold Spec.answeredRow in Hr.
    destruct (useDatabase (this w)); [|discriminate].
    destruct (user w) as [usr|]; [|discriminate].
    destruct (outcome O (S (tick w))); try discriminate.
    apply find_some in Hr as [_ Hm]. unfold matches in Hm.
    apply andb_prop in Hm as [Hm _]. apply eqb_eq in Hm.
    cbn. now rewrite Hm.
  - cbn. now rewrite Hid.
Qed.

(** C7 (amended).  On a store with a session, let [autoSaveNote] be called
    for one note, and again, for the same or another note, before the first
    timeout is due.  The first timeout is cancelled and nothing is written
    while the second is pending.  Once the second delay has passed exactly
    one callback has run, the one of the second call, and no timeout is
    pending any more; the first content is never written.  What the
    callback writes: in database mode one update request, carrying the
    second content and the title derived from it, which the table applies
    to the user's row when it accepts it; and when the id of the second
    call is in the list, the note at its place is replaced once, by a note
    with that id, the second content and its derived title, all other notes
    staying as they were, and the list is stored in the browser when
    localStorage accepts the write.  When the id is not in the list, the
    callback changes no note and stores nothing in the browser.  Without a
    session [autoSaveNote] schedules nothing and changes nothing. *)
Theorem autoSaveNote_debounce
  (O : Oracle) (w : World) (usr : User)
  (i1 c1 i2 c2 : jsstring) (d1 d2 e1 e2 : nat) :
  let w1 := exec (autoSaveNote i1 c1 d1) w in
  let w2 := exec (advance O e1) w1 in
  let w3 := exec (autoSaveNote i2 c2 d2) w2 in
  let w4 := exec (advance O e2) w3 in
  let u2 := mkUpdates (Some (derivedTitle c2)) (Some c2) in
  (user w = None -> autoSaveNote i1 c1 d1 w = (tt, w))
  /\ (user w = Some usr -> singleTimer w -> e1 < d1 -> d2 <= e2 ->
      timers w1 = [mkTimer (nextTimer w) (now w + d1) i1 c1]
      /\ fired w2 = fired w
      /\ timers w3 = [mkTimer (S (nextTimer w)) (now w + e1 + d2) i2 c2]
      /\ w4 = exec (updateNoteTitle O i2 c2)
                (logged (i2, c2) (set_timers [] (set_now (now w3 + e2) w3)))
      /\ fired w4 = fired w ++ [(i2, c2)]
      /\ timers w4 = []
      /\ (notes (this w3) = notes (this w) /\ table w3 = table w
          /\ lsNotes w3 = lsNotes w /\ requests w3 = requests w)
      /\ requests w4 =
         requests w ++
         (if useDatabase (this w)
          then [Update i2 (user_id usr) u2 (dateISO O (tick w))] else [])
      /\ table w4 =
         match Spec.answeredRow O i2 w with
         | Some _ =>
             map (fun x => if matches i2 (user_id usr) x
                           then applyUpdates u2 (dateISO O (tick w)) x else x)
               (table w)
         | None => table w
         end
      /\ (forall k, findIndex (sameId i2) (notes (this w)) = Some k ->
          exists new,
            notes (this w4) = assign k new (notes (this w))
            /\ id new = i2
            /\ title new = derivedTitle c2
            /\ content new = c2
            /\ ((forall t, quotaExceeded O t = false) ->
                lsNotes w4 = Some (Some (notes (this w4)))))
      /\ (findIndex (sameId i2) (notes (this w)) = None ->
          notes (this w4) = notes (this w) /\ lsNotes w4 = lsNotes w)).
Proof.
  intros w1 w2 w3 w4 u2. split.
  - intros Hu. unfold autoSaveNote, isAuthenticated. run_monad.
    now rewrite Hu.
  - intros Hu Hs He1 He2.
    assert (E1 : w1 = with_this (set_autoSaveTimeout (Some (nextTimer w)))
                   (set_nextTimer (S (nextTimer w))
                      (set_timers [mkTimer (nextTimer w) (now w + d1) i1 c1] w)))
      by (apply (autoSaveNote_run i1 c1 d1 w usr); assumption).
    assert (E2 : w2 = set_now (now w1 + e1) w1).
    { apply advance_early. rewrite E1. cbn. intros t [<- | []]. cbn. lia. }
    assert (Hs2 : singleTimer w2).
    { rewrite E2, E1. destruct Hs as [Hpos _]. split; cbn; [lia|].
      intros t [<- | []]. cbn. split; [reflexivity | exact Hpos]. }
    assert (E3 : w3 = with_this (set_autoSaveTimeout (Some (nextTimer w2)))
                   (set_nextTimer (S (nextTimer w2))
                      (set_timers [mkTimer (nextTimer w2) (now w2 + d2) i2 c2] w2))).
    { apply (autoSaveNote_run i2 c2 d2 w2 usr); [|exact Hs2].
      rewrite E2, E1. exact Hu. }
    set (w3' := logged (i2, c2) (set_timers [] (set_now (now w3 + e2) w3))).
    assert (E4 : w4 = exec (updateNoteTitle O i2 c2) w3').
    { apply (advance_due O e2 w3 (mkTimer (nextTimer w2) (now w2 + d2) i2 c2)).
      - rewrite E3. reflexivity.
      - rewrite E3. cbn. lia. }
    pose proof (updateNoteTitle_schedule O i2 c2 w3') as (_ & _ & T & _ & F & _).
    rewrite <- E4 in T, F. cbn in T, F.
    assert (U : w4 = exec (updateNote O i2 u2) w3').
    { rewrite E4. unfold updateNoteTitle. now rewrite exec_bind. }
    assert (K : this w3' = set_autoSaveTimeout (Some (S (nextTimer w))) (this w)
                /\ user w3' = user w /\ table w3' = table w
                /\ lsNotes w3' = lsNotes w /\ requests w3' = requests w
                /\ tick w3' = tick w).
    { subst w3'. rewrite E3, E2, E1. cbn. now repeat split. }
    destruct K as (K1 & K2 & K3 & K4 & K5 & K6).
    assert (Kn : notes (this w3') = notes (this w)) by now rewrite K1.
    assert (Kr : Spec.answeredRow O i2 w3' = Spec.answeredRow O i2 w).
    { unfold Spec.answeredRow. now rewrite K1, K2, K3, K6. }
    pose proof (updateNote_writes O i2 u2 w3') as (R & B & M0 & M1).
    rewrite <- U in R, B, M0, M1. rewrite Kn in M0, M1.
    rewrite K2, Hu, K1, K5, K6 in R. cbn [useDatabase set_autoSaveTimeout] in R.
    rewrite K2, Hu, Kr, K3, K6 in B. rewrite K4 in M0.
    split; [now rewrite E1|]. split; [now rewrite E2, E1|].
    split; [rewrite E3, E2, E1; reflexivity|].
    split; [exact E4|]. split; [rewrite F, E3, E2, E1; reflexivity|].
    split; [exact T|].
    split; [rewrite E3, E2, E1; cbn; now repeat split|].
    split; [exact R|]. split; [exact B|]. split.
    + intros k Hk.
      assert (Hk' : findIndex (sameId i2) (notes (this w3')) = Some k)
        by now rewrite Kn.
      destruct (findIndex_nth _ _ _ Hk') as (old & Ho & _).
      destruct (updateNote_found O i2 u2 w3' k old Hk' Ho)
        as (new & t & _ & N & L & _).
      destruct (updateNote_found_id O i2 u2 w3' k Hk') as (new' & _ & L' & I).
      rewrite <- U in L, L'. rewrite Kn in L, L'.
      exists new. split; [exact L|].
      assert (new' = new).
      { apply (f_equal (fun l => nth_error l k)) in L'.
        rewrite L in L'. rewrite Kn in Ho.
        rewrite !(nth_error_assign_same k _ old _ Ho) in L'. congruence. }
      subst new'. split; [exact I|].
      split; [|split].
      * rewrite N. now destruct (Spec.answeredRow O i2 w3').
      * rewrite N. now destruct (Spec.answeredRow O i2 w3').
      * apply M1. congruence.
    + intros Hk. split; [|now apply M0].
      assert (Hk' : findIndex (sameId i2) (notes (this w3')) = None)
        by now rewrite Kn.
      destruct (updateNote_missing O i2 u2 w3' Hk') as [_ X].
      rewrite <- U in X. now rewrite X, K1.
Qed.

Lemma autoSaveNote_debounce_witness :
  let O := Samples.calm in
  let w1 := exec (autoSaveNote (js "a") (js "<p>first</p>") 2000) Samples.synced in
  let w2 := exec (advance O 500) w1 in
  let w3 := exec (autoSaveNote (js "a") (js "<p>second</p>") 2000) w2 in
  let w4 := exec (advance O 2000) w3 in
  fired w4 = [(js "a", js "<p>second</p>")]
  /\ map content (notes (this w4)) = [js "<p>second</p>"]
  /\ autoSaveNote (js "n1") (js "<p>x</p>") 2000 Samples.anonymous
     = (tt, Samples.anonymous).
Proof.
  destruct (autoSaveNote_debounce Samples.calm Samples.synced Samples.ann
              (js "a") (js "<p>first</p>") (js "a") (js "<p>second</p>")
              2000 2000 500 2000) as [_ H].
  destruct (autoSaveNote_debounce Samples.calm Samples.anonymous Samples.ann
              (js "n1") (js "<p>x</p>") (js "n1") (js "<p>x</p>")
              2000 2000 500 2000) as [A _].
  destruct H as (_ & _ & _ & _ & F & _ & _ & _ & _ & W & _).
  - reflexivity.
  - split; [apply Nat.lt_0_1 | intros t []].
  - apply Nat.ltb_lt. reflexivity.
  - apply Nat.leb_le. reflexivity.
  - split; [exact F|]. split; [|apply A; reflexivity].
    destruct (W 0 eq_refl) as (new & L & _ & _ & C & _).
    rewrite L. cbn. now rewrite C.
Defined.

(** The id ["zz"] names no note, neither in the list nor in the table: the
    second callback runs, yet the notes in memory, the table and the notes
    stored in the browser are what they were; no write was persisted. *)
Lemma autoSaveNote_unknown_id_counterexample :
  let O := Samples.calm in
  let w1 := exec (autoSaveNote (js "zz") (js "<p>first</p>") 2000) Samples.synced in
  let w2 := exec (advance O 500) w1 in
  let w3 := exec (autoSaveNote (js "zz") (js "<p>second</p>") 2000) w2 in
  let w4 := exec (advance O 2000) w3 in
  fired w4 = [(js "zz", js "<p>second</p>")]
  /\ notes (this w4) = notes (this Samples.synced)
  /\ table w4 = table Samples.synced
  /\ lsNotes w4 = lsNotes Samples.synced
  /\ lsActiveId w4 = lsActiveId Samples.synced.
Proof. repeat split. Qed.

(* ================================================================== *)
(** ** More about titles, file names and statistics *)
(* ================================================================== *)

Import Store.

Ltac nbool :=
  repeat match goal with
         | H : N.leb _ _ = true |- _ => apply N.leb_le in H
         | H : N.leb _ _ = false |- _ => apply N.leb_gt in H
         | H : N.eqb _ _ = true |- _ => apply N.eqb_eq in H
         | H : N.eqb _ _ = false |- _ => apply N.eqb_neq in H
         end.

Ltac ncases :=
  repeat match goal with
         | |- context [N.leb ?a ?b] => destruct (N.leb a b) eqn:?
         | |- context [N.eqb ?a ?b] => destruct (N.eqb a b) eqn:?
         end.

Lemma sanitizeUnit_safe (c : codeunit) :
  isFileNameUnit (Spec.sanitizeUnit c) = true.
Proof.
  unfold isFileNameUnit, Spec.sanitizeUnit, isAlnumIgnoreCase, lowerUnit,
    isLower, isUpper, isDigit, UNDERSCORE.
  destruct (N.leb 97 c) eqn:L1; destruct (N.leb c 122) eqn:L2;
    destruct (N.leb 65 c) eqn:U1; destruct (N.leb c 90) eqn:U2;
    destruct (N.leb 48 c) eqn:D1; destruct (N.leb c 57) eqn:D2;
    cbv [andb orb negb]; try reflexivity; nbool; try lia;
    ncases; cbv [andb orb negb]; try reflexivity; nbool; lia.
Qed.

Lemma sanitizeUnit_fixed (c : codeunit) :
  isFileNameUnit c = true -> Spec.sanitizeUnit c = c.
Proof.
  unfold isFileNameUnit, Spec.sanitizeUnit, isAlnumIgnoreCase, lowerUnit,
    isLower, isUpper, isDigit, UNDERSCORE.
  destruct (N.leb 97 c) eqn:L1; destruct (N.leb c 122) eqn:L2;
    destruct (N.leb 65 c) eqn:U1; destruct (N.leb c 90) eqn:U2;
    destruct (N.leb 48 c) eqn:D1; destruct (N.leb c 57) eqn:D2;
    destruct (N.eqb c 95) eqn:E;
    cbv [andb orb negb]; intros H; try discriminate H; try reflexivity;
    nbool; try lia;
    ncases; cbv [andb orb negb]; try reflexivity; nbool; try lia;
    try (symmetry; assumption).
Qed.

(** X1.  [sanitizeFilename] keeps the length of the title and returns only
    lower-case ASCII letters, digits and underscores; applying it again
    changes nothing. *)
Theorem sanitizeFilename_safe (ttl : jsstring) :
  length (sanitizeFilename ttl) = length ttl
  /\ (forall c, In c (sanitizeFilename ttl) -> isFileNameUnit c = true)
  /\ sanitizeFilename (sanitizeFilename ttl) = sanitizeFilename ttl.
Proof.
  rewrite !sanitizeFilename_units. split; [apply length_map|]. split.
  - intros c Hc. apply in_map_iff in Hc as (x & <- & _).
    apply sanitizeUnit_safe.
  - rewrite map_map. apply map_ext. intros c.
    apply sanitizeUnit_fixed, sanitizeUnit_safe.
Qed.

Lemma stripTagsFrom_keeps_GT (b : bool) (s : jsstring) :
  existsb (N.eqb GT) (stripTagsFrom b s) = true ->
  existsb (N.eqb GT) s = true.
Proof.
  revert b. induction s as [|c r IH]; intros b;
    [destruct b; simpl; intros H; exact H|].
  simpl. destruct b.
  - destruct (N.eqb c GT); intros H; apply IH in H; rewrite H;
      apply orb_true_r.
  - destruct (N.eqb c LT && existsb (N.eqb GT) r).
    + intros H. apply IH in H. rewrite H. apply orb_true_r.
    + simpl. intros H. apply orb_prop in H as [H | H].
      * rewrite H. reflexivity.
      * apply IH in H. rewrite H. apply orb_true_r.
Qed.

Lemma stripTagsFrom_idempotent (b : bool) (s : jsstring) :
  stripTagsFrom false (stripTagsFrom b s) = stripTagsFrom b s.
Proof.
  revert b. induction s as [|c r IH]; intros b; [destruct b; reflexivity|].
  simpl. destruct b.
  - destruct (N.eqb c GT); apply IH.
  - destruct (N.eqb c LT && existsb (N.eqb GT) r) eqn:E; [apply IH|].
    simpl.
    destruct (N.eqb c LT && existsb (N.eqb GT) (stripTagsFrom false r)) eqn:F.
    + apply andb_prop in F as [F1 F2]. apply stripTagsFrom_keeps_GT in F2.
      rewrite F1, F2 in E. discriminate E.
    + f_equal. apply IH.
Qed.

Lemma stripTagsFrom_no_tag (b : bool) (s pre post : jsstring) :
  stripTagsFrom b s = pre ++ LT :: post ->
  existsb (N.eqb GT) post = false.
Proof.
  revert b pre. induction s as [|c r IH]; intros b pre.
  - destruct b, pre; discriminate.
  - simpl. destruct b.
    + destruct (N.eqb c GT); apply IH.
    + destruct (N.eqb c LT && existsb (N.eqb GT) r) eqn:E; [apply IH|].
      destruct pre as [|x pre]; simpl; intros H; injection H as Hc Ho.
      * subst c. simpl in E.
        destruct (existsb (N.eqb GT) post) eqn:G; [|reflexivity].
        rewrite <- Ho in G. apply stripTagsFrom_keeps_GT in G.
        rewrite G in E. discriminate E.
      * eapply IH. exact Ho.
Qed.

Lemma length_stripTagsFrom (b : bool) (s : jsstring) :
  length (stripTagsFrom b s) <= length s.
Proof.
  revert b. induction s as [|c r IH]; intros b; [destruct b; simpl; lia|].
  simpl. destruct b.
  - destruct (N.eqb c GT); [specialize (IH false) | specialize (IH true)]; lia.
  - destruct (N.eqb c LT && existsb (N.eqb GT) r);
      [specialize (IH true) | specialize (IH false)]; simpl; lia.
Qed.

(** X2.  The tag stripping of [extractFirstLineAsTitle] leaves no tag
    behind: in its result no [<] is followed, however far, by a [>]; so
    stripping twice is stripping once, and the result is never longer than
    the content. *)
Theorem stripTags_leaves_no_tag (content : jsstring) :
  (forall pre post,
     stripTags content = pre ++ LT :: post -> ~ In GT post)
  /\ stripTags (stripTags content) = stripTags content
  /\ length (stripTags content) <= length content.
Proof.
  split; [|split].
  - intros pre post H Hin.
    apply stripTagsFrom_no_tag in H.
    assert (E : existsb (N.eqb GT) post = true).
    { apply existsb_exists. exists GT. split; [exact Hin | reflexivity]. }
    congruence.
  - apply stripTagsFrom_idempotent.
  - apply length_stripTagsFrom.
Qed.

Lemma stripTags_leaves_no_tag_witness :
  ~ In GT (js "b c").
Proof.
  destruct (stripTags_leaves_no_tag (js "<i>a</i> <b c")) as [H _].
  apply (H (js "a ") (js "b c")). reflexivity.
Defined.

(** C8 (amended).  For an id present in the store, [exportNoteAsText]
    returns the note's title and, as file name, the title in which every
    unit that is not a letter or digit is replaced by ['_'] (one underscore
    per unit), lower-cased, followed by [".txt"]; and when the browser
    reads the content as tags and text, the exported content is the note's
    content with all markup stripped: what stands outside the tags, in
    which no tag is left.  For an id that is not present it returns
    [null]. *)
Theorem exportNoteAsText_by_units (D : Dom) (i : jsstring) (m : NoteManager) :
  ((exists n, In n (notes m) /\ id n = i) ->
   exists n, In n (notes m) /\ id n = i
     /\ option_map export_title (exportNoteAsText D i m) = Some (title n)
     /\ option_map export_filename (exportNoteAsText D i m)
        = Some (Spec.filenameByUnits (title n))
     /\ (readsAsMarkup D (content n) ->
         exportNoteAsText D i m =
         Some (mkExport (title n) (stripTags (content n))
                 (Spec.filenameByUnits (title n)))
         /\ (forall pre post,
               stripTags (content n) = pre ++ LT :: post -> ~ In GT post)))
  /\ ((forall n, In n (notes m) -> id n <> i) ->
      exportNoteAsText D i m = None).
Proof.
  unfold exportNoteAsText. split.
  - intros (n & Hn & Hi).
    destruct (getNoteById i m) as [n'|] eqn:E.
    + destruct (getNoteById_Some _ _ _ E) as [H1 H2].
      exists n'. split; [exact H1|]. split; [exact H2|].
      assert (F : sanitizeFilename (title n') ++ js ".txt"
                  = Spec.filenameByUnits (title n'))
        by (unfold Spec.filenameByUnits; now rewrite sanitizeFilename_units).
      cbn [option_map export_title export_filename]. rewrite F.
      split; [reflexivity|]. split; [reflexivity|].
      intros [T I]. split.
      * unfold plainTextOf. rewrite T, I.
        destruct (stripTags (content n')); reflexivity.
      * intros pre post H Hin.
        apply stripTagsFrom_no_tag in H.
        assert (G : existsb (N.eqb GT) post = true).
        { apply existsb_exists. exists GT. split; [exact Hin | reflexivity]. }
        congruence.
    + rewrite getNoteById_None in E. now destruct (E n Hn).
  - intros H. apply getNoteById_None in H. now rewrite H.
Qed.

Lemma exportNoteAsText_by_units_witness :
  exportNoteAsText markupDom (js "n1") Samples.oneNote =
  Some (mkExport (js "My  Note") (js "MilkEggs") (js "my__note.txt")).
Proof.
  destruct (exportNoteAsText_by_units markupDom (js "n1") Samples.oneNote)
    as [H _].
  destruct H as (n & Hn & _ & _ & _ & H).
  - exists Samples.draft. split; [left; reflexivity | reflexivity].
  - destruct Hn as [<- | []].
    destruct H as [H _]; [split; reflexivity | exact H].
Defined.

Lemma trimStart_units (P : codeunit -> Prop) (s : jsstring) :
  (forall c, In c s -> P c) -> forall c, In c (trimStart s) -> P c.
Proof.
  induction s as [|x r IH]; intros H c; simpl; [intros []|].
  destruct (isWhiteSpace x).
  - apply IH. intros y Hy. apply H. now right.
  - apply H.
Qed.

Lemma trimEnd_units (P : codeunit -> Prop) (s : jsstring) :
  (forall c, In c s -> P c) -> forall c, In c (trimEnd s) -> P c.
Proof.
  induction s as [|x r IH]; intros H c; [intros []|].
  rewrite trimEnd_cons.
  assert (Hr : forall y, In y (trimEnd r) -> P y).
  { apply IH. intros y Hy. apply H. now right. }
  destruct (trimEnd r) as [|y r'].
  - destruct (isWhiteSpace x); [intros [] | intros [<- | []]].
    apply H. now left.
  - intros [<- | Hc]; [apply H; now left | now apply Hr].
Qed.

Lemma trim_units (P : codeunit -> Prop) (s : jsstring) :
  (forall c, In c s -> P c) -> forall c, In c (trim s) -> P c.
Proof. intros H. apply trimEnd_units, trimStart_units, H. Qed.

Lemma firstLine_no_LF (s : jsstring) :
  forall c, In c (hd [] (splitOn isLF s)) -> isLF c = false.
Proof.
  induction s as [|x r IH]; intros c; [intros []|].
  rewrite firstLine_cons. destruct (isLF x) eqn:E; [intros []|].
  intros [<- | H]; [exact E | now apply IH].
Qed.

Lemma length_trimStart (s : jsstring) : length (trimStart s) <= length s.
Proof.
  induction s as [|x r IH]; simpl; [lia|].
  destruct (isWhiteSpace x); simpl; lia.
Qed.

Lemma length_trimEnd (s : jsstring) : length (trimEnd s) <= length s.
Proof.
  induction s as [|x r IH]; [simpl; lia|]. rewrite trimEnd_cons.
  destruct (trimEnd r); [destruct (isWhiteSpace x)|]; simpl in *; lia.
Qed.

Lemma length_trim (s : jsstring) : length (trim s) <= length s.
Proof.
  unfold trim. pose proof (length_trimEnd (trimStart s)).
  pose proof (length_trimStart s). lia.
Qed.

(** X3.  Whatever the content, the title [updateNoteTitle] saves is not
    empty, has at most 53 units (50 and the three dots) and holds no line
    feed. *)
Theorem derivedTitle_single_bounded_line (content : jsstring) :
  derivedTitle content <> []
  /\ length (derivedTitle content) <= 53
  /\ (forall c, In c (derivedTitle content) -> isLF c = false).
Proof.
  unfold derivedTitle.
  set (line := extractFirstLineAsTitle content).
  assert (Hline : forall c, In c line -> isLF c = false).
  { subst line. unfold extractFirstLineAsTitle.
    destruct (negb (truthy content)); [intros c []|].
    destruct (negb (truthy (trim (stripTags content)))); [intros c []|].
    unfold or_else.
    destruct (truthy (trim (hd [] (splitOn isLF (trim (stripTags content)))))).
    - apply trim_units, firstLine_no_LF.
    - intros c Hc. vm_compute in Hc.
      repeat (destruct Hc as [<- | Hc]; [reflexivity|]). destruct Hc. }
  destruct (truthy line) eqn:Ht.
  - unfold substring0. split; [|split].
    + destruct line; [discriminate Ht | discriminate].
    + rewrite length_app, length_firstn.
      assert (length (if 50 <? length line then js "..." else js "") <= 3)
        by (destruct (50 <? length line); vm_compute; lia).
      pose proof (Nat.le_min_l 50 (length line)). lia.
    + intros c Hc. apply in_app_or in Hc as [Hc | Hc].
      * apply Hline. rewrite <- (firstn_skipn 50 line).
        apply in_or_app. now left.
      * destruct (50 <? length line); [|destruct Hc].
        vm_compute in Hc. repeat (destruct Hc as [<- | Hc]; [reflexivity|]).
        destruct Hc.
  - split; [discriminate|]. split; [vm_compute; lia|].
    intros c Hc. vm_compute in Hc.
    repeat (destruct Hc as [<- | Hc]; [reflexivity|]). destruct Hc.
Qed.

Lemma length_splitRunsFrom (sep : codeunit -> bool) (cur : jsstring)
  (inrun : bool) (s : jsstring) :
  1 <= length (splitRunsFrom sep cur inrun s)
  /\ length (splitRunsFrom sep cur inrun s) <= 1 + length (filter sep s).
Proof.
  revert cur inrun. induction s as [|c r IH]; intros cur inrun;
    [simpl; lia|].
  simpl. destruct (sep c).
  - destruct inrun; simpl; specialize (IH [] true); lia.
  - specialize (IH (c :: cur) false). lia.
Qed.

Lemma length_filter_le {A} (p : A -> bool) (l : list A) :
  length (filter p l) <= length l.
Proof.
  induction l as [|x l IH]; simpl; [lia|]. destruct (p x); simpl; lia.
Qed.

Lemma trim_head (s : jsstring) :
  trim s = [] \/ exists c r, trim s = c :: r /\ isWhiteSpace c = false.
Proof.
  unfold trim.
  assert (Hs : trimStart s = [] \/
               exists c r, trimStart s = c :: r /\ isWhiteSpace c = false).
  { induction s as [|c r IH]; [now left|]. simpl.
    destruct (isWhiteSpace c) eqn:Hw; [exact IH|]. right; eauto. }
  destruct Hs as [-> | (c & r & -> & Hw)]; [now left|].
  destruct (trimEnd_head c r Hw) as [r' E]. right; eauto.
Qed.

(** X4.  [getNoteStats] on an empty content gives three zeros.  Otherwise
    [characters] is the length of the plain text, white space included;
    [words] is zero exactly when the plain text is blank, and then
    [sentences] is zero as well; and there are never more words than
    characters. *)
Theorem getNoteStats_counts (D : Dom) (content : jsstring) :
  (content = [] -> getNoteStats D content = mkStats 0 0 0)
  /\ (content <> [] ->
      characters (getNoteStats D content) = length (plainTextOf D content)
      /\ (words (getNoteStats D content) = 0
          <-> trim (plainTextOf D content) = [])
      /\ (trim (plainTextOf D content) = [] ->
          sentences (getNoteStats D content) = 0)
      /\ words (getNoteStats D content)
         <= characters (getNoteStats D content)).
Proof.
  split; [intros ->; reflexivity|].
  intros Hc. unfold getNoteStats.
  destruct content as [|x content]; [congruence|]. cbn [truthy negb].
  set (p := plainTextOf D (x :: content)). cbn [words characters sentences].
  split; [reflexivity|].
  destruct (trim_head p) as [E | (c & r & E & Hw)].
  - rewrite E. cbn. repeat split; try reflexivity; lia.
  - rewrite E. cbn [truthy].
    pose proof (length_splitRunsFrom isWhiteSpace [] false (c :: r)) as [L1 L2].
    fold (splitRuns isWhiteSpace (c :: r)) in L1, L2.
    split; [split; [lia | discriminate]|]. split; [discriminate|].
    simpl filter in L2. rewrite Hw in L2.
    pose proof (length_filter_le isWhiteSpace r).
    pose proof (length_trim p). rewrite E in H0. simpl in H0. lia.
Qed.

Lemma getNoteStats_counts_witness :
  characters (getNoteStats markupDom (js "<p> </p>")) = 1
  /\ sentences (getNoteStats markupDom (js "<p> </p>")) = 0.
Proof.
  destruct (getNoteStats_counts markupDom (js "<p> </p>")) as [_ H].
  destruct H as (H1 & _ & H3 & _); [discriminate|].
  split; [exact H1 | apply H3; reflexivity].
Defined.

Lemma isExtension_no_dot (s t : jsstring) :
  isExtension (s ++ DOT :: t) = false.
Proof.
  unfold isExtension. rewrite forallb_app.
  assert (E : forallb isExtensionUnit (DOT :: t) = false).
  { reflexivity. }
  rewrite E. now rewrite !andb_false_r.
Qed.

(** X5.  The title [importTextContent] gives a file: the name without its
    last extension (a dot followed to the end by at least one unit that is
    neither a dot nor a slash); a name without any dot unchanged;
    ["Imported Note"] when no name is given. *)
Theorem importedTitle_extension (base ext name : jsstring) :
  (isExtension ext = true ->
   importedTitle (base ++ DOT :: ext) = base)
  /\ ((forall c, In c name -> c <> DOT) -> name <> [] ->
      importedTitle name = name)
  /\ importedTitle [] = js "Imported Note".
Proof.
  split; [|split; [|reflexivity]].
  - intros He. unfold importedTitle.
    replace (truthy (base ++ DOT :: ext)) with true by (now destruct base).
    induction base as [|c b IH]; simpl.
    + now rewrite He.
    + destruct (N.eqb c DOT) eqn:E; simpl; [|now rewrite IH].
      rewrite isExtension_no_dot. now rewrite IH.
  - intros H Hn. unfold importedTitle.
    destruct name as [|x r]; [congruence|]. cbn [truthy].
    clear Hn. induction (x :: r) as [|c s IH]; [reflexivity|]. simpl.
    assert (E : N.eqb c DOT = false).
    { apply N.eqb_neq. apply H. now left. }
    rewrite E. simpl. f_equal. apply IH. intros y Hy. apply H. now right.
Qed.

Lemma importedTitle_extension_witness :
  importedTitle (js "notes.2024.txt") = js "notes.2024"
  /\ importedTitle (js "README") = js "README".
Proof.
  destruct (importedTitle_extension (js "notes.2024") (js "txt") (js "README"))
    as (H1 & H2 & _).
  split.
  - apply H1. reflexivity.
  - apply H2; [|discriminate].
    intros c Hc. vm_compute in Hc.
    repeat (destruct Hc as [<- | Hc]; [discriminate|]). destruct Hc.
Defined.

(* ================================================================== *)
(** ** More about the editor history *)
(* ================================================================== *)

Section MoreHistory.

Import Editor.

Variable serialize : jsstring -> jsstring.

(** X6.  [saveState] settles: afterwards the last saved state is the
    content of the editor, the content itself is untouched, and a second
    [saveState] changes nothing. *)
Theorem saveState_settles (e : Editor) :
  lastSavedState (saveState e) = getContent e
  /\ getContent (saveState e) = getContent e
  /\ saveState (saveState e) = saveState e.
Proof.
  unfold saveState, getContent.
  destruct (Js.eqb (innerHTML e) (lastSavedState e)) eqn:E.
  - rewrite E. apply eqb_eq in E. now repeat split.
  - cbn. rewrite eqb_refl. now repeat split.
Qed.

(** X7.  On a saved state whose undo stack ends with a different state
    [p], [undo] shows [p] but puts the state it left on top of the undo
    stack and empties the redo stack: a following [redo] does nothing, and
    a second [undo] brings the editor back to the state it started from. *)
Theorem undo_swaps_two_states
  (u : list jsstring) (p saved : jsstring) (levels : nat) :
  let e := mkEditor saved (u ++ [p]) [] levels saved in
  let e' := mkEditor p (u ++ [saved]) [] levels p in
  p <> [] -> saved <> [] -> p <> saved ->
  serialize p = p -> serialize saved = saved ->
  length u < levels ->
  undo serialize e = e'
  /\ redo serialize e' = e'
  /\ undo serialize e' = e.
Proof.
  intros e e' Hp Hs Hne Sp Ss Hl.
  assert (Swap : forall a b, a <> [] -> b <> [] -> a <> b ->
            serialize a = a ->
            undo serialize (mkEditor b (u ++ [a]) [] levels b)
            = mkEditor a (u ++ [b]) [] levels a).
  { intros a b Ha Hb Hab Sa. unfold undo. cbn [undoStack].
    rewrite rev_unit. cbn [getContent innerHTML redoStack maxUndoLevels
                             lastSavedState].
    unfold setContent, or_else.
    replace (truthy a) with true by (destruct a; [congruence | reflexivity]).
    rewrite Sa, rev_involutive. unfold saveState.
    cbn [getContent innerHTML lastSavedState undoStack maxUndoLevels].
    assert (E : Js.eqb a b = false) by (now apply eqb_neq).
    rewrite E. unfold push. rewrite length_app. cbn [length].
    replace (levels <? length u + 1) with false
      by (symmetry; apply Nat.ltb_ge; lia).
    reflexivity. }
  split; [|split].
  - apply Swap; assumption.
  - reflexivity.
  - apply Swap; try assumption. congruence.
Qed.

End MoreHistory.

Lemma undo_swaps_two_states_witness :
  Editor.undo (fun s => s)
    (Editor.undo (fun s => s)
       (Editor.mkEditor (js "<p>b</p>") [js "<p></p>"; js "<p>a</p>"] [] 50
          (js "<p>b</p>")))
  = Editor.mkEditor (js "<p>b</p>") [js "<p></p>"; js "<p>a</p>"] [] 50
      (js "<p>b</p>").
Proof.
  assert (L : 1 < 50) by (apply Nat.ltb_lt; reflexivity).
  assert (N1 : js "<p>a</p>" <> []) by discriminate.
  assert (N2 : js "<p>b</p>" <> []) by discriminate.
  assert (N3 : js "<p>a</p>" <> js "<p>b</p>") by discriminate.
  destruct (undo_swaps_two_states (fun s => s) [js "<p></p>"] (js "<p>a</p>")
              (js "<p>b</p>") 50 N1 N2 N3 eq_refl eq_refl L) as (H1 & _ & H3).
  exact (eq_trans (f_equal (Editor.undo (fun s => s)) H1) H3).
Defined.

(* ================================================================== *)
(** ** The store under any sequence of calls *)
(* ================================================================== *)

Arguments deleteNote : simpl never.
Arguments setUser : simpl never.
Arguments autoSaveNote : simpl never.
Arguments advance : simpl never.
Arguments importTextContent : simpl never.

Lemma scoped_refl (w : World) : scoped w w.
Proof.
  split; [reflexivity|]. exists []. rewrite app_nil_r.
  split; [reflexivity|]. destruct (user w); [constructor | now split].
Qed.

Lemma scoped_trans (a b c : World) : scoped a b -> scoped b c -> scoped a c.
Proof.
  intros (U1 & r1 & R1 & F1) (U2 & r2 & R2 & F2).
  split; [congruence|]. exists (r1 ++ r2).
  rewrite R2, R1, app_assoc. split; [reflexivity|].
  rewrite U1 in F2. destruct (user a).
  - apply Forall_app. now split.
  - destruct F1 as [-> T1], F2 as [-> T2]. split; [reflexivity | congruence].
Qed.

Lemma quiet_scoped (w w' : World) :
  user w' = user w -> requests w' = requests w -> table w' = table w ->
  scoped w w'.
Proof.
  intros U R T. split; [exact U|]. exists []. rewrite app_nil_r.
  split; [exact R|]. destruct (user w); [constructor | now split].
Qed.

Lemma sent_scoped (r : Request) (w w' : World) (usr : User) :
  user w = Some usr -> requestUser r = user_id usr ->
  user w' = user w -> requests w' = requests w ++ [r] ->
  scoped w w'.
Proof.
  intros U Q U' R. split; [exact U'|]. exists [r]. split; [exact R|].
  rewrite U. constructor; [exact Q | constructor].
Qed.

Lemma validActive_ids (m m' : NoteManager) :
  activeNoteId m' = activeNoteId m ->
  map id (notes m') = map id (notes m) ->
  validActive m -> validActive m'.
Proof.
  unfold validActive. intros A I. rewrite A.
  destruct (activeNoteId m) as [a|].
  - intros (n & Hn & Ha).
    assert (In a (map id (notes m'))) as H.
    { rewrite I. apply in_map_iff. eauto. }
    apply in_map_iff in H as (n' & H1 & H2). eauto.
  - intros E. rewrite E in I. now destruct (notes m').
Qed.

Lemma validActive_head (m : NoteManager) (n : Note) (l : list Note) :
  notes m = n :: l -> activeNoteId m = Some (id n) -> validActive m.
Proof.
  intros N A. unfold validActive. rewrite A, N. exists n. split; [now left | reflexivity].
Qed.

Lemma saveNotesToStorage_scoped (O : Oracle) (w : World) :
  scoped w (exec (saveNotesToStorage O) w).
Proof.
  destruct (saveNotesToStorage_frame O w) as (_ & T & R & U & _).
  now apply quiet_scoped.
Qed.

Lemma createNoteInStorage_scoped (O : Oracle) (ttl body : jsstring) (w : World) :
  scoped w (exec (createNoteInStorage O ttl body) w).
Proof.
  destruct (createNoteInStorage_run O ttl body w) as (_ & _ & _ & T & U & R & _).
  now apply quiet_scoped.
Qed.

(** What [createNote] does in every mode and whatever the table answers. *)
Lemma createNote_run (O : Oracle) (ttl body : jsstring) (w : World) :
  let n := eval (createNote O ttl body) w in
  let w' := exec (createNote O ttl body) w in
  notes (this w') = n :: notes (this w)
  /\ activeNoteId (this w') = Some (id n)
  /\ title n = ttl /\ content n = body
  /\ scoped w w'.
Proof.
  cbv zeta.
  assert (Local : forall w2,
            notes (this w2) = notes (this w) -> scoped w w2 ->
            createNote O ttl body w = createNoteInStorage O ttl body w2 ->
            notes (this (exec (createNote O ttl body) w))
              = eval (createNote O ttl body) w :: notes (this w)
            /\ activeNoteId (this (exec (createNote O ttl body) w))
               = Some (id (eval (createNote O ttl body) w))
            /\ title (eval (createNote O ttl body) w) = ttl
            /\ content (eval (createNote O ttl body) w) = body
            /\ scoped w (exec (createNote O ttl body) w)).
  { intros w2 Hn Hs E.
    destruct (createNoteInStorage_run O ttl body w2) as (C1 & C2 & C3 & _).
    pose proof (createNoteInStorage_scoped O ttl body w2) as C4.
    unfold eval, exec in *. rewrite E. rewrite C1 at 3 4. rewrite <- Hn.
    repeat split; try assumption.
    - rewrite C2. now rewrite C1.
    - rewrite C3. now rewrite C1.
    - eapply scoped_trans; eassumption.
    - eapply scoped_trans; eassumption. }
  destruct (useDatabase (this w) && isSome (user w)) eqn:Hmode.
  - apply andb_prop in Hmode as [Hd Hs].
    destruct (user w) as [usr|] eqn:Hu; [|discriminate].
    assert (Sent : scoped w (sent (Insert (user_id usr) ttl body) w)).
    { apply (sent_scoped (Insert (user_id usr) ttl body) w _ usr);
        try reflexivity; assumption. }
    destruct (outcome O (tick w)) eqn:Ho.
    + (* the insert is accepted *)
      unfold eval, exec.
      unfold createNote, isAuthenticated, createNoteInDatabase, db_insert,
        send, unshiftActive, notify.
      run_monad. rewrite Hd, Hu. cbn. rewrite Hu. cbn. rewrite Ho. cbn.
      step_save. cbn in *.
      match goal with H : this _ = _ |- _ => rewrite H end. cbn.
      repeat split; try reflexivity.
      * match goal with H : sameSchedule _ _ |- _ => destruct H as [H' _] end.
        cbn in *. congruence.
      * exists [Insert (user_id usr) ttl body]. split.
        -- cbn. match goal with H : requests _ = _ |- _ => rewrite H end.
           reflexivity.
        -- rewrite Hu. constructor; [reflexivity | constructor].
    + apply (Local (sent (Insert (user_id usr) ttl body) w));
        [reflexivity | exact Sent |].
      unfold createNote, isAuthenticated, createNoteInDatabase, db_insert, send.
      run_monad. rewrite Hd, Hu. cbn. rewrite Hu. cbn. now rewrite Ho.
    + apply (Local (sent (Insert (user_id usr) ttl body) w));
        [reflexivity | exact Sent |].
      unfold createNote, isAuthenticated, createNoteInDatabase, db_insert, send.
      run_monad. rewrite Hd, Hu. cbn. rewrite Hu. cbn. now rewrite Ho.
  - apply (Local w); [reflexivity | apply scoped_refl |].
    unfold createNote, isAuthenticated. run_monad. now rewrite Hmode.
Qed.

(** X8.  In either mode, and whether the table accepts the insert or not,
    the note [createNote] returns carries the given title and content, is
    the first of the list, is the one [getNoteById] finds under its id, and
    is the active note; the list has grown by exactly this note. *)
Theorem createNote_then_lookup (O : Oracle) (ttl body : jsstring) (w : World) :
  let n := eval (createNote O ttl body) w in
  let w' := exec (createNote O ttl body) w in
  title n = ttl /\ content n = body
  /\ getAllNotes (this w') = n :: getAllNotes (this w)
  /\ getNoteById (id n) (this w') = Some n
  /\ activeNoteId (this w') = Some (id n)
  /\ (id n <> [] -> getActiveNote (this w') = Some n).
Proof.
  cbv zeta. destruct (createNote_run O ttl body w) as (N & A & T & C & _).
  assert (G : getNoteById (id (eval (createNote O ttl body) w))
                (this (exec (createNote O ttl body) w))
              = Some (eval (createNote O ttl body) w)).
  { unfold getNoteById. rewrite N. simpl. unfold sameId.
    now rewrite eqb_refl. }
  repeat split; try assumption.
  intros Hid. unfold getActiveNote. rewrite A.
  destruct (id (eval (createNote O ttl body) w)); [congruence | exact G].
Qed.

Lemma createNote_then_lookup_witness :
  getActiveNote (this (exec (createNote Samples.calm (js "T") (js "<p>x</p>"))
                         Samples.anonymous))
  = Some (eval (createNote Samples.calm (js "T") (js "<p>x</p>"))
            Samples.anonymous).
Proof.
  apply (createNote_then_lookup Samples.calm (js "T") (js "<p>x</p>")
           Samples.anonymous).
  discriminate.
Defined.

Lemma map_id_assign (k : nat) (new old : Note) (l : list Note) :
  nth_error l k = Some old -> id new = id old ->
  map id (assign k new l) = map id l.
Proof.
  revert k. induction l as [|x l IH]; intros [|k]; simpl; try discriminate.
  - intros [= ->] E. now rewrite E.
  - intros H E. f_equal. now apply IH.
Qed.

Lemma updateNote_scoped (O : Oracle) (i : jsstring) (u : Updates) (w : World) :
  scoped w (exec (updateNote O i u) w).
Proof.
  unfold exec.
  assert (Store : forall w2, scoped w w2 ->
            scoped w (snd (updateNoteInStorage O i u w2))).
  { intros w2 H. eapply scoped_trans; [exact H|].
    unfold updateNoteInStorage, toISOString, notify. run_monad.
    destruct (findIndex (sameId i) (notes (this w2))) as [k|];
      [|apply scoped_refl].
    destruct (nth_error (notes (this w2)) k) as [old|]; [|apply scoped_refl].
    cbn. step_save. cbn in *. apply quiet_scoped; cbn; try assumption.
    match goal with H : sameSchedule _ _ |- _ => destruct H as [H' _] end.
    exact H'. }
  unfold updateNote, isAuthenticated. run_monad.
  destruct (useDatabase (this w) && isSome (user w)) eqn:Hmode;
    [|apply Store, scoped_refl].
  apply andb_prop in Hmode as [Hd Hs].
  destruct (user w) as [usr|] eqn:Hu; [|discriminate].
  unfold updateNoteInDatabase, toISOString, db_update, send, notify.
  run_monad. cbn. rewrite Hu. cbn.
  assert (Sent : forall t, user t = Some usr ->
            requests t = requests w ++ [Update i (user_id usr) u (dateISO O (tick w))] ->
            scoped w t).
  { intros t Ut Rt.
    apply (sent_scoped (Update i (user_id usr) u (dateISO O (tick w))) w t usr);
      try assumption; [reflexivity | congruence]. }
  destruct (outcome O (S (tick w))); cbn.
  - destruct (find _ (table w)); cbn.
    + destruct (findIndex (sameId i) (notes (this w))); cbn.
      * step_save. cbn in *. apply Sent; cbn; [|assumption].
        match goal with H : sameSchedule _ _ |- _ => destruct H as [H' _] end.
        cbn in H'. congruence.
      * apply Sent; cbn; [exact Hu | reflexivity].
    + apply Store, Sent; cbn; [exact Hu | reflexivity].
  - apply Store, Sent; cbn; [exact Hu | reflexivity].
  - apply Store, Sent; cbn; [exact Hu | reflexivity].
Qed.

Lemma map_assign {A B} (f : A -> B) (k : nat) (x : A) (l : list A) :
  map f (assign k x l) = assign k (f x) (map f l).
Proof.
  revert k. induction l as [|y l IH]; intros [|k]; simpl; try reflexivity.
  now rewrite IH.
Qed.

(** The ids and the active pointer across an [updateNote] whose updates
    have no [id] key. *)
Lemma updateNote_ids (O : Oracle) (i : jsstring) (u : Updates) (w : World) :
  upd_id u = None ->
  map id (notes (this (exec (updateNote O i u) w))) = map id (notes (this w))
  /\ activeNoteId (this (exec (updateNote O i u) w)) = activeNoteId (this w).
Proof.
  intros Hu.
  destruct (findIndex (sameId i) (notes (this w))) as [k|] eqn:Hk.
  - destruct (findIndex_nth _ _ _ Hk) as (old & Ho & Hid).
    apply eqb_eq in Hid.
    destruct (updateNote_found O i u w k old Hk Ho) as (_ & _ & _ & _ & _ & A).
    destruct (updateNote_found_id O i u w k Hk) as (new & _ & L & I).
    split; [|exact A]. rewrite L. apply (map_id_assign k new old); [exact Ho|].
    rewrite I, Hu. now symmetry.
  - destruct (updateNote_missing O i u w Hk) as [_ E]. now rewrite E.
Qed.

(** X9.  [updateNote] never adds, removes or reorders notes and never moves
    the active pointer, whatever the updates, the mode and the table's
    answer.  With updates that have no [id] key it never changes an id: the
    list of ids is the same before and after.  An [id] key, on the other
    hand, renames the note found: its place in the list of ids takes the
    new id. *)
Theorem updateNote_keeps_ids (O : Oracle) (i : jsstring) (u : Updates) (w : World) :
  let w' := exec (updateNote O i u) w in
  length (notes (this w')) = length (notes (this w))
  /\ activeNoteId (this w') = activeNoteId (this w)
  /\ (upd_id u = None -> map id (notes (this w')) = map id (notes (this w)))
  /\ (forall j k, upd_id u = Some j ->
        findIndex (sameId i) (notes (this w)) = Some k ->
        map id (notes (this w')) = assign k j (map id (notes (this w)))).
Proof.
  intros w'. subst w'.
  assert (LA : length (notes (this (exec (updateNote O i u) w)))
               = length (notes (this w))
               /\ activeNoteId (this (exec (updateNote O i u) w))
                  = activeNoteId (this w)).
  { destruct (findIndex (sameId i) (notes (this w))) as [k|] eqn:Hk.
    - destruct (findIndex_nth _ _ _ Hk) as (old & Ho & _).
      destruct (updateNote_found O i u w k old Hk Ho)
        as (new & t & _ & _ & L & A).
      split; [|exact A]. rewrite L. apply length_assign.
    - destruct (updateNote_missing O i u w Hk) as [_ E]. now rewrite E. }
  destruct LA as [L A]. split; [exact L|]. split; [exact A|]. split.
  - intros Hu. now apply updateNote_ids.
  - intros j k Hj Hk.
    destruct (updateNote_found_id O i u w k Hk) as (new & _ & N & I).
    rewrite N, map_assign, I, Hj. reflexivity.
Qed.

Lemma updateNote_keeps_ids_witness :
  map id (notes (this (exec (updateNote Samples.calm (js "b")
                               (mkUpdates (Some (js "T")) None))
                         Samples.three)))
  = [js "a"; js "b"; js "c"]
  /\ map id (notes (this (exec (updateNote Samples.calm (js "b")
                                  (mkPatch (Some (js "zz")) None None))
                            Samples.three)))
     = [js "a"; js "zz"; js "c"].
Proof.
  split.
  - destruct (updateNote_keeps_ids Samples.calm (js "b")
                (mkUpdates (Some (js "T")) None) Samples.three)
      as (_ & _ & H & _).
    apply (H eq_refl).
  - destruct (updateNote_keeps_ids Samples.calm (js "b")
                (mkPatch (Some (js "zz")) None None) Samples.three)
      as (_ & _ & _ & H).
    apply (H (js "zz") 1 eq_refl eq_refl).
Defined.

(** What [deleteNote] does in every case. *)
Lemma deleteNote_run (O : Oracle) (i : jsstring) (w : World) :
  let r := eval (deleteNote O i) w in
  let w' := exec (deleteNote O i) w in
  lsNotes w' = lsNotes w /\ lsActiveId w' = lsActiveId w
  /\ scoped w w'
  /\ ((r <> Return true /\ this w' = this w
       /\ (r = Return false \/ table w' = table w))
      \/ (r = Return true
          /\ exists k,
               findIndex (sameId i) (notes (this w)) = Some k
               /\ notes (this w') = splice1 k (notes (this w))
               /\ activeNoteId (this w') =
                  if sameActive i (activeNoteId (this w))
                  then match splice1 k (notes (this w)) with
                       | n :: _ => Some (id n)
                       | [] => None
                       end
                  else activeNoteId (this w))).
Proof.
  cbv zeta. unfold eval, exec.
  unfold deleteNote, db_delete, send, notify. run_monad.
  destruct (user w) as [usr|] eqn:Hu; cbn.
  - assert (Sent : forall t, user t = Some usr ->
              requests t = requests w ++ [Delete i (user_id usr)] ->
              scoped w t).
    { intros t Ut Rt.
      apply (sent_scoped (Delete i (user_id usr)) w t usr);
        try assumption; [reflexivity | congruence]. }
    destruct (outcome O (tick w)) eqn:Ho; cbn.
    + destruct (findIndex (sameId i) (notes (this w))) as [k|] eqn:Hk; cbn.
      * destruct (sameActive i (activeNoteId (this w))) eqn:Ha; cbn;
          [destruct (splice1 k (notes (this w))) eqn:Hs; cbn|];
          (split; [reflexivity|]; split; [reflexivity|];
           split; [apply Sent; cbn; [exact Hu | reflexivity]|];
           right; split; [reflexivity|]; exists k;
           rewrite ?Hs; now repeat split).
      * split; [reflexivity|]. split; [reflexivity|].
        split; [apply Sent; cbn; [exact Hu | reflexivity]|].
        left. split; [discriminate|]. split; [reflexivity | now left].
    + split; [reflexivity|]. split; [reflexivity|].
      split; [apply Sent; cbn; [exact Hu | reflexivity]|].
      left. split; [discriminate|]. split; [reflexivity | now right].
    + split; [reflexivity|]. split; [reflexivity|].
      split; [apply Sent; cbn; [exact Hu | reflexivity]|].
      left. split; [discriminate|]. split; [reflexivity | now right].
  - split; [reflexivity|]. split; [reflexivity|].
    split; [apply scoped_refl|].
    left. split; [discriminate|]. split; [reflexivity | now right].
Qed.

(** X10.  A delete that the table refuses, or whose request is rejected,
    is reported to the caller by the error ["Failed to delete note"], and
    nothing is removed: the store's fields, the table and the localStorage
    mirror are as before.  An accepted delete of an id that is not in the
    list returns [false] and leaves the store's fields as they were. *)
Theorem deleteNote_failure_keeps_notes
  (O : Oracle) (i : jsstring) (w : World) (usr : User) :
  user w = Some usr ->
  (outcome O (tick w) <> Accepted ->
   eval (deleteNote O i) w = Throw bool deleteFailed
   /\ this (exec (deleteNote O i) w) = this w
   /\ table (exec (deleteNote O i) w) = table w
   /\ lsNotes (exec (deleteNote O i) w) = lsNotes w)
  /\ (outcome O (tick w) = Accepted ->
      (forall n, In n (notes (this w)) -> id n <> i) ->
      eval (deleteNote O i) w = Return false
      /\ this (exec (deleteNote O i) w) = this w).
Proof.
  intros Hu. unfold eval, exec.
  unfold deleteNote, db_delete, send, notify. run_monad. rewrite Hu. cbn.
  split.
  - intros Ho. destruct (outcome O (tick w)); [congruence | |];
      now repeat split.
  - intros Ho Hn. rewrite Ho. cbn.
    assert (E : findIndex (sameId i) (notes (this w)) = None).
    { apply findIndex_None. intros n Hin. apply eqb_neq. now apply Hn. }
    rewrite E. now split.
Qed.

Lemma deleteNote_failure_keeps_notes_witness :
  eval (deleteNote (Samples.refusingAt 0) (js "b")) Samples.three
  = Throw bool deleteFailed
  /\ eval (deleteNote Samples.calm (js "zz")) Samples.three = Return false.
Proof.
  split.
  - apply (deleteNote_failure_keeps_notes (Samples.refusingAt 0) (js "b")
             Samples.three Samples.ann eq_refl).
    discriminate.
  - apply (deleteNote_failure_keeps_notes Samples.calm (js "zz")
             Samples.three Samples.ann eq_refl); [reflexivity|].
    intros n [<- | [<- | [<- | []]]]; discriminate.
Defined.

(** Loading a stored, non-empty list: the list replaces the one in memory;
    the stored active id is taken when it is not empty and names a stored
    note, the first note otherwise. *)
Lemma loadNotesFromStorage_restores
  (O : Oracle) (w : World) (n : Note) (l : list Note) :
  lsNotes w = Some (Some (n :: l)) ->
  notes (this (exec (loadNotesFromStorage O) w)) = n :: l
  /\ activeNoteId (this (exec (loadNotesFromStorage O) w)) =
     match lsActiveId w with
     | Some a =>
         if truthy a && isSome (find (sameId a) (n :: l)) then Some a
         else Some (id n)
     | None => Some (id n)
     end
  /\ lsNotes (exec (loadNotesFromStorage O) w) = lsNotes w
  /\ table (exec (loadNotesFromStorage O) w) = table w.
Proof.
  intros H. unfold exec, loadNotesFromStorage, notify. run_monad.
  rewrite H. cbn. unfold getNoteById. cbn [notes set_notes].
  destruct (lsActiveId w) as [a|]; cbn;
    repeat match goal with
           | |- context [if ?c then _ else _] => destruct c; cbn
           end;
    rewrite ?H; now repeat split.
Qed.

(** X11.  [deleteNote] never writes to localStorage.  So after a successful
    delete the mirror still holds the list saved before it, and on sign-out
    the store reloads that list: a deleted note that was mirrored is back
    in memory. *)
Theorem deleteNote_leaves_mirror
  (O : Oracle) (i : jsstring) (w : World) (n : Note) (l : list Note) :
  lsNotes (exec (deleteNote O i) w) = lsNotes w
  /\ lsActiveId (exec (deleteNote O i) w) = lsActiveId w
  /\ (lsNotes w = Some (Some (n :: l)) ->
      notes (this (exec (setUser O None) (exec (deleteNote O i) w))) = n :: l).
Proof.
  destruct (deleteNote_run O i w) as (L1 & L2 & _).
  split; [exact L1|]. split; [exact L2|].
  intros H. unfold setUser, handleUserChange. rewrite !exec_bind.
  apply loadNotesFromStorage_restores. cbn. congruence.
Qed.

Lemma deleteNote_leaves_mirror_witness :
  notes (this (exec (deleteNote Samples.calm (js "b")) Samples.three))
  = [Samples.noteA; Samples.noteC]
  /\ notes (this (exec (setUser Samples.calm None)
                    (exec (deleteNote Samples.calm (js "b")) Samples.three)))
     = [Samples.noteA; Samples.noteB; Samples.noteC].
Proof.
  split; [reflexivity|].
  apply (deleteNote_leaves_mirror Samples.calm (js "b") Samples.three
           Samples.noteA [Samples.noteB; Samples.noteC]).
  reflexivity.
Defined.

(** X12.  What [saveNotesToStorage] writes, [loadNotesFromStorage] reads
    back: a store built on the same localStorage (a reload of the page)
    holds the same non-empty list, and the same active note when the active
    id is not empty and names a note of the list. *)
Theorem save_then_reload (O O' : Oracle) (w : World) (a : jsstring) :
  quotaExceeded O (tick w) = false ->
  quotaExceeded O (S (tick w)) = false ->
  notes (this w) <> [] ->
  let reloaded := newNoteManager O' (exec (saveNotesToStorage O) w) in
  notes (this reloaded) = notes (this w)
  /\ (activeNoteId (this w) = Some a -> a <> [] ->
      (exists n, In n (notes (this w)) /\ id n = a) ->
      activeNoteId (this reloaded) = Some a).
Proof.
  intros Q1 Q2 Hn reloaded.
  destruct (notes (this w)) as [|n l] eqn:En; [congruence|].
  assert (Saved : lsNotes (exec (saveNotesToStorage O) w) = Some (Some (n :: l))
                  /\ lsActiveId (exec (saveNotesToStorage O) w)
                     = Some (match activeNoteId (this w) with
                             | Some x => or_else x []
                             | None => []
                             end)).
  { unfold exec, saveNotesToStorage, setItemNotes, setItemActiveId.
    run_monad. rewrite Q1. cbn. rewrite Q2. cbn. now rewrite En. }
  destruct Saved as [S1 S2].
  subst reloaded. unfold newNoteManager.
  match goal with
  | |- context [exec (loadNotesFromStorage O') ?x] =>
      destruct (loadNotesFromStorage_restores O' x n l) as (R1 & R2 & _);
        [cbn; exact S1|]
  end.
  split; [exact R1|].
  intros Ha Hne (m & Hm & Hid). rewrite R2. cbn [lsActiveId with_this].
  rewrite S2, Ha. unfold or_else.
  destruct a as [|c a']; [congruence|]. cbn [truthy andb].
  destruct (find (sameId (c :: a')) (n :: l)) eqn:F; [reflexivity|].
  pose proof (find_none _ _ F m Hm) as X. unfold sameId in X.
  apply eqb_neq in X. congruence.
Qed.

Lemma save_then_reload_witness :
  let reloaded := newNoteManager Samples.calm
                    (exec (saveNotesToStorage Samples.calm) Samples.three) in
  notes (this reloaded) = [Samples.noteA; Samples.noteB; Samples.noteC]
  /\ activeNoteId (this reloaded) = Some (js "b").
Proof.
  assert (N : notes (this Samples.three) <> []) by discriminate.
  destruct (save_then_reload Samples.calm Samples.calm Samples.three (js "b")
              eq_refl eq_refl N) as [H1 H2].
  split; [exact H1|]. apply H2; [reflexivity | discriminate |].
  exists Samples.noteB. split; [right; left; reflexivity | reflexivity].
Defined.

Ltac split_ifs :=
  repeat match goal with
         | |- context [if ?c then _ else _] => destruct c eqn:?; cbn
         end.

Lemma validActive_pick (m : NoteManager) (n : Note) (l : list Note)
  (saved : option jsstring) :
  notes m = n :: l ->
  activeNoteId m =
    match saved with
    | Some a =>
        if truthy a && isSome (find (sameId a) (n :: l)) then Some a
        else Some (id n)
    | None => Some (id n)
    end ->
  validActive m.
Proof.
  intros N A. unfold validActive. rewrite A, N.
  destruct saved as [a|]; [|exists n; split; [now left | reflexivity]].
  destruct (truthy a && isSome (find (sameId a) (n :: l))) eqn:E;
    [|exists n; split; [now left | reflexivity]].
  apply andb_prop in E as [_ E].
  destruct (find (sameId a) (n :: l)) as [x|] eqn:F; [|discriminate].
  apply find_some in F as [F1 F2]. exists x. split; [exact F1|].
  now apply eqb_eq.
Qed.

Lemma loadNotesFromStorage_kept
  (O : Oracle) (w : World) (n : Note) (l : list Note) :
  lsNotes w = None -> notes (this w) = n :: l ->
  notes (this (exec (loadNotesFromStorage O) w)) = n :: l
  /\ activeNoteId (this (exec (loadNotesFromStorage O) w)) =
     match lsActiveId w with
     | Some a =>
         if truthy a && isSome (find (sameId a) (n :: l)) then Some a
         else Some (id n)
     | None => Some (id n)
     end.
Proof.
  intros H N. unfold exec, loadNotesFromStorage, notify. run_monad.
  rewrite H. cbn. unfold getNoteById. rewrite N.
  destruct (lsActiveId w) as [a|]; cbn;
    repeat match goal with
           | |- context [if ?c then _ else _] => destruct c; cbn
           end;
    rewrite ?N; now repeat split.
Qed.

(** Whatever was stored and whatever was in memory, after loading from
    localStorage the active pointer names a note of the list. *)
Lemma loadNotesFromStorage_valid (O : Oracle) (w : World) :
  validActive (this (exec (loadNotesFromStorage O) w)).
Proof.
  destruct (lsNotes w) as [[[|n l]|]|] eqn:HL.
  - unfold exec, loadNotesFromStorage, notify. run_monad. rewrite HL. cbn.
    destruct (lsActiveId w) as [a|]; cbn; split_ifs; step_create;
      cbn in *; eapply validActive_head; eassumption.
  - destruct (loadNotesFromStorage_restores O w n l HL) as (N & A & _).
    eapply validActive_pick; eassumption.
  - unfold exec, loadNotesFromStorage, notify. run_monad. rewrite HL. cbn.
    step_create. cbn in *. eapply validActive_head; eassumption.
  - destruct (notes (this w)) as [|n l] eqn:En.
    + unfold exec, loadNotesFromStorage, notify. run_monad. rewrite HL. cbn.
      unfold getNoteById. rewrite En.
      destruct (lsActiveId w) as [a|]; cbn; split_ifs; step_create;
        cbn in *; eapply validActive_head; eassumption.
    + destruct (loadNotesFromStorage_kept O w n l HL En) as (N & A).
      eapply validActive_pick; eassumption.
Qed.

Lemma loadNotesFromStorage_scoped (O : Oracle) (w : World) :
  scoped w (exec (loadNotesFromStorage O) w).
Proof.
  destruct (loadNotesFromStorage_run O w) as (T & U & R & _).
  now apply quiet_scoped.
Qed.

(** The migration changes no field of the store, and asks the table only in
    the name of the signed-in user. *)
Lemma migrateToDatabase_scoped (O : Oracle) (w : World) :
  this (exec (migrateToDatabase O) w) = this w
  /\ scoped w (exec (migrateToDatabase O) w).
Proof.
  unfold exec, migrateToDatabase, db_selectOne, send. run_monad.
  destruct (user w) as [usr|] eqn:Hu; [|split; [reflexivity | apply scoped_refl]].
  destruct (notes (this w)) as [|n0 l0] eqn:El;
    [split; [reflexivity | apply scoped_refl]|].
  cbn.
  assert (Sent : scoped w (sent (SelectOne (user_id usr)) w)).
  { apply (sent_scoped (SelectOne (user_id usr)) w _ usr);
      try reflexivity; assumption. }
  assert (Each : this (snd (migrateEach O (user_id usr) (n0 :: l0)
                              (sent (SelectOne (user_id usr)) w))) = this w
                 /\ scoped w (snd (migrateEach O (user_id usr) (n0 :: l0)
                                     (sent (SelectOne (user_id usr)) w)))).
  { pose proof (migrateEach_run O (user_id usr) (n0 :: l0)
                  (sent (SelectOne (user_id usr)) w)) as (_ & I2 & I3 & I4 & _).
    unfold exec in *. split; [exact I3|].
    eapply scoped_trans; [exact Sent|].
    split; [exact I4|]. eexists. split; [exact I2|].
    cbn [user sent]. rewrite Hu. apply Forall_forall.
    intros r Hr. apply in_map_iff in Hr as (x & <- & _). reflexivity. }
  destruct (outcome O (tick w)); cbn.
  - destruct (map row_id (filter (ownedBy (user_id usr)) (table w)));
      cbn; [rewrite El; exact Each | split; [reflexivity | exact Sent]].
  - rewrite El. exact Each.
  - split; [reflexivity | exact Sent].
Qed.

Ltac step_createNote :=
  match goal with
  | |- context [createNote ?O ?a ?b ?x] =>
      let H := fresh "C" in
      pose proof (createNote_run O a b x) as H;
      cbv zeta in H; unfold eval, exec in H;
      destruct (createNote O a b x) as [? ?];
      cbn [fst snd] in H;
      destruct H as (? & ? & ? & ? & ?)
  end.

Ltac step_load :=
  match goal with
  | |- context [loadNotesFromStorage ?O ?x] =>
      let V := fresh "V" in
      let S := fresh "S" in
      let R := fresh "R" in
      pose proof (loadNotesFromStorage_valid O x) as V;
      pose proof (loadNotesFromStorage_scoped O x) as S;
      pose proof (loadNotesFromStorage_run O x) as R;
      cbv zeta in R; unfold exec in V, S, R;
      destruct (loadNotesFromStorage O x) as [[] ?];
      cbn [fst snd] in V, S, R
  end.

Lemma scoped_this (f : NoteManager -> NoteManager) (w w' : World) :
  scoped w w' -> scoped w (with_this f w').
Proof. intros H. exact H. Qed.

(** After a reload from the table the active pointer names a note of the
    list and the list is not empty; the table was asked only in the name of
    the signed-in user. *)
Lemma loadNotesFromDatabase_sum (O : Oracle) (w : World) :
  validActive (this (exec (loadNotesFromDatabase O) w))
  /\ notes (this (exec (loadNotesFromDatabase O) w)) <> []
  /\ scoped w (exec (loadNotesFromDatabase O) w).
Proof.
  unfold exec, loadNotesFromDatabase, db_selectAll, send, notify. run_monad.
  destruct (user w) as [usr|] eqn:Hu.
  - cbn.
    assert (Sent : scoped w (sent (SelectAll (user_id usr))
                               (with_this (set_loading true) w))).
    { apply (sent_scoped (SelectAll (user_id usr)) w _ usr);
        try reflexivity; assumption. }
    destruct (outcome O (tick w)); cbn.
    + destruct (newestFirst (filter (ownedBy (user_id usr)) (table w)))
        as [|r rows]; cbn.
      * step_createNote. step_save. cbn in *.
        match goal with H : this _ = this _ |- _ => rename H into T end.
        unfold validActive. cbn. rewrite T.
        repeat match goal with
               | H : notes _ = _ |- _ => rewrite H
               | H : activeNoteId _ = _ |- _ => rewrite H
               end.
        split; [eexists; split; [now left | reflexivity]|].
        split; [discriminate|].
        eapply scoped_trans; [exact Sent|].
        eapply scoped_trans; [eassumption|].
        apply quiet_scoped; cbn; try assumption.
        match goal with H : sameSchedule _ _ |- _ => destruct H as [H' _] end.
        exact H'.
      * step_save. cbn in *.
        match goal with H : this _ = _ |- _ => rename H into T end.
        unfold validActive. cbn. rewrite T. cbn.
        split; [eexists; split; [now left | reflexivity]|].
        split; [discriminate|].
        eapply scoped_trans; [exact Sent|].
        apply quiet_scoped; cbn; try assumption.
        match goal with H : sameSchedule _ _ |- _ => destruct H as [H' _] end.
        exact H'.
    + step_load. destruct R as (_ & _ & _ & N). cbn.
      split; [exact V|]. split; [exact N|].
      eapply scoped_trans; [exact Sent | exact S].
    + step_load. destruct R as (_ & _ & _ & N). cbn.
      split; [exact V|]. split; [exact N|].
      eapply scoped_trans; [exact Sent | exact S].
  - step_load. destruct R as (_ & _ & _ & N). cbn.
    split; [exact V|]. split; [exact N|]. exact S.
Qed.

(** What a change of session leaves behind. *)
Lemma setUser_sum (O : Oracle) (u : option User) (w : World) :
  let w' := exec (setUser O u) w in
  user w' = u
  /\ validActive (this w')
  /\ notes (this w') <> []
  /\ exists rs, requests w' = requests w ++ rs
       /\ match u with
          | Some usr => Forall (fun r => requestUser r = user_id usr) rs
          | None => rs = [] /\ table w' = table w
          end.
Proof.
  cbv zeta. unfold setUser, handleUserChange. destruct u as [usr|].
  - rewrite !exec_bind.
    set (w1 := exec (modify (with_this (set_useDatabase true)))
                 (exec (modify (set_user (Some usr))) w)).
    destruct (migrateToDatabase_scoped O w1) as [M1 M2].
    set (w2 := exec (migrateToDatabase O) w1) in *.
    destruct (loadNotesFromDatabase_sum O w2) as (L1 & L2 & L3).
    pose proof (scoped_trans _ _ _ M2 L3) as (U & rs & R & F).
    split; [exact U|]. split; [exact L1|]. split; [exact L2|].
    exists rs. split; [exact R | exact F].
  - rewrite !exec_bind.
    set (w1 := exec (modify (with_this (set_useDatabase false)))
                 (exec (modify (set_user None)) w)).
    pose proof (loadNotesFromStorage_valid O w1) as V.
    destruct (loadNotesFromStorage_run O w1) as (T & U & R & N).
    split; [exact U|]. split; [exact V|]. split; [exact N|].
    exists []. rewrite app_nil_r.
    split; [exact R | split; [reflexivity | exact T]].
Qed.

Lemma updateNote_valid (O : Oracle) (i : jsstring) (u : Updates) (w : World) :
  upd_id u = None ->
  validActive (this w) -> validActive (this (exec (updateNote O i u) w)).
Proof.
  intros Hu. destruct (updateNote_ids O i u w Hu) as [I A].
  now apply validActive_ids.
Qed.

Lemma in_splice1 (k : nat) (x n : Note) (l : list Note) :
  nth_error l k = Some x -> In n l -> id n <> id x -> In n (splice1 k l).
Proof.
  revert k. induction l as [|y l IH]; intros [|k]; simpl; try discriminate.
  - intros [= ->] [<- | H] Hne; [congruence | exact H].
  - intros Hk [<- | H] Hne; [now left | right; now apply (IH k)].
Qed.

Lemma deleteNote_valid (O : Oracle) (i : jsstring) (w : World) :
  validActive (this w) -> validActive (this (exec (deleteNote O i) w)).
Proof.
  intros V.
  destruct (deleteNote_run O i w) as (_ & _ & _ & [(_ & E & _) | (_ & k & Hk & N & A)]).
  - now rewrite E.
  - unfold validActive in *. rewrite A, N.
    destruct (sameActive i (activeNoteId (this w))) eqn:Ha.
    + destruct (splice1 k (notes (this w))) as [|n l];
        [reflexivity | exists n; split; [now left | reflexivity]].
    + destruct (activeNoteId (this w)) as [a|] eqn:Ea.
      * destruct V as (n & Hn & Hid).
        destruct (findIndex_nth _ _ _ Hk) as (x & Hx & Hsame).
        apply eqb_eq in Hsame. simpl in Ha. apply eqb_neq in Ha.
        exists n. split; [|exact Hid].
        apply (in_splice1 k x n); [exact Hx | exact Hn | congruence].
      * rewrite V in Hk. discriminate Hk.
Qed.

Lemma setActiveNote_run (i : jsstring) (w : World) :
  validActive (this w) ->
  validActive (this (exec (setActiveNote i) w))
  /\ scoped w (exec (setActiveNote i) w).
Proof.
  intros V. unfold exec, setActiveNote. run_monad.
  destruct (getNoteById i (this w)) as [n|] eqn:G; cbn.
  - split; [|apply quiet_scoped; reflexivity].
    apply getNoteById_Some in G as [G1 G2].
    unfold validActive. cbn. eauto.
  - split; [exact V | apply scoped_refl].
Qed.

Lemma autoSaveNote_quiet (i content : jsstring) (d : nat) (w : World) :
  notes (this (exec (autoSaveNote i content d) w)) = notes (this w)
  /\ activeNoteId (this (exec (autoSaveNote i content d) w))
     = activeNoteId (this w)
  /\ scoped w (exec (autoSaveNote i content d) w).
Proof.
  unfold exec, autoSaveNote, isAuthenticated, clearTimeout, setTimeout.
  run_monad.
  destruct (user w) eqn:Hu; cbn;
    [|split; [reflexivity|]; split; [reflexivity | apply scoped_refl]].
  destruct (autoSaveTimeout (this w)) as [[|h]|]; cbn;
    (split; [reflexivity|]; split; [reflexivity|];
     apply quiet_scoped; reflexivity).
Qed.

Lemma updateNoteTitle_run (O : Oracle) (i content : jsstring) (w : World) :
  (validActive (this w) ->
   validActive (this (exec (updateNoteTitle O i content) w)))
  /\ scoped w (exec (updateNoteTitle O i content) w).
Proof.
  unfold updateNoteTitle. rewrite exec_bind.
  split; [now apply updateNote_valid | apply updateNote_scoped].
Qed.

Lemma runTimers_run (O : Oracle) (l : list Timer) (w : World) :
  (validActive (this w) -> validActive (this (exec (runTimers O l) w)))
  /\ scoped w (exec (runTimers O l) w).
Proof.
  revert w. induction l as [|t l IH]; intros w.
  - split; [exact (fun H => H) | apply scoped_refl].
  - change (runTimers O (t :: l))
      with (bind (autoSaveCallback O t) (fun _ => runTimers O l)).
    rewrite exec_bind. unfold autoSaveCallback. rewrite !exec_bind.
    set (w1 := exec (modify (logged (timer_note t, timer_content t))) w).
    destruct (updateNoteTitle_run O (timer_note t) (timer_content t) w1)
      as [V1 S1].
    set (w2 := exec (updateNoteTitle O (timer_note t) (timer_content t)) w1)
      in *.
    destruct (IH w2) as [V2 S2].
    split.
    + intros V. apply V2, V1. exact V.
    + eapply scoped_trans; [|exact S2].
      eapply scoped_trans; [|exact S1]. apply quiet_scoped; reflexivity.
Qed.

Lemma advance_run (O : Oracle) (ms : nat) (w : World) :
  (validActive (this w) -> validActive (this (exec (advance O ms) w)))
  /\ scoped w (exec (advance O ms) w).
Proof.
  unfold advance. rewrite !exec_bind.
  match goal with
  | |- context [exec (runTimers O ?l) ?x] =>
      destruct (runTimers_run O l x) as [V S]
  end.
  split; [intros H; apply V; exact H|].
  eapply scoped_trans; [|exact S]. apply quiet_scoped; reflexivity.
Qed.

Lemma setActiveNote_scoped (i : jsstring) (w : World) :
  scoped w (exec (setActiveNote i) w).
Proof.
  unfold exec, setActiveNote. run_monad.
  destruct (getNoteById i (this w)); cbn; apply quiet_scoped; reflexivity.
Qed.

Lemma perform_valid (O : Oracle) (escapeHtml : jsstring -> jsstring)
  (c : Call) (w : World) :
  keepsId c ->
  validActive (this w) -> validActive (this (exec (perform O escapeHtml c) w)).
Proof.
  intros K V.
  destruct c as [ttl body | i u | i txt | i | i | txt name | i txt d | ms | u |];
    cbn [perform]; rewrite ?exec_bind.
  - destruct (createNote_run O ttl body w) as (N & A & _).
    eapply validActive_head; eassumption.
  - now apply updateNote_valid.
  - now apply updateNoteTitle_run.
  - now apply deleteNote_valid.
  - now apply setActiveNote_run.
  - unfold importTextContent.
    match goal with
    | |- context [exec (createNote O ?a ?b) w] =>
        destruct (createNote_run O a b w) as (N & A & _)
    end.
    eapply validActive_head; eassumption.
  - destruct (autoSaveNote_quiet i txt d w) as (N & A & _).
    apply (validActive_ids (this w)); [exact A | now rewrite N | exact V].
  - now apply advance_run.
  - apply setUser_sum.
  - apply setUser_sum.
Qed.

(** X13.  From the constructor on, through any sequence of calls (create,
    update with no [id] key, retitle, delete, select, import, auto-save,
    timers firing, sign-in and sign-out), whatever the table answers and
    whether or not localStorage accepts the writes, for a stored notes entry
    that is absent, unparsable or an array of notes: the active pointer
    names a note that is in the list, and it is null only when the list is
    empty. *)
Theorem active_note_always_in_list
  (O : Oracle) (escapeHtml : jsstring -> jsstring) (w : World)
  (calls : list Call) :
  Forall keepsId calls ->
  validActive (this (performAll O escapeHtml calls (newNoteManager O w))).
Proof.
  assert (H : forall l x, Forall keepsId l -> validActive (this x) ->
            validActive (this (performAll O escapeHtml l x))).
  { induction l as [|c l IH]; intros x K V; [exact V|].
    inversion K as [|c' l' Kc Kl]; subst.
    simpl. apply IH; [exact Kl|]. now apply perform_valid. }
  intros K. apply H; [exact K|].
  unfold newNoteManager. apply loadNotesFromStorage_valid.
Qed.

Lemma active_note_always_in_list_witness :
  validActive
    (this (performAll Samples.calm (fun s => s)
             [CreateNote (js "T") (js "<p>x</p>");
              UpdateNote (js "n1") (mkUpdates (Some (js "R")) None);
              SignIn Samples.ann;
              DeleteNote (js "n1");
              SignOut]
             (newNoteManager Samples.calm Samples.anonymous))).
Proof.
  apply (active_note_always_in_list Samples.calm (fun s => s) Samples.anonymous).
  repeat constructor.
Defined.

Lemma perform_scoped (O : Oracle) (escapeHtml : jsstring -> jsstring)
  (c : Call) (w : World) :
  (forall u, c <> SignIn u) -> c <> SignOut ->
  scoped w (exec (perform O escapeHtml c) w).
Proof.
  intros H1 H2.
  destruct c as [ttl body | i u | i txt | i | i | txt name | i txt d | ms | u |];
    cbn [perform]; rewrite ?exec_bind.
  - apply createNote_run.
  - apply updateNote_scoped.
  - apply updateNoteTitle_run.
  - apply deleteNote_run.
  - apply setActiveNote_scoped.
  - unfold importTextContent. apply createNote_run.
  - apply autoSaveNote_quiet.
  - apply advance_run.
  - now destruct (H1 u).
  - now destruct H2.
Qed.

(** X14.  Every request a call sends to the table is made for the user who
    is signed in when the call returns; a call that ends without a session
    has sent nothing and left the table as it was. *)
Theorem requests_follow_session
  (O : Oracle) (escapeHtml : jsstring -> jsstring) (c : Call) (w : World) :
  let w' := exec (perform O escapeHtml c) w in
  exists rs,
    requests w' = requests w ++ rs
    /\ match user w' with
       | Some usr => Forall (fun r => requestUser r = user_id usr) rs
       | None => rs = [] /\ table w' = table w
       end.
Proof.
  cbv zeta.
  assert (Session : forall u,
            exists rs,
              requests (exec (setUser O u) w) = requests w ++ rs
              /\ match user (exec (setUser O u) w) with
                 | Some usr => Forall (fun r => requestUser r = user_id usr) rs
                 | None => rs = [] /\ table (exec (setUser O u) w) = table w
                 end).
  { intros u. destruct (setUser_sum O u w) as (U & _ & _ & rs & R & F).
    exists rs. split; [exact R|]. rewrite U. exact F. }
  destruct c; try apply Session;
    match goal with
    | |- context [perform O escapeHtml ?c] =>
        destruct (perform_scoped O escapeHtml c w) as (U & rs & R & F);
          [discriminate | discriminate |];
          exists rs; split; [exact R | rewrite U; exact F]
    end.
Qed.

(** X15.  While nobody is signed in the store never contacts the table:
    after any sequence of calls without a sign-in, started without a
    session, no request has been sent and the table is unchanged. *)
Theorem anonymous_store_is_local
  (O : Oracle) (escapeHtml : jsstring -> jsstring) (calls : list Call)
  (w : World) :
  user w = None ->
  (forall u, ~ In (SignIn u) calls) ->
  user (performAll O escapeHtml calls w) = None
  /\ requests (performAll O escapeHtml calls w) = requests w
  /\ table (performAll O escapeHtml calls w) = table w.
Proof.
  revert w. induction calls as [|c l IH]; intros w Hu Hc; [now repeat split|].
  simpl.
  assert (Step : user (exec (perform O escapeHtml c) w) = None
                 /\ requests (exec (perform O escapeHtml c) w) = requests w
                 /\ table (exec (perform O escapeHtml c) w) = table w).
  { assert (Hs : forall u, c <> SignIn u).
    { intros u E. apply (Hc u). left. exact E. }
    destruct c; try (now destruct (Hs u));
      try (match goal with
           | |- context [perform O escapeHtml ?c] =>
               destruct (perform_scoped O escapeHtml c w) as (U & rs & R & F);
                 [discriminate | discriminate |];
                 rewrite Hu in F; destruct F as [-> T];
                 rewrite app_nil_r in R; split; [congruence | now split]
           end).
    cbn [perform].
    destruct (setUser_sum O None w) as (U & _ & _ & rs & R & -> & T).
    rewrite app_nil_r in R. now repeat split. }
  destruct Step as (S1 & S2 & S3).
  destruct (IH (exec (perform O escapeHtml c) w) S1) as (I1 & I2 & I3).
  - intros u Hin. apply (Hc u). now right.
  - split; [exact I1|]. split; congruence.
Qed.

Lemma anonymous_store_is_local_witness :
  requests (performAll Samples.calm (fun s => s)
              [CreateNote (js "T") (js "<p>x</p>");
               UpdateNoteTitle (js "n1") (js "<p>y</p>");
               DeleteNote (js "n1"); SignOut]
              Samples.anonymous) = []
  /\ table (performAll Samples.calm (fun s => s)
              [CreateNote (js "T") (js "<p>x</p>");
               UpdateNoteTitle (js "n1") (js "<p>y</p>");
               DeleteNote (js "n1"); SignOut]
              Samples.anonymous) = [].
Proof.
  apply (anonymous_store_is_local Samples.calm (fun s => s)
           [CreateNote (js "T") (js "<p>x</p>");
            UpdateNoteTitle (js "n1") (js "<p>y</p>");
            DeleteNote (js "n1"); SignOut]
           Samples.anonymous eq_refl).
  intros u [H | [H | [H | [H | []]]]]; discriminate H.
Defined.

(* ================================================================== *)
(** ** Start-up, selection and look-ups *)
(* ================================================================== *)

(** X16.  A store constructed on a browser that holds no notes (the key is
    missing, or holds an empty array) or holds something [JSON.parse]
    rejects starts with exactly one note, the welcome note titled
    ["Welcome to takenote"], which is active, has a generated id and, when
    localStorage accepts the writes, is saved at once.  The unreadable case
    shows a shorter welcome text. *)
Theorem first_run_welcome (O : Oracle) (w : World) :
  lsNotes w = None \/ lsNotes w = Some (Some []) \/ lsNotes w = Some None ->
  let w' := newNoteManager O w in
  let t := tick w in
  exists n,
    notes (this w') = [n]
    /\ activeNoteId (this w') = Some (id n)
    /\ id n = js "note_" ++ dateNow O t ++ js "_" ++ random36 O (S t)
    /\ title n = js "Welcome to takenote"
    /\ content n = match lsNotes w with
                   | Some None => welcomeRecovered
                   | _ => welcomeLocal
                   end
    /\ (quotaExceeded O (4 + t) = false -> quotaExceeded O (5 + t) = false ->
        lsNotes w' = Some (Some [n]) /\ lsActiveId w' = Some (id n)).
Proof.
  intros H w' t. subst w' t.
  set (w0 := with_this (fun _ => mkNoteManager [] None false false None) w).
  assert (E : exists body,
            body = match lsNotes w with
                   | Some None => welcomeRecovered
                   | _ => welcomeLocal
                   end
            /\ exists k, newNoteManager O w
               = (fun x => match k with 0 => x | S _ => notified x end)
                   (exec (createNoteInStorage O welcomeTitle body) w0)).
  { eexists. split; [reflexivity|].
    unfold newNoteManager. fold w0.
    unfold exec, loadNotesFromStorage, notify. run_monad.
    change (lsNotes w0) with (lsNotes w).
    destruct H as [H | [H | H]]; rewrite H; cbn.
    - exists 1. destruct (lsActiveId w) as [a|]; cbn; split_ifs;
        now destruct (createNoteInStorage O welcomeTitle welcomeLocal _).
    - exists 1. destruct (lsActiveId w) as [a|]; cbn; split_ifs;
        now destruct (createNoteInStorage O welcomeTitle welcomeLocal _).
    - exists 0.
      now destruct (createNoteInStorage O welcomeTitle welcomeRecovered _). }
  destruct E as (body & Hb & k & E). rewrite <- Hb. rewrite E.
  destruct (createNoteInStorage_run O welcomeTitle body w0)
    as (C1 & C2 & C3 & _ & _ & _ & C7).
  exists (eval (createNoteInStorage O welcomeTitle body) w0).
  rewrite C1.
  destruct k.
  - split; [exact C2|]. split; [exact C3|].
    split; [reflexivity|]. split; [reflexivity|]. split; [reflexivity|].
    exact C7.
  - split; [exact C2|]. split; [exact C3|].
    split; [reflexivity|]. split; [reflexivity|]. split; [reflexivity|].
    exact C7.
Qed.

Lemma first_run_welcome_witness :
  exists n,
    notes (this (newNoteManager Samples.calm (blank None [] None None))) = [n]
    /\ title n = welcomeTitle /\ content n = welcomeLocal.
Proof.
  destruct (first_run_welcome Samples.calm (blank None [] None None))
    as (n & H1 & _ & _ & H4 & H5 & _).
  - left. reflexivity.
  - exists n. repeat split; assumption.
Defined.

Lemma find_assign (p : Note -> bool) (k : nat) (new : Note) (l : list Note) :
  findIndex p l = Some k -> p new = true -> find p (assign k new l) = Some new.
Proof.
  revert k. induction l as [|x l IH]; intros k; simpl; [discriminate|].
  destruct (p x) eqn:E.
  - intros [= <-] Hn. simpl. now rewrite Hn.
  - destruct (findIndex p l) as [j|] eqn:F; [|discriminate].
    intros [= <-] Hn. simpl. rewrite E. now apply IH.
Qed.

(** X17.  After [updateNote] on an id that is in the list, with updates
    that have no [id] key: [updateNote] returns a note, never [null]; that
    note has the id asked for and carries the title and the content the
    updates give; and [getNoteById] on the id finds exactly the note
    returned, in either mode and whatever the table answered. *)
Theorem updateNote_then_lookup
  (O : Oracle) (i : jsstring) (u : Updates) (w : World) :
  (exists n, In n (notes (this w)) /\ id n = i) ->
  upd_id u = None ->
  exists new,
    eval (updateNote O i u) w = Some new
    /\ id new = i
    /\ getNoteById i (this (exec (updateNote O i u) w)) = Some new
    /\ (forall t, upd_title u = Some t -> title new = t)
    /\ (forall c, upd_content u = Some c -> content new = c).
Proof.
  intros (n & Hn & Hid) Hu.
  destruct (findIndex (sameId i) (notes (this w))) as [k|] eqn:Hk.
  - destruct (findIndex_nth _ _ _ Hk) as (old & Ho & _).
    destruct (updateNote_found O i u w k old Hk Ho) as (new & t & E & N & L & _).
    destruct (updateNote_found_id O i u w k Hk) as (new' & E' & _ & I).
    rewrite E in E'. injection E' as <-. rewrite Hu in I.
    exists new. split; [exact E|]. split; [exact I|]. split.
    + unfold getNoteById. rewrite L. apply find_assign; [exact Hk|].
      unfold sameId. now apply eqb_eq.
    + rewrite N. split; intros x Hx;
        destruct (Spec.answeredRow O i w); cbn; now rewrite Hx.
  - exfalso. rewrite findIndex_None in Hk. specialize (Hk n Hn).
    unfold sameId in Hk. apply eqb_neq in Hk. congruence.
Qed.

Lemma updateNote_then_lookup_witness :
  exists new,
    eval (updateNote Samples.calm (js "b") (mkUpdates (Some (js "T")) None))
      Samples.three = Some new
    /\ id new = js "b"
    /\ getNoteById (js "b")
         (this (exec (updateNote Samples.calm (js "b")
                        (mkUpdates (Some (js "T")) None)) Samples.three))
       = Some new
    /\ title new = js "T".
Proof.
  destruct (updateNote_then_lookup Samples.calm (js "b")
              (mkUpdates (Some (js "T")) None) Samples.three)
    as (new & E & I & G & T & _).
  - exists Samples.noteB. split; [right; left; reflexivity | reflexivity].
  - reflexivity.
  - exists new. split; [exact E|]. split; [exact I|]. split; [exact G|].
    apply T. reflexivity.
Defined.

Lemma find_splice1_other (p : Note -> bool) (k : nat) (x : Note) (l : list Note) :
  nth_error l k = Some x -> p x = false -> find p (splice1 k l) = find p l.
Proof.
  revert k. induction l as [|y l IH]; intros [|k]; simpl; try discriminate.
  - intros [= ->] E. now rewrite E.
  - intros Hk E. destruct (p y); [reflexivity | now apply (IH k)].
Qed.

Lemma find_splice1_unique (i : jsstring) (k : nat) (l : list Note) :
  findIndex (sameId i) l = Some k -> NoDup (map id l) ->
  find (sameId i) (splice1 k l) = None.
Proof.
  revert k. induction l as [|y l IH]; intros k; simpl; [discriminate|].
  destruct (sameId i y) eqn:E.
  - intros [= <-] D. inversion D as [|? ? Hy _]; subst. simpl.
    destruct (find (sameId i) l) as [z|] eqn:F; [|reflexivity].
    apply find_some in F as [F1 F2]. exfalso. apply Hy.
    unfold sameId in *. apply eqb_eq in E, F2.
    apply in_map_iff. exists z. split; [congruence | exact F1].
  - destruct (findIndex (sameId i) l) as [j|] eqn:F; [|discriminate].
    intros [= <-] D. inversion D; subst. simpl. rewrite E. now apply IH.
Qed.

Lemma length_splice1 (k : nat) (x : Note) (l : list Note) :
  nth_error l k = Some x -> S (length (splice1 k l)) = length l.
Proof.
  revert k. induction l as [|y l IH]; intros [|k]; simpl; try discriminate.
  - reflexivity.
  - intros H. f_equal. now apply (IH k).
Qed.

(** X18.  A successful [deleteNote] removes one note and only that one:
    the list is one shorter, every other id is still found as before, and
    when ids are unique the deleted id is found no more. *)
Theorem deleteNote_then_lookup (O : Oracle) (i : jsstring) (w : World) :
  eval (deleteNote O i) w = Return true ->
  let w' := exec (deleteNote O i) w in
  S (length (notes (this w'))) = length (notes (this w))
  /\ (forall j, j <> i -> getNoteById j (this w') = getNoteById j (this w))
  /\ (NoDup (map id (notes (this w))) -> getNoteById i (this w') = None).
Proof.
  intros H w'. subst w'.
  destruct (deleteNote_run O i w)
    as (_ & _ & _ & [(Hr & _) | (_ & k & Hk & N & _)]); [congruence|].
  destruct (findIndex_nth _ _ _ Hk) as (x & Hx & Hsame).
  apply eqb_eq in Hsame. unfold getNoteById. rewrite N.
  split; [now apply (length_splice1 k x)|]. split.
  - intros j Hj. apply (find_splice1_other _ k x); [exact Hx|].
    unfold sameId. apply eqb_neq. congruence.
  - intros D. now apply find_splice1_unique.
Qed.

Lemma deleteNote_then_lookup_witness :
  getNoteById (js "b")
    (this (exec (deleteNote Samples.calm (js "b")) Samples.three)) = None
  /\ getNoteById (js "c")
       (this (exec (deleteNote Samples.calm (js "b")) Samples.three))
     = Some Samples.noteC.
Proof.
  destruct (deleteNote_then_lookup Samples.calm (js "b") Samples.three eq_refl)
    as (_ & H2 & H3).
  split.
  - apply H3. vm_compute.
    repeat (constructor; [simpl; intuition discriminate|]). constructor.
  - rewrite (H2 (js "c")); [reflexivity | discriminate].
Defined.

(** X19.  [setActiveNote] on an id that is not in the list returns [null]
    and changes nothing; on an id that is in the list it returns the first
    note with that id, points the active pointer at it and leaves the list
    alone, and [getActiveNote] then returns that note (the id not being
    the empty string). *)
Theorem setActiveNote_then_getActiveNote (i : jsstring) (w : World) :
  ((forall n, In n (notes (this w)) -> id n <> i) ->
   setActiveNote i w = (None, w))
  /\ (forall n, getNoteById i (this w) = Some n ->
      eval (setActiveNote i) w = Some n
      /\ notes (this (exec (setActiveNote i) w)) = notes (this w)
      /\ activeNoteId (this (exec (setActiveNote i) w)) = Some i
      /\ (i <> [] -> getActiveNote (this (exec (setActiveNote i) w)) = Some n)).
Proof.
  split.
  - intros H. apply getNoteById_None in H.
    unfold setActiveNote. run_monad. now rewrite H.
  - intros n G. unfold eval, exec, setActiveNote. run_monad. rewrite G. cbn.
    repeat split. intros Hi. unfold getActiveNote. cbn.
    destruct i; [congruence|]. exact G.
Qed.

Lemma setActiveNote_then_getActiveNote_witness :
  getActiveNote (this (exec (setActiveNote (js "c")) Samples.three))
  = Some Samples.noteC
  /\ setActiveNote (js "zz") Samples.three = (None, Samples.three).
Proof.
  destruct (setActiveNote_then_getActiveNote (js "c") Samples.three) as [_ H].
  destruct (setActiveNote_then_getActiveNote (js "zz") Samples.three) as [A _].
  split.
  - apply (H Samples.noteC eq_refl). discriminate.
  - apply A. intros n [<- | [<- | [<- | []]]]; discriminate.
Defined.

(* ================================================================== *)
(** ** One pending timeout *)
(* ================================================================== *)

Lemma sameTimers_refl (w : World) : sameTimers w w.
Proof. now repeat split. Qed.

Lemma sameTimers_trans (a b c : World) :
  sameTimers a b -> sameTimers b c -> sameTimers a c.
Proof. unfold sameTimers. intuition congruence. Qed.

Lemma sameSchedule_timers (w w' : World) : sameSchedule w w' -> sameTimers w w'.
Proof. unfold sameSchedule, sameTimers. intuition. Qed.

Lemma saveNotesToStorage_timers (O : Oracle) (w : World) :
  sameTimers w (exec (saveNotesToStorage O) w).
Proof. apply sameSchedule_timers, saveNotesToStorage_frame. Qed.

Lemma createNoteInStorage_timers (O : Oracle) (ttl body : jsstring) (w : World) :
  sameTimers w (exec (createNoteInStorage O ttl body) w).
Proof.
  unfold exec, createNoteInStorage, generateId, Date_now, Math_random36,
    toISOString, unshiftActive, notify.
  run_monad. cbn.
  match goal with
  | |- context [saveNotesToStorage O ?x] =>
      pose proof (saveNotesToStorage_timers O x) as T; unfold exec in T;
      destruct (saveNotesToStorage O x) as [[] w2]
  end.
  exact T.
Qed.

Lemma createNote_timers (O : Oracle) (ttl body : jsstring) (w : World) :
  sameTimers w (exec (createNote O ttl body) w).
Proof.
  unfold exec, createNote, isAuthenticated. run_monad.
  destruct (useDatabase (this w) && isSome (user w));
    [|apply createNoteInStorage_timers].
  unfold createNoteInDatabase, db_insert, send, unshiftActive, notify.
  run_monad.
  destruct (user w); [|apply createNoteInStorage_timers]. cbn.
  destruct (outcome O (tick w)); cbn.
  - match goal with
    | |- context [saveNotesToStorage O ?x] =>
        pose proof (saveNotesToStorage_timers O x) as T; unfold exec in T;
        destruct (saveNotesToStorage O x) as [[] w2]
    end.
    exact T.
  - exact (createNoteInStorage_timers O ttl body _).
  - exact (createNoteInStorage_timers O ttl body _).
Qed.

Lemma deleteNote_timers (O : Oracle) (i : jsstring) (w : World) :
  sameTimers w (exec (deleteNote O i) w).
Proof.
  unfold exec, deleteNote, db_delete, send, notify. run_monad.
  destruct (user w); cbn; [|apply sameTimers_refl].
  destruct (outcome O (tick w)); cbn; try (now repeat split).
  destruct (findIndex (sameId i) (notes (this w))); cbn;
    [|now repeat split].
  destruct (sameActive i (activeNoteId (this w))); cbn;
    [destruct (splice1 _ _); cbn|]; now repeat split.
Qed.

Lemma loadNotesFromStorage_timers (O : Oracle) (w : World) :
  sameTimers w (exec (loadNotesFromStorage O) w).
Proof.
  unfold exec, loadNotesFromStorage, notify. run_monad.
  destruct (lsNotes w) as [[l|]|]; cbn.
  - destruct l as [|n l]; destruct (lsActiveId w) as [a|]; cbn; split_ifs;
      try (now repeat split);
      match goal with
      | |- context [createNoteInStorage O ?a ?b ?x] =>
          pose proof (createNoteInStorage_timers O a b x) as T;
          unfold exec in T; destruct (createNoteInStorage O a b x) as [? ?]
      end; exact T.
  - match goal with
    | |- context [createNoteInStorage O ?a ?b ?x] =>
        pose proof (createNoteInStorage_timers O a b x) as T;
        unfold exec in T; destruct (createNoteInStorage O a b x) as [? ?]
    end; exact T.
  - destruct (notes (this w)) as [|n l] eqn:En;
      destruct (lsActiveId w) as [a|]; cbn; split_ifs;
      try (now repeat split);
      match goal with
      | |- context [createNoteInStorage O ?a ?b ?x] =>
          pose proof (createNoteInStorage_timers O a b x) as T;
          unfold exec in T; destruct (createNoteInStorage O a b x) as [? ?]
      end; exact T.
Qed.

Lemma migrateEach_timers (O : Oracle) (uid : jsstring) (l : list Note) (w : World) :
  sameTimers w (exec (migrateEach O uid l) w).
Proof.
  revert w. induction l as [|n rest IH]; intros w; [apply sameTimers_refl|].
  change (migrateEach O uid (n :: rest))
    with (bind (db_insert O uid (title n) (content n))
            (fun _ => migrateEach O uid rest)).
  rewrite exec_bind. eapply sameTimers_trans; [|apply IH].
  unfold exec, db_insert, send. run_monad. cbn.
  destruct (outcome O (tick w)); now repeat split.
Qed.

Lemma migrateToDatabase_timers (O : Oracle) (w : World) :
  sameTimers w (exec (migrateToDatabase O) w).
Proof.
  destruct (migrateToDatabase_scoped O w) as [T _].
  unfold exec, migrateToDatabase, db_selectOne, send in *. run_monad.
  destruct (user w) as [usr|]; [|apply sameTimers_refl].
  destruct (notes (this w)) as [|n0 l0] eqn:El; [apply sameTimers_refl|].
  cbn.
  pose proof (migrateEach_timers O (user_id usr) (n0 :: l0)
                (sent (SelectOne (user_id usr)) w)) as E. unfold exec in E.
  destruct (outcome O (tick w)); cbn.
  - destruct (map row_id (filter (ownedBy (user_id usr)) (table w))); cbn;
      [rewrite El; exact E | now repeat split].
  - rewrite El. exact E.
  - now repeat split.
Qed.

Lemma loadNotesFromDatabase_timers (O : Oracle) (w : World) :
  sameTimers w (exec (loadNotesFromDatabase O) w).
Proof.
  unfold exec, loadNotesFromDatabase, db_selectAll, send, notify. run_monad.
  destruct (user w) as [usr|].
  - cbn. destruct (outcome O (tick w)); cbn.
    + destruct (newestFirst (filter (ownedBy (user_id usr)) (table w)))
        as [|r rows]; cbn.
      * match goal with
        | |- context [createNote O ?a ?b ?x] =>
            pose proof (createNote_timers O a b x) as C; unfold exec in C;
            destruct (createNote O a b x) as [? w2]
        end.
        match goal with
        | |- context [saveNotesToStorage O ?x] =>
            pose proof (saveNotesToStorage_timers O x) as T; unfold exec in T;
            destruct (saveNotesToStorage O x) as [[] w3]
        end.
        cbn in *. eapply sameTimers_trans; [exact C | exact T].
      * match goal with
        | |- context [saveNotesToStorage O ?x] =>
            pose proof (saveNotesToStorage_timers O x) as T; unfold exec in T;
            destruct (saveNotesToStorage O x) as [[] w3]
        end.
        exact T.
    + match goal with
      | |- context [loadNotesFromStorage O ?x] =>
          pose proof (loadNotesFromStorage_timers O x) as T; unfold exec in T;
          destruct (loadNotesFromStorage O x) as [[] w3]
      end.
      exact T.
    + match goal with
      | |- context [loadNotesFromStorage O ?x] =>
          pose proof (loadNotesFromStorage_timers O x) as T; unfold exec in T;
          destruct (loadNotesFromStorage O x) as [[] w3]
      end.
      exact T.
  - match goal with
    | |- context [loadNotesFromStorage O ?x] =>
        pose proof (loadNotesFromStorage_timers O x) as T; unfold exec in T;
        destruct (loadNotesFromStorage O x) as [[] w3]
    end.
    exact T.
Qed.

Lemma setUser_timers (O : Oracle) (u : option User) (w : World) :
  sameTimers w (exec (setUser O u) w).
Proof.
  unfold setUser, handleUserChange. destruct u as [usr|]; rewrite !exec_bind.
  - eapply sameTimers_trans; [|apply loadNotesFromDatabase_timers].
    eapply sameTimers_trans; [|apply migrateToDatabase_timers].
    now repeat split.
  - eapply sameTimers_trans; [|apply loadNotesFromStorage_timers].
    now repeat split.
Qed.

Lemma oneTimer_single (w : World) : oneTimer w -> singleTimer w.
Proof.
  intros [P [E | (t & E & A & Q)]]; split; try exact P; rewrite E.
  - intros x [].
  - intros x [<- | []]. now split.
Qed.

Lemma oneTimer_same (w w' : World) :
  sameTimers w w' -> oneTimer w -> oneTimer w'.
Proof.
  intros (_ & T & N & _ & A) [P S]. unfold oneTimer.
  rewrite T, N, A. now split.
Qed.

Lemma autoSaveNote_one (i content : jsstring) (d : nat) (w : World) :
  oneTimer w -> oneTimer (exec (autoSaveNote i content d) w).
Proof.
  intros S. destruct (user w) as [usr|] eqn:Hu.
  - rewrite (autoSaveNote_run i content d w usr Hu (oneTimer_single w S)).
    destruct S as [P _]. split; cbn; [lia|].
    right. eexists. split; [reflexivity|]. cbn. split; [reflexivity | exact P].
  - unfold exec, autoSaveNote, isAuthenticated. run_monad. rewrite Hu. exact S.
Qed.

Lemma runTimers_timers (O : Oracle) (l : list Timer) (w : World) :
  now (exec (runTimers O l) w) = now w
  /\ timers (exec (runTimers O l) w) = timers w
  /\ nextTimer (exec (runTimers O l) w) = nextTimer w
  /\ autoSaveTimeout (this (exec (runTimers O l) w)) = autoSaveTimeout (this w).
Proof.
  revert w. induction l as [|t l IH]; intros w; [now repeat split|].
  change (runTimers O (t :: l))
    with (bind (autoSaveCallback O t) (fun _ => runTimers O l)).
  rewrite exec_bind. unfold autoSaveCallback. rewrite !exec_bind.
  set (w1 := exec (modify (logged (timer_note t, timer_content t))) w).
  destruct (updateNoteTitle_schedule O (timer_note t) (timer_content t) w1)
    as (_ & S1 & S2 & S3 & _ & S5).
  set (w2 := exec (updateNoteTitle O (timer_note t) (timer_content t)) w1) in *.
  destruct (IH w2) as (I1 & I2 & I3 & I4).
  rewrite I1, I2, I3, I4, S1, S2, S3, S5. now repeat split.
Qed.

Lemma advance_one (O : Oracle) (ms : nat) (w : World) :
  oneTimer w -> oneTimer (exec (advance O ms) w).
Proof.
  intros [P S]. unfold advance. rewrite !exec_bind.
  match goal with
  | |- context [exec (runTimers O ?l) ?x] =>
      destruct (runTimers_timers O l x) as (_ & T & N & A);
      set (w' := exec (runTimers O l) x) in *
  end.
  cbn in T, N, A. unfold oneTimer. rewrite T, N, A.
  split; [exact P|].
  destruct S as [E | (t & E & Ha & Q)]; rewrite E; cbn; [now left|].
  destruct (timer_due t <=? now w + ms); cbn; [now left|].
  right. exists t. now repeat split.
Qed.

Lemma perform_one (O : Oracle) (escapeHtml : jsstring -> jsstring)
  (c : Call) (w : World) :
  oneTimer w -> oneTimer (exec (perform O escapeHtml c) w).
Proof.
  intros S.
  destruct c as [ttl body | i u | i txt | i | i | txt name | i txt d | ms | u |];
    cbn [perform]; rewrite ?exec_bind.
  - apply (oneTimer_same w); [apply createNote_timers | exact S].
  - apply (oneTimer_same w);
      [apply sameSchedule_timers, updateNote_schedule | exact S].
  - apply (oneTimer_same w);
      [apply sameSchedule_timers, updateNoteTitle_schedule | exact S].
  - apply (oneTimer_same w); [apply deleteNote_timers | exact S].
  - apply (oneTimer_same w); [|exact S].
    unfold exec, setActiveNote. run_monad.
    destruct (getNoteById i (this w)); now repeat split.
  - unfold importTextContent.
    apply (oneTimer_same w); [apply createNote_timers | exact S].
  - now apply autoSaveNote_one.
  - now apply advance_one.
  - apply (oneTimer_same w); [apply setUser_timers | exact S].
  - apply (oneTimer_same w); [apply setUser_timers | exact S].
Qed.

(** X20.  On a page that starts with no timeout pending, whatever calls
    follow, at most one auto-save timeout is pending at any time, and it is
    the one whose handle the store keeps. *)
Theorem one_pending_timeout
  (O : Oracle) (escapeHtml : jsstring -> jsstring) (w : World)
  (calls : list Call) :
  timers w = [] -> 0 < nextTimer w ->
  let w' := performAll O escapeHtml calls (newNoteManager O w) in
  oneTimer w' /\ singleTimer w' /\ length (timers w') <= 1.
Proof.
  intros T P w'.
  assert (Start : oneTimer (newNoteManager O w)).
  { unfold newNoteManager.
    apply (oneTimer_same
             (with_this (fun _ => mkNoteManager [] None false false None) w));
      [apply loadNotesFromStorage_timers|].
    split; [exact P|]. left. exact T. }
  assert (H : forall l x, oneTimer x ->
            oneTimer (performAll O escapeHtml l x)).
  { induction l as [|c l IH]; intros x S; [exact S|].
    simpl. apply IH, perform_one, S. }
  specialize (H calls _ Start). fold w' in H.
  split; [exact H|]. split; [apply oneTimer_single, H|].
  destruct H as [_ [E | (t & E & _)]]; rewrite E; simpl; lia.
Qed.

Lemma one_pending_timeout_witness :
  length (timers (performAll Samples.calm (fun s => s)
                    [SignIn Samples.ann;
                     AutoSaveNote (js "a") (js "<p>1</p>") 2000;
                     Elapse 100;
                     AutoSaveNote (js "a") (js "<p>2</p>") 2000]
                    (newNoteManager Samples.calm
                       (blank None [] None None)))) <= 1.
Proof.
  apply (one_pending_timeout Samples.calm (fun s => s) (blank None [] None None)
           [SignIn Samples.ann;
            AutoSaveNote (js "a") (js "<p>1</p>") 2000;
            Elapse 100;
            AutoSaveNote (js "a") (js "<p>2</p>") 2000]).
  - reflexivity.
  - apply Nat.lt_0_1.
Defined.

(* ================================================================== *)
(** ** Notes of a signed-in user *)
(* ================================================================== *)

(** X21.  In database mode with a session, when the table accepts the
    insert, [createNote] generates no id of its own: the note it returns
    and puts first carries the id and the stamps the table generated, and
    the table holds exactly one more row, owned by the user, with the
    given title and content. *)
Theorem createNote_accepted
  (O : Oracle) (ttl body : jsstring) (w : World) (usr : User) :
  user w = Some usr ->
  useDatabase (this w) = true ->
  outcome O (tick w) = Accepted ->
  let t := tick w in
  let row := mkRow (serverId O t) (user_id usr) ttl body (serverTime O t)
               (serverTime O t) in
  let w' := exec (createNote O ttl body) w in
  eval (createNote O ttl body) w = noteOfRow row
  /\ notes (this w') = noteOfRow row :: notes (this w)
  /\ activeNoteId (this w') = Some (serverId O t)
  /\ table w' = table w ++ [row]
  /\ requests w' = requests w ++ [Insert (user_id usr) ttl body].
Proof.
  intros Hu Hd Ho t row w'. subst w' t. unfold eval, exec.
  unfold createNote, isAuthenticated, createNoteInDatabase, db_insert,
    send, unshiftActive, notify.
  run_monad. rewrite Hd, Hu. cbn. rewrite Hu. cbn. rewrite Ho. cbn.
  step_save. cbn in *.
  match goal with H : this _ = _ |- _ => rewrite H end. cbn.
  repeat split; assumption.
Qed.

Lemma createNote_accepted_witness :
  table (exec (createNote Samples.calm (js "T") (js "<p>x</p>")) Samples.synced)
  = table Samples.synced
    ++ [mkRow (serverId Samples.calm 0) (js "u1") (js "T") (js "<p>x</p>")
          (serverTime Samples.calm 0) (serverTime Samples.calm 0)].
Proof.
  apply (createNote_accepted Samples.calm (js "T") (js "<p>x</p>")
           Samples.synced Samples.ann eq_refl eq_refl eq_refl).
Defined.

Lemma In_insertRow (r x : Row) (l : list Row) :
  In x (insertRow r l) <-> x = r \/ In x l.
Proof.
  induction l as [|y l IH]; simpl; [intuition|].
  destruct (leb _ _); simpl; [intuition | rewrite IH; intuition].
Qed.

Lemma In_newestFirst (x : Row) (l : list Row) :
  In x (newestFirst l) <-> In x l.
Proof.
  unfold newestFirst. induction l as [|y l IH]; simpl; [reflexivity|].
  rewrite In_insertRow, IH. intuition.
Qed.

Lemma migrateToDatabase_skip (O : Oracle) (w : World) (usr : User) :
  user w = Some usr ->
  notes (this w) <> [] ->
  outcome O (tick w) = Accepted ->
  (exists r, In r (table w) /\ row_user_id r = user_id usr) ->
  migrateToDatabase O w = (tt, sent (SelectOne (user_id usr)) w).
Proof.
  intros Hu Hn Ho Hr. unfold migrateToDatabase, db_selectOne, send.
  run_monad. rewrite Hu.
  destruct (notes (this w)) as [|n0 l0]; [congruence|].
  cbn. rewrite Ho. cbn.
  destruct (owned_filter _ _ Hr) as (r & rest & E). now rewrite E.
Qed.

(** X22.  A user who already owns rows signs in, and the table answers the
    two queries: the local notes are neither migrated nor kept; the notes
    in memory are then exactly the rows of that user (no row of another
    user), one note per row, the first of them being active, and the table
    is unchanged. *)
Theorem sign_in_shows_own_rows (O : Oracle) (w : World) (usr : User) :
  notes (this w) <> [] ->
  outcome O (tick w) = Accepted ->
  outcome O (S (tick w)) = Accepted ->
  (exists r, In r (table w) /\ row_user_id r = user_id usr) ->
  let w' := exec (setUser O (Some usr)) w in
  table w' = table w
  /\ length (notes (this w'))
     = length (filter (ownedBy (user_id usr)) (table w))
  /\ (forall n, In n (notes (this w')) <->
                exists r, In r (table w) /\ row_user_id r = user_id usr
                          /\ noteOfRow r = n)
  /\ activeNoteId (this w') = option_map id (hd_error (notes (this w'))).
Proof.
  intros Hn Ho1 Ho2 Hr w'. subst w'.
  set (rows := newestFirst (filter (ownedBy (user_id usr)) (table w))).
  assert (E : exists w2,
            exec (setUser O (Some usr)) w = w2
            /\ table w2 = table w
            /\ notes (this w2) = map noteOfRow rows
            /\ activeNoteId (this w2) = option_map row_id (hd_error rows)).
  { unfold setUser, handleUserChange. rewrite !exec_bind.
    set (w1 := exec (modify (with_this (set_useDatabase true)))
                 (exec (modify (set_user (Some usr))) w)).
    unfold exec at 2.
    rewrite (migrateToDatabase_skip O w1 usr eq_refl Hn Ho1 Hr). cbn [snd].
    unfold exec, loadNotesFromDatabase, db_selectAll, send, notify.
    run_monad. cbn. rewrite Ho2. cbn. fold rows.
    destruct (owned_filter _ _ Hr) as (r & rest & F).
    destruct rows as [|x xs] eqn:Er.
    - apply (f_equal (@length Row)) in Er. subst rows.
      rewrite length_newestFirst, F in Er. discriminate Er.
    - cbn. step_save. cbn in *. eexists. split; [reflexivity|]. cbn.
      match goal with H : this _ = _ |- _ => rewrite H end. cbn.
      now repeat split. }
  destruct E as (w2 & -> & T & N & A).
  split; [exact T|]. split; [|split].
  - rewrite N, length_map. apply length_newestFirst.
  - intros n. rewrite N, in_map_iff. split.
    + intros (r & <- & Hin). apply In_newestFirst, filter_In in Hin as [H1 H2].
      exists r. split; [exact H1|]. split; [|reflexivity]. now apply eqb_eq.
    + intros (r & H1 & H2 & <-). exists r. split; [reflexivity|].
      apply In_newestFirst, filter_In. split; [exact H1|]. now apply eqb_eq.
  - rewrite A, N. now destruct rows.
Qed.

Lemma sign_in_shows_own_rows_witness :
  map id (notes (this (exec (setUser Samples.calm (Some Samples.ann))
                         (set_table (table Samples.synced) Samples.anonymous))))
  = [js "a"].
Proof.
  assert (N : notes (this (set_table (table Samples.synced) Samples.anonymous))
              <> []) by discriminate.
  destruct (sign_in_shows_own_rows Samples.calm
              (set_table (table Samples.synced) Samples.anonymous) Samples.ann
              N eq_refl eq_refl) as (_ & L & M & _).
  - exists (Samples.rowOf (js "u1") Samples.noteA).
    split; [left; reflexivity | reflexivity].
  - destruct (notes (this (exec (setUser Samples.calm (Some Samples.ann))
                  (set_table (table Samples.synced) Samples.anonymous))))
      as [|n [|m l]] eqn:E; try discriminate L.
    destruct (proj1 (M n) (or_introl eq_refl)) as (r & [<- | []] & _ & <-).
    reflexivity.
Defined.
